(** * Content Intelligence Engine: research and intelligence pipeline

    A shallow embedding of the Python sources under
    [content_intelligence_engine/core] (research_engine.py,
    intelligence_engine.py, strategy_engine.py, pipeline.py) together with
    the properties their specification states about them.

    Conventions of the embedding.
    - A Python [str] is a [string]; every [ascii] stands for the code point
      of its number, so the strings of the embedding are the Python strings
      over the code points below 256 (Latin-1).  Whitespace, word characters
      and lower-casing are Python's on that range.  The literals of the
      embedded sources lie in it, except the bullet U+2022 of one character
      class, which therefore matches no character of the embedding.
    - A Python float is a binary64 double, embedded as the rational it
      holds: [fl q] is the double nearest to [q] (ties to even), and the
      result of a float division, product or difference is [fl] of the
      exact one.  [round(x, digits)] and [int(x)] are computed on that
      double.  Comparisons against the decimal constants of the source
      (0.3, 0.4, 0.5, 50) are made on the exact ratios of the counters: the
      two agree as long as the counters stay far below 2^50, which lists of
      search results and words of a phrase do.  Infinities and NaN, which
      counters and clock readings do not produce, are not embedded, and
      the negative zero is the rational 0.
    - A dict with a fixed set of keys is a record; [d.get(k, default)] on a
      ResearchItem is the record field.  The result of a run, whose [meta]
      entry gains keys as the run proceeds, is a JSON dict.
    - Functions that append to the shared [log] list, read the clock, touch
      the cache directory or call out of the process are computations over
      an explicit store that may raise; what the outside answers (search
      providers, page fetches, the text-generation backend, the clock, the
      disk, [random.choice], [hashlib.md5]) is taken from an environment.
      The text of the prompts, the pacing delays and an exception raised by
      the progress callback are not part of the embedding. *)

From Stdlib Require Import String Ascii List ZArith QArith Qround Qpower Qabs Lia Lqa Permutation Sorted.
From stdpp Require Import gmap strings list pretty.
Import ListNotations.
Open Scope string_scope.

(** ** Python string primitives *)

Module PyStr.

Definition code (c : ascii) : nat := nat_of_ascii c.

Definition between (lo hi : nat) (c : ascii) : bool :=
  ((lo <=? code c) && (code c <=? hi))%nat.

Definition is_code (n : nat) (c : ascii) : bool := (code c =? n)%nat.

(** [str.isspace], which is also [\s] of [re] and the blanks of
    [str.split] and [str.strip]: TAB..CR, FS..US, the blank, NEL (U+0085)
    and the no-break space (U+00A0). *)
Definition is_space (c : ascii) : bool :=
  between 9 13 c || between 28 31 c || is_code 32 c || is_code 133 c || is_code 160 c.

(** [\d]: below 256 the decimal digits are 0..9 (the superscripts and the
    fractions are numeric but not decimal). *)
Definition is_digit (c : ascii) : bool := between 48 57 c.

(** The range [a-z] of a character class. *)
Definition is_az (c : ascii) : bool := between 97 122 c.

(** The code points that [str.lower] changes: A..Z and the Latin-1
    capitals from U+00C0 to U+00DE without the multiplication sign U+00D7.
    Each of them is mapped to the code point 32 above it. *)
Definition is_upper (c : ascii) : bool :=
  between 65 90 c || (between 192 222 c && negb (is_code 215 c)).

(** [str.isalnum]: digits and letters, and below 256 also the ordinal
    indicators U+00AA and U+00BA, the superscripts U+00B2, U+00B3 and
    U+00B9, the micro sign U+00B5, the fractions U+00BC..U+00BE and the
    Latin-1 letters (U+00C0..U+00FF without U+00D7 and U+00F7). *)
Definition is_alnum (c : ascii) : bool :=
  is_digit c || between 65 90 c || is_az c
  || is_code 170 c || is_code 178 c || is_code 179 c || is_code 181 c || is_code 185 c || is_code 186 c
  || between 188 190 c || between 192 214 c || between 216 246 c
  || between 248 255 c.

(** [\w] of [re] on a [str] pattern: alphanumeric or the underscore. *)
Definition is_word (c : ascii) : bool := is_alnum c || is_code 95 c.

Definition lower_char (c : ascii) : ascii :=
  if is_upper c then ascii_of_nat (code c + 32) else c.

(** [s.lower()] *)
Fixpoint lower (s : string) : string :=
  match s with
  | EmptyString => EmptyString
  | String c s' => String (lower_char c) (lower s')
  end.

(** [s[:n]] *)
Fixpoint take (n : nat) (s : string) : string :=
  match n, s with
  | S n', String c s' => String c (take n' s')
  | _, _ => EmptyString
  end.

(** [s[n:]] *)
Fixpoint drop (n : nat) (s : string) : string :=
  match n, s with
  | S n', String _ s' => drop n' s'
  | _, _ => s
  end.

(** [s[a:b]] for non-negative indices; empty when [b <= a]. *)
Definition slice (a b : nat) (s : string) : string := take (b - a) (drop a s).

(** [needle in hay] *)
Fixpoint contains (needle hay : string) : bool :=
  String.prefix needle hay ||
  match hay with
  | EmptyString => false
  | String _ hay' => contains needle hay'
  end.

(** [ch in s] for a single character. *)
Fixpoint has_char (p : ascii -> bool) (s : string) : bool :=
  match s with
  | EmptyString => false
  | String c s' => p c || has_char p s'
  end.

Definition flush (cur : list ascii) : list string :=
  match cur with
  | [] => []
  | _ => [string_of_list_ascii (rev cur)]
  end.

Fixpoint split_go (cur : list ascii) (s : string) : list string :=
  match s with
  | EmptyString => flush cur
  | String c s' =>
      if is_space c then flush cur ++ split_go [] s' else split_go (c :: cur) s'
  end.

(** [s.split()]: maximal runs of non-space characters. *)
Definition split (s : string) : list string := split_go [] s.

Fixpoint split_on_go (sep : ascii) (cur : list ascii) (s : string) : list string :=
  match s with
  | EmptyString => [string_of_list_ascii (rev cur)]
  | String c s' =>
      if Ascii.eqb c sep
      then string_of_list_ascii (rev cur) :: split_on_go sep [] s'
      else split_on_go sep (c :: cur) s'
  end.

(** [s.split(sep)] for a one-character separator: empty fields are kept. *)
Definition split_on (sep : ascii) (s : string) : list string := split_on_go sep [] s.

(** [sep.join(parts)] *)
Fixpoint join (sep : string) (parts : list string) : string :=
  match parts with
  | [] => ""
  | [p] => p
  | p :: rest => p +:+ sep +:+ join sep rest
  end.

Fixpoint lstrip_by (p : ascii -> bool) (s : string) : string :=
  match s with
  | String c s' => if p c then lstrip_by p s' else s
  | EmptyString => EmptyString
  end.

Fixpoint rstrip_by (p : ascii -> bool) (s : string) : string :=
  match s with
  | EmptyString => EmptyString
  | String c s' =>
      match rstrip_by p s' with
      | EmptyString => if p c then EmptyString else String c EmptyString
      | t => String c t
      end
  end.

(** [s.strip()] *)
Definition strip (s : string) : string := lstrip_by is_space (rstrip_by is_space s).

(** [s.lstrip(chars)] and [s.rstrip(chars)] *)
Definition lstrip_chars (chars : string) (s : string) : string :=
  lstrip_by (fun c => has_char (Ascii.eqb c) chars) s.
Definition rstrip_chars (chars : string) (s : string) : string :=
  rstrip_by (fun c => has_char (Ascii.eqb c) chars) s.

(** [s.rfind(ch)]: index of the last occurrence, [-1] when there is none. *)
Fixpoint rfind_char (ch : ascii) (s : string) : Z :=
  match s with
  | EmptyString => (-1)%Z
  | String c s' =>
      let r := rfind_char ch s' in
      if (0 <=? r)%Z then (r + 1)%Z
      else if Ascii.eqb c ch then 0%Z else (-1)%Z
  end.

(** [s.startswith(p)] *)
Definition startswith (p s : string) : bool := String.prefix p s.

(** Truth value of a string: non-empty. *)
Definition truthy (s : string) : bool :=
  match s with EmptyString => false | _ => true end.

(** The one-character string holding a double quote. *)
Definition dquote : string := String "034" "".

(** ["{}".format(n)] for an integer. *)
Definition fmt_nat (n : nat) : string := pretty n.
Definition fmt_Z (z : Z) : string := pretty z.

End PyStr.

(** ** A backtracking matcher for the [re] patterns of the sources

    Alternatives are tried left to right and repetition is greedy, as in
    Python's [re]; the continuation receives the character before the
    current position (for [\b] and [^]) and the rest of the subject. *)

Module Re.
Import PyStr.

Inductive regex : Type :=
| Eps
| Chr (p : ascii -> bool)
| Cat (r1 r2 : regex)
| Alt (r1 r2 : regex)
| Star (r : regex)
| WordB            (* \b *)
| Bol.             (* ^ under re.M *)

Definition hd_char (s : string) : option ascii :=
  match s with EmptyString => None | String c _ => Some c end.

Definition word_of (o : option ascii) : bool :=
  match o with Some c => is_word c | None => false end.

Section Run.
Context {R : Type}.

Fixpoint run (r : regex) (prev : option ascii) (s : string)
    (k : option ascii -> string -> option R) {struct r} : option R :=
  match r with
  | Eps => k prev s
  | Chr p =>
      match s with
      | String c s' => if p c then k (Some c) s' else None
      | EmptyString => None
      end
  | Cat r1 r2 => run r1 prev s (fun p' s' => run r2 p' s' k)
  | Alt r1 r2 =>
      match run r1 prev s k with
      | Some x => Some x
      | None => run r2 prev s k
      end
  | Star r' =>
      (fix loop (fuel : nat) (prev : option ascii) (s : string) {struct fuel}
         : option R :=
         match fuel with
         | O => k prev s
         | S fuel' =>
             match run r' prev s (fun p' s' =>
                     if (String.length s' <? String.length s)%nat
                     then loop fuel' p' s' else None) with
             | Some x => Some x
             | None => k prev s
             end
         end) (String.length s) prev s
  | WordB => if xorb (word_of prev) (word_of (hd_char s)) then k prev s else None
  | Bol =>
      match prev with
      | None => k prev s
      | Some c => if Ascii.eqb c "010"%char then k prev s else None
      end
  end.
End Run.

(** Pattern combinators. *)
Definition opt (r : regex) : regex := Alt r Eps.             (* r? *)
Definition plus (r : regex) : regex := Cat r (Star r).       (* r+ *)
Definition chr (c : ascii) : regex := Chr (Ascii.eqb c).
Definition chr_i (c : ascii) : regex :=                      (* under re.I *)
  Chr (fun x => Ascii.eqb (lower_char x) (lower_char c)).
Definition digit : regex := Chr is_digit.                    (* \d *)
Definition space : regex := Chr is_space.                    (* \s *)
Definition any : regex := Chr (fun c => negb (Ascii.eqb c "010"%char)). (* . *)

Fixpoint seq (rs : list regex) : regex :=
  match rs with
  | [] => Eps
  | [r] => r
  | r :: rs' => Cat r (seq rs')
  end.

Fixpoint alts (rs : list regex) : regex :=
  match rs with
  | [] => Chr (fun _ => false)
  | [r] => r
  | r :: rs' => Alt r (alts rs')
  end.

(** A literal under [re.IGNORECASE]. *)
Fixpoint lit_i (s : string) : regex :=
  match s with
  | EmptyString => Eps
  | String c EmptyString => chr_i c
  | String c s' => Cat (chr_i c) (lit_i s')
  end.

Fixpoint rep (n : nat) (r : regex) : regex :=                (* r{n} *)
  match n with
  | O => Eps
  | S n' => Cat r (rep n' r)
  end.

(** Length of the match of [r] anchored at the head of [s]. *)
Definition match_here (r : regex) (prev : option ascii) (s : string) : option nat :=
  run r prev s (fun _ rest => Some (String.length s - String.length rest)).

Fixpoint search_from (r : regex) (prev : option ascii) (s : string) (pos : nat)
    : option (nat * nat) :=
  match match_here r prev s with
  | Some n => Some (pos, pos + n)
  | None =>
      match s with
      | EmptyString => None
      | String c s' => search_from r (Some c) s' (S pos)
      end
  end.

(** [re.search(r, s)] as [(m.start(), m.end())]. *)
Definition search (r : regex) (s : string) : option (nat * nat) :=
  search_from r None s 0.

Definition found (r : regex) (s : string) : bool :=
  match search r s with Some _ => true | None => false end.

(** [re.sub(r, repl, s)]: leftmost non-overlapping matches, left to right.
    Only used with patterns that cannot match the empty string; an empty
    match is stepped over, as [re.sub] does. *)
Fixpoint sub_go (fuel : nat) (r : regex) (repl : string)
    (prev : option ascii) (s : string) : string :=
  match fuel with
  | O => s
  | S fuel' =>
      match match_here r prev s with
      | Some (S n) =>
          repl +:+ sub_go fuel' r repl (hd_char (String.rev (take (S n) s)))
                     (drop (S n) s)
      | _ =>
          match s with
          | EmptyString => EmptyString
          | String c s' => String c (sub_go fuel' r repl (Some c) s')
          end
      end
  end.

Definition sub (r : regex) (repl : string) (s : string) : string :=
  sub_go (S (String.length s)) r repl None s.

End Re.

(** ** Data model *)

(** One retrieved page ([ResearchItem]); the search parsers create it with
    [title], [snippet] and [url], the research stage fills in the rest. *)
Record ResearchItem : Type := mkItem {
  title : string;
  snippet : string;
  url : string;
  content : string;
  score : Z;
  summary : string;
}.

Definition stub (t s u : string) : ResearchItem := mkItem t s u "" 0 "".

(** Exceptions that cross function boundaries in the sources. *)
Inductive exn_kind : Type :=
| ValueError | ConnectionError | RuntimeError | UnicodeDecodeError | TypeError.

Record exn : Type := Exn { exn_kind_of : exn_kind; exn_msg : string }.

Inductive outcome (A : Type) : Type :=
| Ok (a : A)
| Raise (e : exn).
Arguments Ok {A} a.
Arguments Raise {A} e.

(** ** research_engine.py: scoring, cleaning, extraction, de-duplication *)

Import PyStr.

Definition MAX_RETRIES : nat := 2.
Definition CONTENT_EXTRACT_LIMIT : nat := 5.
Definition MAX_CONTENT_LENGTH : nat := 1200.
Definition MIN_CONTENT_LENGTH : nat := 300.
Definition CACHE_MAX_AGE_HOURS : Q := 24.

(** [POWER_WORDS] is a Python set: its iteration order is unspecified, the
    list fixes the order of the source text. *)
Definition POWER_WORDS : list string :=
  [ "ultimate"; "secret"; "proven"; "explosive"; "mistake"; "breakdown";
    "step-by-step"; "hack"; "strategy"; "deadly"; "hidden"; "crucial";
    "essential"; "surprising"; "shocking"; "powerful"; "critical";
    "guaranteed"; "instant"; "exclusive"; "revolutionary"; "incredible" ].

(** [compute_heuristic_score], with the iteration order over the power
    words made explicit. *)
Definition score_over (power_words : list string) (title snippet : string) : Z :=
  let combined := lower (title +:+ " " +:+ snippet) in
  let score := 0%Z in
  let score := if Re.found (Re.plus Re.digit) combined then (score + 2)%Z else score in
  let score := if contains "?" combined then (score + 1)%Z else score in
  let score := if (length (split title) <? 12)%nat then (score + 1)%Z else score in
  fold_left (fun score w => if contains w combined then (score + 1)%Z else score)
            power_words score.

Definition compute_heuristic_score (title snippet : string) : Z :=
  score_over POWER_WORDS title snippet.

(** The noise patterns of [_clean_text], all applied under [re.IGNORECASE]. *)
Definition ws : Re.regex := Re.Star Re.space.                 (* \s* *)

Definition noise : list Re.regex :=
  let L := Re.lit_i in
  [ Re.seq [L "cookie"; Re.opt (Re.chr_i "s"); ws;
            Re.alts [L "policy"; L "consent"; L "settings"]];
    Re.seq [L "accept"; ws; Re.opt (Re.seq [L "all"; ws]); L "cookies"];
    Re.seq [L "privacy"; ws; L "policy"];
    Re.seq [L "terms"; ws; Re.alts [L "of"; L "and"]; ws;
            Re.alts [L "service"; L "use"]];
    Re.seq [L "subscribe"; ws; L "to"];
    Re.seq [L "sign"; ws; L "up"; ws; L "for"];
    Re.seq [Re.Chr (fun c => (code c =? 169)%nat); ws; Re.rep 4 Re.digit];
    Re.seq [L "all"; ws; L "rights"; ws; L "reserved"];
    Re.seq [L "skip"; ws; L "to"; ws; Re.opt (Re.seq [L "main"; ws]); L "content"];
    Re.seq [L "share"; ws; Re.alts [L "this"; L "on"]];
    Re.seq [L "leave"; ws; L "a"; ws; Re.alts [L "reply"; L "comment"]];
    Re.seq [L "your"; ws; L "email"; Re.Star Re.any; L "published"] ].

Definition _clean_text (raw : string) : string :=
  let blank := Re.plus (Re.Chr (fun c => Ascii.eqb c " " || Ascii.eqb c "009")) in
  let text := Re.sub blank " " raw in
  let text := fold_left (fun text p => Re.sub p "" text) noise text in
  join (String "010" "")
    (map strip
       (List.filter (fun l => truthy (strip l) && (40 <=? String.length (strip l))%nat)
               (split_on "010" text))).

(** The length gate that ends [extract_page_content]. *)
Definition length_gate (cleaned : string) : string :=
  if (String.length cleaned <? MIN_CONTENT_LENGTH)%nat then ""
  else if (MAX_CONTENT_LENGTH <? String.length cleaned)%nat then
    let trunc := take MAX_CONTENT_LENGTH cleaned in
    let lp := rfind_char "." trunc in
    (* lp > MAX_CONTENT_LENGTH * 0.5 *)
    if (Z.of_nat MAX_CONTENT_LENGTH <? 2 * lp)%Z
    then take (Z.to_nat (lp + 1)) trunc
    else trunc
  else cleaned.

(** What the HTTP request and the HTML parser hand to the text stage of
    [extract_page_content]: any exception, a response that is not HTML, or
    the meta description and the collected text blocks of the page. *)
Inductive fetched : Type :=
| FetchFailed
| NotHtml
| Page (meta : string) (parts : list string).

(** [raw = (meta + "\n" if meta else "") + '\n'.join(parts)] *)
Definition page_raw (meta : string) (parts : list string) : string :=
  (if truthy meta then meta +:+ String "010" "" else "")
  +:+ join (String "010" "") parts.

Definition extract_page_content (page : fetched) : string :=
  match page with
  | FetchFailed => ""
  | NotHtml => ""
  | Page meta parts => length_gate (_clean_text (page_raw meta parts))
  end.

(** [_dedup]: one pass with the set of normalised URLs seen so far. *)
Definition norm_url (u : string) : string := lower (rstrip_chars "/" u).

Definition dedup_step (acc : gset string * list ResearchItem) (r : ResearchItem)
    : gset string * list ResearchItem :=
  let '(seen, unique) := acc in
  let n := norm_url (url r) in
  if decide (n ∈ seen) then (seen, unique)
  else ({[ n ]} ∪ seen, (unique ++ [r])%list).

Definition _dedup (results : list ResearchItem) : list ResearchItem :=
  snd (fold_left dedup_step results (∅, [])).

(** ** Numbers, sorting and counting as the sources use them *)

Module PyNum.

Definition Qltb (x y : Q) : bool := negb (Qle_bool y x).

(** [n / d] for a positive [d]. *)
Definition ratio (n d : nat) : Q := Z.of_nat n # Pos.of_nat d.

Definition round_half_even (q : Q) : Z :=
  let f := Qfloor q in
  match Qcompare (q - inject_Z f) (1 # 2) with
  | Lt => f
  | Gt => (f + 1)%Z
  | Eq => if Z.even f then f else (f + 1)%Z
  end.

(** The binary exponent of a positive rational: [2^e <= q < 2^(e+1)]. *)
Definition ilog2 (q : Q) : Z :=
  let k := (Z.log2 (Qnum q) - Z.log2 (Z.pos (Qden q)))%Z in
  if Qle_bool (2 ^ k) q then k else (k - 1)%Z.

(** The exponent of the binade of a double that holds [q]; the
    subnormals share the smallest one. *)
Definition exponent (q : Q) : Z := Z.max (ilog2 (Qabs q)) (-1022).

(** The unit in the last place of the 53-bit significand. *)
Definition ulp (q : Q) : Q := 2 ^ (exponent q - 52).

(** The double nearest to [q], ties to the even significand.  Magnitudes
    beyond the largest double, where Python answers [inf] or raises
    OverflowError, are not embedded. *)
Definition fl (q : Q) : Q := inject_Z (round_half_even (q / ulp q)) * ulp q.

(** [round(x, digits)] for the float [x = fl q]: the decimal with that
    many digits nearest to the exact value of the double, ties to the even
    digit.  Python returns the double nearest to this decimal, which
    prints as the decimal; the embedding keeps the decimal. *)
Definition py_round (digits : nat) (q : Q) : Q :=
  let scale := (10 ^ Z.of_nat digits)%Z in
  round_half_even (fl q * inject_Z scale) # Z.to_pos scale.

(** [int(x)] for a float: truncation towards zero. *)
Definition py_int (x : Q) : Z :=
  if Qle_bool 0 x then Qfloor x else Qceiling x.

(** [max(a, b)] *)
Definition py_max (a b : Q) : Q := if Qltb a b then b else a.

(** [list.sort] / [sorted]: stable, by a "less or equal" test on keys. *)
Fixpoint insert_sorted {A : Type} (le : A -> A -> bool) (x : A) (l : list A) : list A :=
  match l with
  | [] => [x]
  | y :: l' => if le x y then x :: l else y :: insert_sorted le x l'
  end.

Definition stable_sort {A : Type} (le : A -> A -> bool) (l : list A) : list A :=
  fold_right (insert_sorted le) [] l.

(** [collections.Counter] over a sequence: keys in first-encounter order. *)
Fixpoint counter_add (w : string) (c : list (string * nat)) : list (string * nat) :=
  match c with
  | [] => [(w, 1%nat)]
  | (k, n) :: c' =>
      if String.eqb k w then (k, S n) :: c' else (k, n) :: counter_add w c'
  end.

Definition Counter (ws : list string) : list (string * nat) :=
  fold_left (fun c w => counter_add w c) ws [].

(** [Counter.most_common(n)]: by decreasing count, ties in first-encounter
    order. *)
Definition most_common (n : nat) (c : list (string * nat)) : list (string * nat) :=
  firstn n (stable_sort (fun x y => (snd y <=? snd x)%nat) c).

Definition count_if {A : Type} (p : A -> bool) (l : list A) : nat :=
  length (List.filter p l).

End PyNum.

Import PyNum.

(** ** intelligence_engine.py: gaps and structural saturation *)

Module Intel.

Definition STOPWORDS : list string :=
  [ "the"; "a"; "an"; "and"; "or"; "but"; "in"; "on"; "at"; "to"; "for";
    "of"; "with"; "by"; "from"; "is"; "it"; "this"; "that"; "are"; "was";
    "have"; "has"; "do"; "does"; "will"; "would"; "could"; "should"; "not";
    "no"; "so"; "if"; "than"; "very"; "just"; "about"; "all"; "also"; "as";
    "any"; "get"; "how"; "into"; "more"; "most"; "new"; "now"; "only";
    "other"; "our"; "out"; "some"; "them"; "there"; "these"; "they"; "those";
    "up"; "we"; "what"; "when"; "where"; "which"; "who"; "why"; "you";
    "your"; "one"; "use"; "like"; "know"; "see"; "way"; "even"; "well";
    "back"; "much"; "many"; "still"; "come"; "take"; "say"; "need"; "think";
    "want"; "give"; "first"; "last"; "right"; "good"; "help"; "try";
    "every"; "keep"; "work"; "start"; "top"; "best"; "make"; "used" ].

Definition _fallback_subdomains : list string :=
  [ "getting started"; "common mistakes"; "advanced strategies";
    "tools and resources"; "case studies"; "industry trends";
    "monetization"; "audience building"; "content creation";
    "community building"; "automation"; "analytics and metrics";
    "collaboration"; "personal branding"; "scaling operations" ].

(** Per-subdomain result of gap detection. *)
Record GapResult : Type := mkGap {
  subdomain : string;
  similarity : Q;
  is_gap : bool;
  method : string;
}.

(** The corpus of [_keyword_gaps]: one lower-cased line per item. *)
Definition corpus_of (research_data : list ResearchItem) : string :=
  join " "
    (map (fun s => lower (title s +:+ " " +:+ snippet s +:+ " " +:+
                          content s +:+ " " +:+ summary s))
         research_data).

(** [[w.lower() for w in sd.split() if len(w) > 2]] *)
Definition gap_words (sd : string) : list string :=
  map lower (List.filter (fun w => (2 <? String.length w)%nat) (split sd)).

Definition gap_matches (corpus sd : string) : nat :=
  count_if (fun w => contains w corpus) (gap_words sd).

(** [cov = matches / len(words) if words else 0] *)
Definition coverage (corpus sd : string) : Q :=
  match gap_words sd with
  | [] => 0
  | words => ratio (gap_matches corpus sd) (length words)
  end.

Definition gap_entry (corpus sd : string) : GapResult :=
  let cov := coverage corpus sd in
  {| subdomain := sd;
     similarity := py_round 3 cov;
     is_gap := Qltb cov (3 # 10);
     method := "keyword" |}.

(** Order of the sort key [(not x["is_gap"], x["similarity"])]. *)
Definition gap_key_le (x y : GapResult) : bool :=
  if Bool.eqb (negb (is_gap x)) (negb (is_gap y))
  then Qle_bool (similarity x) (similarity y)
  else is_gap x.

Definition _keyword_gaps (research_data : list ResearchItem)
    (subdomains : list string) : list GapResult :=
  let corpus := corpus_of research_data in
  stable_sort gap_key_le (map (gap_entry corpus) subdomains).

(** Patterns of [analyze_structural_saturation]. *)
Definition list_re : Re.regex :=
  Re.seq [Re.WordB;
          Re.alts [Re.plus Re.digit; Re.lit_i "top"; Re.lit_i "best";
                   Re.lit_i "list"; Re.lit_i "ultimate"];
          Re.WordB].

Definition sp_or_dash : Re.regex :=
  Re.Chr (fun c => is_space c || Ascii.eqb c "-").

Definition guide_re : Re.regex :=
  Re.seq [Re.WordB;
          Re.alts [Re.lit_i "guide";
                   Re.seq [Re.lit_i "how"; sp_or_dash; Re.lit_i "to"];
                   Re.lit_i "tutorial";
                   Re.seq [Re.lit_i "step"; sp_or_dash; Re.lit_i "by"]];
          Re.WordB].

Definition compare_re : Re.regex :=
  Re.seq [Re.WordB;
          Re.alts [Re.seq [Re.lit_i "vs"; Re.opt (Re.chr ".")];
                   Re.lit_i "versus"; Re.lit_i "compar"; Re.lit_i "alternative"];
          Re.WordB].

Definition sp1 : Re.regex := Re.plus Re.space.               (* \s+ *)
Definition d1 : Re.regex := Re.plus Re.digit.                (* \d+ *)

Definition content_list_re : Re.regex :=
  Re.alts [Re.seq [Re.Bol; d1; Re.chr "."];
           Re.seq [Re.lit_i "top"; sp1; d1];
           Re.seq [Re.lit_i "best"; sp1; d1];
           Re.seq [Re.lit_i "in"; sp1; Re.lit_i "this"; sp1; Re.lit_i "guide"];
           Re.seq [Re.lit_i "here"; sp1; Re.lit_i "are"; sp1; d1];
           Re.seq [Re.lit_i "step"; sp1; d1];
           Re.seq [Re.chr "#"; d1]].

(** [s.get("title", "") + " " + s.get("snippet", "")] *)
Definition headline (s : ResearchItem) : string := title s +:+ " " +:+ snippet s.

(** [s.get("summary", "") or s.get("content", "")] *)
Definition body_text (s : ResearchItem) : string :=
  if truthy (summary s) then summary s else content s.

Definition list_count_of (rd : list ResearchItem) : nat :=
  count_if (fun s => Re.found list_re (headline s)) rd.
Definition guide_count_of (rd : list ResearchItem) : nat :=
  count_if (fun s => Re.found guide_re (headline s)) rd.
Definition comparison_count_of (rd : list ResearchItem) : nat :=
  count_if (fun s => Re.found compare_re (headline s)) rd.
(** Items with a non-empty body, and those among them that match. *)
Definition samples_text_of (rd : list ResearchItem) : nat :=
  count_if (fun s => truthy (body_text s)) rd.
Definition content_list_count_of (rd : list ResearchItem) : nat :=
  count_if (fun s => truthy (body_text s) && Re.found content_list_re (body_text s)) rd.

Definition t_pct_of (rd : list ResearchItem) : Q :=
  ratio (list_count_of rd) (length rd) * 100.
Definition c_pct_of (rd : list ResearchItem) : Q :=
  if (samples_text_of rd =? 0)%nat then 0
  else ratio (content_list_count_of rd) (samples_text_of rd) * 100.

(** The float [(n / d) * 100] as [round] receives it: the quotient is
    rounded to a double before the product is formed, and the product is
    rounded by [py_round]. *)
Definition pct_float (n d : nat) : Q := fl (ratio n d) * 100.
Definition t_pct_float (rd : list ResearchItem) : Q :=
  pct_float (list_count_of rd) (length rd).
Definition c_pct_float (rd : list ResearchItem) : Q :=
  if (samples_text_of rd =? 0)%nat then 0
  else pct_float (content_list_count_of rd) (samples_text_of rd).
Definition combined_pct_of (rd : list ResearchItem) : Q :=
  py_max (t_pct_of rd) (c_pct_of rd).

Fixpoint bigrams_of (words : list string) : list string :=
  match words with
  | w1 :: ((w2 :: _) as rest) => (w1 +:+ " " +:+ w2) :: bigrams_of rest
  | _ => []
  end.

Definition top_bigrams_of (rd : list ResearchItem) : list (string * nat) :=
  let texts := map headline rd in
  let not_az_space := Re.Chr (fun c => negb (is_az c || is_space c)) in
  let combined_text := Re.sub not_az_space " " (lower (join " " texts)) in
  let words :=
    List.filter (fun w => negb (existsb (String.eqb w) STOPWORDS)
                     && (2 <? String.length w)%nat)
           (split combined_text) in
  most_common 10 (Counter (bigrams_of words)).

Record Saturation : Type := mkSaturation {
  list_count : nat;
  guide_count : nat;
  comparison_count : nat;
  total : nat;
  list_percentage : Q;
  content_list_count : option nat;      (* absent for an empty corpus *)
  content_list_percentage : Q;
  dominant_format : string;
  is_saturated : bool;
  top_bigrams : list (string * nat);
}.

Definition analyze_structural_saturation (research_data : list ResearchItem)
    : Saturation :=
  let total := length research_data in
  if (total =? 0)%nat then
    mkSaturation 0 0 0 0 0 None 0 "Unknown" false []
  else
    let lc := list_count_of research_data in
    let gc := guide_count_of research_data in
    let cc := comparison_count_of research_data in
    let clc := content_list_count_of research_data in
    let t_pct := t_pct_of research_data in
    let c_pct := c_pct_of research_data in
    let combined_pct := py_max t_pct c_pct in
    let dominant :=
      if Qltb 50 combined_pct then "Listicle saturation"
      else if Qltb (inject_Z (Z.of_nat total) * (4 # 10)) (inject_Z (Z.of_nat gc))
           then "Guide/tutorial heavy"
      else if Qltb (inject_Z (Z.of_nat total) * (3 # 10)) (inject_Z (Z.of_nat cc))
           then "Comparison heavy"
      else "Mixed formats" in
    mkSaturation lc gc cc total
                 (py_round 1 (t_pct_float research_data)) (Some clc)
                 (py_round 1 (c_pct_float research_data))
                 dominant (Qltb 50 combined_pct) (top_bigrams_of research_data).

End Intel.

(** ** JSON values, the cache directory and the effects of a run *)

#[warnings="-register-all"]
Inductive json : Type :=
| JNull
| JBool (b : bool)
| JInt (z : Z)
| JReal (q : Q)
| JStr (s : string)
| JList (l : list json)
| JDict (d : list (string * json)).

Fixpoint dict_get (k : string) (d : list (string * json)) : option json :=
  match d with
  | [] => None
  | (k', v) :: d' => if String.eqb k' k then Some v else dict_get k d'
  end.

(** [d[k] = v]: replace in place, or add at the end. *)
Fixpoint dict_set (k : string) (v : json) (d : list (string * json))
    : list (string * json) :=
  match d with
  | [] => [(k, v)]
  | (k', v') :: d' =>
      if String.eqb k' k then (k, v) :: d' else (k', v') :: dict_set k v d'
  end.

(** What [open(path, 'r', encoding='utf-8')] followed by [json.load] meets
    in a file: a JSON document (identified with its value, which is what
    [json.load] returns for the text [json.dump] wrote), text that is not a
    JSON document ([json.JSONDecodeError]), or bytes that are not UTF-8
    ([UnicodeDecodeError], raised by the read inside [json.load]). *)
Inductive file_body : Type :=
| Document (j : json)
| NotJson
| NotUtf8.

Record file : Type := mkFile {
  mtime : Q;              (* seconds, [os.path.getmtime] *)
  readable : bool;        (* [open] raises [OSError] when false *)
  body : file_body;
}.

Inductive event : Type :=
| EvProgress (message : string)         (* the progress callback *)
| EvBackendCheck                        (* check_ollama_available *)
| EvSearchDDG (query : string)
| EvSearchBing (query : string)
| EvFetchPage (url : string)
| EvPrompt (site : string).             (* one send_prompt call *)

(** The mutable part of a run: the shared [log] list, the cache directory,
    the external calls made so far and the number of clock readings. *)
Record state : Type := mkState {
  st_log : list string;
  st_fs : gmap string file;
  st_events : list event;
  st_ticks : nat;
}.

(** Computations over a mutable store [S] that may raise. *)
Definition MS (S A : Type) : Type := S -> outcome A * S.

Definition ret {S A : Type} (a : A) : MS S A := fun st => (Ok a, st).
Definition raise {S A : Type} (e : exn) : MS S A := fun st => (Raise e, st).
Definition bind {S A B : Type} (m : MS S A) (k : A -> MS S B) : MS S B :=
  fun st =>
    match m st with
    | (Ok a, st') => k a st'
    | (Raise e, st') => (Raise e, st')
    end.

Notation "x <- m ;; k" := (bind m (fun x => k))
  (at level 100, m at next level, right associativity).
Notation "m ;;; k" := (bind m (fun _ => k))
  (at level 100, right associativity).

(** [try: m except <kinds> as e: handler e] *)
Definition try_except {S A : Type} (m : MS S A) (catches : exn_kind -> bool)
    (handler : exn -> MS S A) : MS S A :=
  fun st =>
    match m st with
    | (Raise e, st') => if catches (exn_kind_of e) then handler e st' else (Raise e, st')
    | r => r
    end.

(** Lifting the outcome of an external call. *)
Definition call {S A : Type} (o : outcome A) : MS S A := fun st => (o, st).

Fixpoint mapM {S A B : Type} (f : A -> MS S B) (l : list A) : MS S (list B) :=
  match l with
  | [] => ret []
  | a :: l' => b <- f a ;; bs <- mapM f l' ;; ret (b :: bs)
  end.

Abbreviation M := (MS state).

(** [log.append(message)] *)
Definition log_append (message : string) : M unit :=
  fun st => (Ok tt, mkState (st_log st ++ [message]) (st_fs st) (st_events st) (st_ticks st)).

Definition emit (ev : event) : M unit :=
  fun st => (Ok tt, mkState (st_log st) (st_fs st) (st_events st ++ [ev]) (st_ticks st)).

Definition catches_backend (k : exn_kind) : bool :=
  match k with ConnectionError | RuntimeError => true | _ => false end.

Definition catches_runtime (k : exn_kind) : bool :=
  match k with RuntimeError => true | _ => false end.

(** Everything a run takes from outside the process. *)
Record env : Type := mkEnv {
  has_callback : bool;                            (* progress_callback given *)
  time_at : nat -> Q;                             (* successive clock readings *)
  disk_ok : bool;                                 (* cache writes succeed *)
  md5_hex : string -> string;                     (* hashlib.md5(..).hexdigest() *)
  random_choice : nat;                            (* index drawn by random.choice *)
  backend_available : bool;                       (* check_ollama_available() *)
  ddg : string -> outcome (list ResearchItem);    (* _fetch_ddg, then _parse_ddg *)
  bing : string -> outcome (Z * list ResearchItem);
      (* _fetch_bing, then _estimate_bing_count and _parse_bing *)
  page : string -> fetched;                       (* request and HTML parse of a URL *)
  reply_summary : string -> string -> outcome string;
  reply_subdomains : outcome string;              (* send_prompt, per call site *)
  reply_insights1 : outcome string;
  reply_insights2 : outcome string;
  reply_draft : outcome string;
  reply_refine : outcome string;
}.

(** [time.time()] *)
Definition clock (E : env) : M Q :=
  fun st => (Ok (time_at E (st_ticks st)),
             mkState (st_log st) (st_fs st) (st_events st) (S (st_ticks st))).

(** ** research_engine.py: the cache *)

Definition CACHE_DIR : string := "cache".

Definition _cache_path (E : env) (niche platform : string) : string :=
  let key := strip (lower niche) +:+ "__" +:+ strip (lower platform) in
  let h := take 12 (md5_hex E key) in
  CACHE_DIR +:+ "/" +:+ h +:+ ".json".

Definition item_json (d : ResearchItem) : json :=
  JDict [ ("title", JStr (title d)); ("snippet", JStr (snippet d));
          ("url", JStr (url d)); ("content", JStr (content d));
          ("score", JInt (score d)); ("summary", JStr (summary d)) ].

Definition _load_cache (E : env) (niche platform : string) : M (list json) :=
  let path := _cache_path E niche platform in
  fun st =>
    match st_fs st !! path with
    | None => ret [] st
    | Some f =>
        (now <- clock E ;;
         let age_h := ((now - mtime f) / 3600)%Q in
         if Qltb CACHE_MAX_AGE_HOURS age_h then ret []
         else if negb (readable f) then ret []               (* OSError *)
         else match body f with
              | NotUtf8 =>
                  raise (Exn UnicodeDecodeError
                           "'utf-8' codec can't decode byte: invalid start byte")
              | NotJson => ret []                            (* JSONDecodeError *)
              | Document (JList (x :: data)) => ret (x :: data)
              | Document _ => ret []
              end) st
    end.

Definition _save_cache (E : env) (niche platform : string)
    (data : list ResearchItem) : M unit :=
  fun st =>
    if disk_ok E then
      let path := _cache_path E niche platform in
      let serializable := JList (map item_json data) in
      let written := mkFile (time_at E (st_ticks st)) true (Document serializable) in
      (Ok tt, mkState (st_log st) (<[ path := written ]> (st_fs st))
                      (st_events st) (S (st_ticks st)))
    else (Ok tt, st).                                        (* OSError: pass *)

(** ** research_engine.py: queries, alignment, keywords, competition *)

Module Research.

Definition STOPWORDS : list string :=
  [ "the"; "a"; "an"; "and"; "or"; "but"; "in"; "on"; "at"; "to"; "for";
    "of"; "with"; "by"; "from"; "is"; "it"; "its"; "this"; "that"; "are";
    "was"; "were"; "be"; "been"; "being"; "have"; "has"; "had"; "do"; "does";
    "did"; "will"; "would"; "could"; "should"; "may"; "might"; "can"; "shall";
    "not"; "no"; "nor"; "so"; "if"; "then"; "than"; "too"; "very"; "just";
    "about"; "above"; "after"; "again"; "all"; "also"; "am"; "as"; "any";
    "because"; "before"; "below"; "between"; "both"; "each"; "few"; "get";
    "got"; "he"; "her"; "here"; "him"; "his"; "how"; "i"; "into"; "me";
    "more"; "most"; "my"; "new"; "now"; "only"; "other"; "our"; "out";
    "over"; "own"; "same"; "she"; "some"; "such"; "them"; "there"; "these";
    "they"; "those"; "through"; "under"; "up"; "us"; "we"; "what"; "when";
    "where"; "which"; "while"; "who"; "whom"; "why"; "you"; "your"; "one";
    "two"; "use"; "used"; "using"; "make"; "like"; "know"; "see"; "way";
    "even"; "well"; "back"; "much"; "many"; "still"; "come"; "take"; "say";
    "said"; "need"; "look"; "think"; "want"; "give"; "first"; "last"; "long";
    "great"; "little"; "right"; "good"; "big"; "high"; "different"; "small";
    "large"; "next"; "early"; "young"; "important"; "let"; "thing"; "things";
    "go"; "going"; "went"; "really"; "read"; "best"; "top"; "help"; "try";
    "every"; "keep"; "work"; "working"; "put"; "end"; "start"; "turn" ].

Definition NICHE_KEYWORD_MAP : list (string * list string) :=
  [ ("founder", ["founder"; "startup"; "indie"; "entrepreneur"; "bootstrapped"; "solopreneur"]);
    ("startup", ["startup"; "founder"; "venture"; "mvp"; "fundraising"; "entrepreneur"]);
    ("indie", ["indie"; "hacker"; "bootstrapped"; "solopreneur"; "maker"; "builder"]);
    ("entrepreneur", ["entrepreneur"; "founder"; "business"; "startup"; "venture"]);
    ("creator", ["creator"; "content"; "audience"; "brand"; "influencer"]);
    ("marketer", ["marketer"; "marketing"; "growth"; "funnel"; "conversion"]);
    ("developer", ["developer"; "dev"; "code"; "programming"; "software"]);
    ("freelancer", ["freelancer"; "freelance"; "client"; "contract"; "agency"]) ].

Definition NICHE_QUERY_ENRICHMENT : list (string * list string) :=
  [ ("founder", ["founder workflow"; "startup execution"; "indie hacker"; "startup growth"]);
    ("startup", ["startup operations"; "early stage growth"; "startup toolkit"]);
    ("indie", ["indie hacker tools"; "bootstrapped growth"; "solo builder"]);
    ("entrepreneur", ["entrepreneur systems"; "business automation"]);
    ("creator", ["creator tools"; "content workflow"; "creator economy"]);
    ("marketer", ["marketing automation"; "growth strategy"]);
    ("developer", ["dev tools"; "developer workflow"]);
    ("freelancer", ["freelance workflow"; "client management"]) ].

Fixpoint assoc (k : string) (m : list (string * list string)) : option (list string) :=
  match m with
  | [] => None
  | (k', v) :: m' => if String.eqb k' k then Some v else assoc k m'
  end.

Definition _detect_niche_category (niche : string) : string :=
  let niche_l := lower niche in
  match find (fun '(cat, kws) => existsb (fun kw => contains kw niche_l) kws)
             NICHE_KEYWORD_MAP with
  | Some (cat, _) => cat
  | None => ""
  end.

Definition _alignment_keywords (niche : string) : list string :=
  let cat := _detect_niche_category niche in
  match (if truthy cat then assoc cat NICHE_KEYWORD_MAP else None) with
  | Some kws => kws
  | None =>
      List.filter (fun w => (3 <? String.length w)%nat
                       && negb (existsb (String.eqb w) STOPWORDS))
             (split (lower niche))
  end.

(** [repr] of a string and of a list of strings, for ["{}".format(kws)].
    The code points that are not printable are escaped: below 256 these
    are the controls, U+007F to U+00A0 and the soft hyphen U+00AD. *)
Definition hex_digit (n : nat) : ascii :=
  ascii_of_nat (if (n <? 10)%nat then 48 + n else 87 + n).

Definition repr_char (quote : ascii) (c : ascii) : string :=
  if Ascii.eqb c quote || Ascii.eqb c "\" then String "\" (String c "")
  else if Ascii.eqb c "009" then "\t"
  else if Ascii.eqb c "010" then "\n"
  else if Ascii.eqb c "013" then "\r"
  else if (code c <? 32)%nat || between 127 160 c || is_code 173 c
       then "\x" +:+ String (hex_digit (code c / 16)) (String (hex_digit (code c mod 16)) "")
  else String c "".

Fixpoint repr_body (quote : ascii) (s : string) : string :=
  match s with
  | EmptyString => ""
  | String c s' => repr_char quote c +:+ repr_body quote s'
  end.

Definition py_repr (s : string) : string :=
  let quote : ascii :=
    if has_char (Ascii.eqb "'") s && negb (has_char (Ascii.eqb "034") s)
    then "034"%char else "'"%char in
  String quote (repr_body quote s) +:+ String quote "".

Definition py_repr_list (l : list string) : string :=
  "[" +:+ join ", " (map py_repr l) +:+ "]".

Record Alignment : Type := mkAlignment {
  aligned_count : nat;
  total_count : nat;
  alignment_ratio : Q;
  drift_detected : bool;
  drift_warning : option string;
  alignment_keywords : list string;
}.

Definition check_niche_alignment (research_data : list ResearchItem)
    (niche : string) : Alignment :=
  let kws := _alignment_keywords niche in
  match kws with
  | [] => mkAlignment (length research_data) (length research_data) 1%Q false None []
  | _ =>
      let aligned :=
        count_if (fun s =>
                    let combined := lower (title s +:+ " " +:+ snippet s +:+ " " +:+ content s) in
                    existsb (fun kw => contains kw combined) kws)
                 research_data in
      let total := length research_data in
      let ratio_ : Q := if (0 <? total)%nat then ratio aligned total else 0%Q in
      let drift := Qltb ratio_ (4 # 10) in
      let warning :=
        if drift
        then Some ("Drift: only " +:+ fmt_nat aligned +:+ "/" +:+ fmt_nat total +:+
                   " results match niche keywords " +:+ py_repr_list (firstn 5 kws) +:+ ".")
        else None in
      mkAlignment aligned total (py_round 2 ratio_) drift warning (firstn 5 kws)
  end.

(** [build_queries]; the enrichment phrase is the one [random.choice]
    draws. *)
Definition build_queries (E : env) (niche platform : string) : string * string :=
  let cat := _detect_niche_category niche in
  let primary := niche +:+ " " +:+ platform +:+ " content strategy 2024" in
  match (if truthy cat then assoc cat NICHE_QUERY_ENRICHMENT else None) with
  | Some phrases =>
      let enrich := nth (random_choice E mod length phrases) phrases "" in
      (primary, niche +:+ " " +:+ enrich +:+ " " +:+ platform)
  | None =>
      let short := join " " (firstn 3 (split niche)) in
      (primary, short +:+ " " +:+ platform +:+ " tips")
  end.

(** [analyze_keyword_frequency] *)
Definition analyze_keyword_frequency (research_data : list ResearchItem)
    : list (string * nat) :=
  let texts :=
    flat_map (fun s => List.filter truthy [title s; snippet s; content s]) research_data in
  let not_az_space := Re.Chr (fun c => negb (is_az c || is_space c)) in
  let combined := Re.sub not_az_space " " (lower (join " " texts)) in
  let words :=
    List.filter (fun w => negb (existsb (String.eqb w) STOPWORDS)
                     && (2 <? String.length w)%nat)
           (split combined) in
  most_common 15 (Counter words).

(** [_count_domains]: distinct hosts among the first five results. *)
Definition host_of (u : string) : option string :=
  let scheme := Re.seq [Re.chr "h"; Re.chr "t"; Re.chr "t"; Re.chr "p";
                        Re.opt (Re.chr "s"); Re.chr ":"; Re.chr "/"; Re.chr "/"] in
  let not_slash := Re.Chr (fun c => negb (Ascii.eqb c "/")) in
  match Re.search (Re.Cat scheme (Re.plus not_slash)) u with
  | None => None
  | Some (start, stop) =>
      let from_scheme := drop start u in
      match Re.match_here scheme None from_scheme with
      | None => None
      | Some n =>
          let host := lower (slice (start + n) stop u) in
          Some (if startswith "www." host then drop 4 host else host)
      end
  end.

Definition _count_domains (results : list ResearchItem) : nat :=
  size (list_to_set (omap (fun r => host_of (url r)) (firstn 5 results)) : gset string).

Record Intensity : Type := mkIntensity {
  gap : string;
  intensity_level : string;
  result_count : Z;
  unique_domains : nat;
}.

Definition check_competitive_intensity (E : env) (gap_phrase niche : string)
    : M Intensity :=
  let query := dquote +:+ gap_phrase +:+ dquote +:+ " " +:+ niche in
  emit (EvSearchBing query) ;;;
  try_except
    (r <- call (bing E query) ;;
     let '(count, parsed) := r in
     let domains := _count_domains parsed in
     let level :=
       if (count <? 0)%Z then
         if (length parsed <? 3)%nat then "LOW"
         else if (domains <=? 3)%nat then "MEDIUM" else "HIGH"
       else if (count <? 10000)%Z && (domains <=? 3)%nat then "LOW"
       else if (count <? 100000)%Z then "MEDIUM"
       else "HIGH" in
     ret (mkIntensity gap_phrase level count domains))
    catches_runtime
    (fun _ => ret (mkIntensity gap_phrase "UNKNOWN" (-1) 0)).

(** [summarize_page] *)
Definition summarize_page (E : env) (title content : string) : M string :=
  if negb (truthy content) || (String.length content <? 100)%nat then ret ""
  else
    emit (EvPrompt "summary") ;;;
    try_except
      (text <- call (reply_summary E title content) ;;
       let words := split text in
       if (300 <? length words)%nat
       then ret (join " " (firstn 300 words) +:+ "...")
       else ret text)
      catches_backend
      (fun _ => ret "").

End Research.

(** ** research_engine.py: research_niche *)

Definition nl : string := String "010" "".

(** What [research_niche] hands back: the cached JSON entries as they were
    read, or the freshly built items. *)
Inductive research : Type :=
| Cached (entries : list json)
| Fresh (items : list ResearchItem).

Definition research_len (r : research) : nat :=
  match r with Cached l => length l | Fresh l => length l end.

Definition json_str (k : string) (d : list (string * json)) : option string :=
  match dict_get k d with
  | None => Some ""
  | Some (JStr s) => Some s
  | Some _ => None
  end.

Definition json_int (k : string) (d : list (string * json)) : option Z :=
  match dict_get k d with
  | None => Some 0%Z
  | Some (JInt z) => Some z
  | Some _ => None
  end.

(** Reading an entry through [.get(key, default)]; [None] when the entry is
    not a dict or a field has another type than the stages expect. *)
Definition item_of_json (j : json) : option ResearchItem :=
  match j with
  | JDict d =>
      match json_str "title" d, json_str "snippet" d, json_str "url" d,
            json_str "content" d, json_int "score" d, json_str "summary" d with
      | Some t, Some sn, Some u, Some c, Some sc, Some sm => Some (mkItem t sn u c sc sm)
      | _, _, _, _, _, _ => None
      end
  | _ => None
  end.

Fixpoint items_of_json (l : list json) : option (list ResearchItem) :=
  match l with
  | [] => Some []
  | j :: l' =>
      match item_of_json j, items_of_json l' with
      | Some i, Some is_ => Some (i :: is_)
      | _, _ => None
      end
  end.

Definition set_content (c : string) (r : ResearchItem) : ResearchItem :=
  mkItem (title r) (snippet r) (url r) c (score r) (summary r).
Definition set_summary (s : string) (r : ResearchItem) : ResearchItem :=
  mkItem (title r) (snippet r) (url r) (content r) (score r) s.

(** One search call of [research_niche]: the results it adds. *)
Definition search_step (ev : event) (o : outcome (list ResearchItem))
    (on_ok : nat -> string) (on_fail : string -> string) : M (list ResearchItem) :=
  emit ev ;;;
  try_except
    (parsed <- call o ;;
     log_append (on_ok (length parsed)) ;;;
     ret parsed)
    catches_runtime
    (fun e => log_append (on_fail (exn_msg e)) ;;; ret []).

Definition bing_results (o : outcome (Z * list ResearchItem)) : outcome (list ResearchItem) :=
  match o with
  | Ok (_, parsed) => Ok parsed
  | Raise e => Raise e
  end.

(** The search part of [research_niche]: primary query, enriched query
    and fallback provider, each only while fewer than 5 results are in. *)
Definition collect_results (E : env) (niche platform : string)
    : M (list ResearchItem) :=
  let '(q0, q1) := Research.build_queries E niche platform in
  (* DuckDuckGo *)
  log_append ("DDG search: '" +:+ q0 +:+ "'") ;;;
  r1 <- search_step (EvSearchDDG q0) (ddg E q0)
          (fun n => "DDG returned " +:+ fmt_nat n +:+ " results.")
          (fun e => "DDG failed: " +:+ e) ;;
  let all_results := r1 in
  all_results <-
    (if (length all_results <? 5)%nat then
       log_append ("DDG enriched: '" +:+ q1 +:+ "'") ;;;
       r2 <- search_step (EvSearchDDG q1) (ddg E q1)
               (fun n => "DDG enriched: " +:+ fmt_nat n +:+ " results.")
               (fun e => "DDG enriched failed: " +:+ e) ;;
       ret (all_results ++ r2)%list
     else ret all_results) ;;
  (* Bing fallback *)
  if (length all_results <? 5)%nat then
    log_append "Bing fallback..." ;;;
    r3 <- search_step (EvSearchBing q0) (bing_results (bing E q0))
            (fun n => "Bing returned " +:+ fmt_nat n +:+ " results.")
            (fun e => "Bing failed: " +:+ e) ;;
    ret (all_results ++ r3)%list
  else ret all_results.

(** Scoring and the sort by decreasing score. *)
Definition score_and_sort (deduped : list ResearchItem) : list ResearchItem :=
  let deduped :=
    map (fun r => mkItem (title r) (snippet r) (url r) ""
                         (compute_heuristic_score (title r) (snippet r)) "")
        deduped in
  stable_sort (fun x y => (score y <=? score x)%Z) deduped.

(** Content extraction for the first [CONTENT_EXTRACT_LIMIT] items. *)
Definition extract_contents (E : env) (deduped : list ResearchItem)
    : M (list ResearchItem) :=
  let extract_n := Nat.min CONTENT_EXTRACT_LIMIT (length deduped) in
  let fill r :=
    let c := extract_page_content (page E (url r)) in
    if truthy c then set_content c r else r in
  mapM (fun r => emit (EvFetchPage (url r))) (firstn extract_n deduped) ;;;
  let content_ok :=
    count_if (fun r => truthy (extract_page_content (page E (url r))))
             (firstn extract_n deduped) in
  log_append ("Extracted content from " +:+ fmt_nat content_ok +:+ "/" +:+
              fmt_nat extract_n +:+ " pages.") ;;;
  ret (map fill (firstn extract_n deduped) ++ skipn extract_n deduped)%list.

(** Summaries for the items that have content. *)
Definition summarize_all (E : env) (deduped : list ResearchItem)
    : M (list ResearchItem) :=
  deduped <-
    mapM (fun r =>
            if truthy (content r) then
              s <- Research.summarize_page E (title r) (content r) ;;
              ret (set_summary s r)
            else ret r)
         deduped ;;
  let summary_count := count_if (fun r => truthy (summary r)) deduped in
  log_append ("Summarized " +:+ fmt_nat summary_count +:+ " pages.") ;;;
  ret deduped.

Definition research_niche (E : env) (niche platform : string) : M research :=
  (* Cache check *)
  cached <- _load_cache E niche platform ;;
  match cached with
  | _ :: _ =>
      log_append ("Loaded " +:+ fmt_nat (length cached) +:+ " results from cache.") ;;;
      ret (Cached cached)
  | [] =>
      all_results <- collect_results E niche platform ;;
      let deduped := _dedup all_results in
      match deduped with
      | [] =>
          log_append "No results from any search engine." ;;;
          ret (Fresh [])
      | _ =>
          let deduped := firstn 12 deduped in
          let deduped := score_and_sort deduped in
          deduped <- extract_contents E deduped ;;
          deduped <- summarize_all E deduped ;;
          _save_cache E niche platform deduped ;;;
          ret (Fresh deduped)
      end
  end.

(** ** intelligence_engine.py: the stages that log or call the backend *)

Module IntelStages.
Import Intel.

(** [send_prompt_for_list] applied to the text the backend returned.  The
    bullet class of the source also holds U+2022, which is outside the
    characters of this embedding.  The two patterns are applied to one
    line, which holds no newline, so that their [^] is the start of the
    line. *)
Definition parse_list (raw : string) : list string :=
  let numbering :=
    Re.seq [Re.Bol; Re.plus Re.digit;
            Re.Chr (fun c => Ascii.eqb c "." || Ascii.eqb c ")"); ws] in
  let bullet :=
    Re.seq [Re.Bol; Re.Chr (fun c => Ascii.eqb c "-" || Ascii.eqb c "*"); ws] in
  flat_map
    (fun line =>
       let line := strip line in
       if negb (truthy line) then []
       else
         let cleaned := Re.sub numbering "" line in
         let cleaned := strip (Re.sub bullet "" cleaned) in
         if truthy cleaned && (3 <? String.length cleaned)%nat
            && (String.length cleaned <? 200)%nat
         then [cleaned] else [])
    (split_on "010" raw).

Definition generate_dynamic_subdomains (E : env) : M (list string) :=
  try_except
    (emit (EvPrompt "subdomains") ;;;
     raw <- call (reply_subdomains E) ;;
     let items := parse_list raw in
     let cleaned :=
       firstn 15
         (map (fun i => rstrip_chars "." (strip i))
            (List.filter (fun i => truthy (strip i)
                              && (2 <=? length (split i))%nat
                              && (length (split i) <=? 8)%nat
                              && (String.length i <? 100)%nat)
                    items)) in
     if (length cleaned <? 5)%nat then
       log_append "LLM returned few subdomains. Using fallback." ;;;
       ret _fallback_subdomains
     else
       log_append ("Generated " +:+ fmt_nat (length cleaned) +:+ " dynamic subdomains.") ;;;
       ret cleaned)
    catches_backend
    (fun exc =>
       log_append ("Subdomain generation failed: " +:+ take 60 (exn_msg exc) +:+
                   ". Using fallback.") ;;;
       ret _fallback_subdomains).

Definition detect_gaps (research_data : list ResearchItem) (subdomains : list string)
    : M (list GapResult) :=
  log_append "Using keyword-based gap detection (embeddings disabled)." ;;;
  ret (_keyword_gaps research_data subdomains).

Definition run_competitive_checks (E : env) (gap_results : list GapResult)
    (niche : string) : M (list Research.Intensity) :=
  let gaps := List.filter is_gap gap_results in
  match gaps with
  | [] => ret []
  | _ =>
      let check_n := Nat.min 5 (length gaps) in
      log_append ("Checking competitive intensity for " +:+ fmt_nat check_n +:+ " gaps.") ;;;
      mapM (fun g => Research.check_competitive_intensity E (subdomain g) niche)
           (firstn check_n gaps)
  end.

Record Signal : Type := mkSignal {
  total_urls : nat;
  urls_with_content : nat;
  urls_with_summaries : nat;
  total_content_chars : nat;
  avg_heuristic_score : Q;
  confidence : string;
}.

Definition assess_signal (research_data : list ResearchItem) : Signal :=
  let total := length research_data in
  let with_content := count_if (fun r => truthy (strip (content r))) research_data in
  let with_summary := count_if (fun r => truthy (strip (summary r))) research_data in
  let total_chars := list_sum (map (fun r => String.length (content r)) research_data) in
  let scores := map score research_data in
  let avg : Q :=
    match scores with
    | [] => 0%Q
    | _ => fold_right Z.add 0%Z scores # Pos.of_nat (length scores)
    end in
  let conf :=
    if (5000 <? total_chars)%nat then "HIGH"
    else if (2000 <? total_chars)%nat then "MEDIUM"
    else "LOW" in
  mkSignal total with_content with_summary total_chars (py_round 1 avg) conf.

(** [extract_insights]: two backend calls; a failure of either one is not
    handled here. *)
Definition extract_insights (E : env) : M string :=
  log_append "Intelligence Call 1: Hooks, structure, CTAs" ;;;
  emit (EvPrompt "insights 1") ;;;
  insights1 <- call (reply_insights1 E) ;;
  log_append "Intelligence Call 2: Tone, themes, positioning" ;;;
  emit (EvPrompt "insights 2") ;;;
  insights2 <- call (reply_insights2 E) ;;
  ret ("=== STRUCTURAL ANALYSIS ===" +:+ nl +:+ nl +:+ insights1 +:+ nl +:+ nl +:+
       "=== THEMATIC ANALYSIS ===" +:+ nl +:+ nl +:+ insights2).

End IntelStages.

(** ** strategy_engine.py *)

Module Strategy.

(** A header pattern under [re.IGNORECASE]: optionally one or two hashes,
    blanks, the section number, a dot and blanks; then the section name. *)
Definition header (n : ascii) (name : string) : Re.regex :=
  Re.Cat
    (Re.opt (Re.seq [Re.chr "#"; Re.opt (Re.chr "#"); ws; Re.chr n;
                     Re.opt (Re.chr "."); ws]))
    (Re.lit_i name).

Definition patterns : list (string * Re.regex) :=
  [ ("positioning", header "1" "STRATEGIC POSITIONING");
    ("pillars", header "2" "CONTENT PILLARS");
    ("hooks", header "3" "OPTIMIZED HOOKS");
    ("scripts", header "4" "SHORT-FORM CONTENT SCRIPTS");
    ("ctas", header "5" "CTA VARIATIONS");
    ("calendar", header "6" "7-DAY CONTENT CALENDAR") ].

(** A located header: [(m.start(), key, m.end())]. *)
Definition boundary : Type := nat * string * nat.
Definition b_start (b : boundary) : nat := fst (fst b).
Definition b_key (b : boundary) : string := snd (fst b).
Definition b_hend (b : boundary) : nat := snd b.

Definition locate (raw : string) (p : string * Re.regex) : list boundary :=
  match Re.search (snd p) raw with
  | Some (start, stop) => [(start, fst p, stop)]
  | None => []
  end.

Definition boundaries_of (raw : string) : list boundary :=
  flat_map (locate raw) patterns.

(** [.strip().lstrip(":-").strip()] *)
Definition tidy (s : string) : string := strip (lstrip_chars ":-" (strip s)).

Definition span_end (raw : string) (rest : list boundary) : nat :=
  match rest with
  | b :: _ => b_start b
  | [] => String.length raw
  end.

Fixpoint fill_sections (raw : string) (bs : list boundary)
    (sections : gmap string string) : gmap string string :=
  match bs with
  | [] => sections
  | b :: rest =>
      fill_sections raw rest
        (<[ b_key b := tidy (slice (b_hend b) (span_end raw rest) raw) ]> sections)
  end.

Definition by_start (x y : boundary) : bool := (b_start x <=? b_start y)%nat.

Definition _split_sections (raw : string) : gmap string string :=
  let boundaries := boundaries_of raw in
  if (length boundaries <? 3)%nat then {[ "full_strategy" := raw ]}
  else fill_sections raw (stable_sort by_start boundaries) ∅.

(** Pass 2 of [generate_strategy]: the text that becomes final. *)
Definition refine_pass (E : env) (raw : string) : M string :=
  try_except
    (emit (EvPrompt "strategy refine") ;;;
     refined <- call (reply_refine E) ;;
     (* refined and len(refined.strip()) > len(raw) * 0.5 *)
     if truthy refined && (String.length raw <? 2 * String.length (strip refined))%nat
     then
       log_append ("Pass 2: " +:+ fmt_nat (String.length refined) +:+ " chars (refined).") ;;;
       ret refined
     else
       log_append "Pass 2 too short. Using Pass 1." ;;;
       ret raw)
    catches_backend
    (fun _ => log_append "Pass 2 failed. Using Pass 1." ;;; ret raw).

(** [generate_strategy]; its other arguments only feed the two prompts. *)
Definition generate_strategy (E : env) : M (gmap string string) :=
  log_append "Strategy Pass 1: Generating..." ;;;
  emit (EvPrompt "strategy draft") ;;;
  raw <- call (reply_draft E) ;;
  if negb (truthy raw) || (String.length (strip raw) <? 100)%nat
  then raise (Exn RuntimeError "Strategy Pass 1 insufficient output.")
  else
    log_append ("Pass 1: " +:+ fmt_nat (String.length raw) +:+ " chars.") ;;;
    log_append "Strategy Pass 2: Critique and refine..." ;;;
    final <- refine_pass E raw ;;
    let sections := _split_sections final in
    ret (<[ "_pass1" := raw ]> (<[ "_raw" := final ]> sections)).

End Strategy.

(** ** pipeline.py *)

Module Pipeline.
Import Intel IntelStages.

(** The stage outputs as the JSON-serialisable values the result holds. *)
Definition jnat (n : nat) : json := JInt (Z.of_nat n).
Definition jstrs (l : list string) : json := JList (map JStr l).
Definition jopt_str (o : option string) : json :=
  match o with Some s => JStr s | None => JNull end.

Definition alignment_json (a : Research.Alignment) : json :=
  JDict [ ("aligned_count", jnat (Research.aligned_count a));
          ("total_count", jnat (Research.total_count a));
          ("alignment_ratio", JReal (Research.alignment_ratio a));
          ("drift_detected", JBool (Research.drift_detected a));
          ("drift_warning", jopt_str (Research.drift_warning a));
          ("alignment_keywords", jstrs (Research.alignment_keywords a)) ].

Definition keyword_json (kw : string * nat) : json :=
  JDict [ ("word", JStr (fst kw)); ("count", jnat (snd kw)) ].

Definition signal_json (s : Signal) : json :=
  JDict [ ("total_urls", jnat (total_urls s));
          ("urls_with_content", jnat (urls_with_content s));
          ("urls_with_summaries", jnat (urls_with_summaries s));
          ("total_content_chars", jnat (total_content_chars s));
          ("avg_heuristic_score", JReal (avg_heuristic_score s));
          ("confidence", JStr (confidence s)) ].

Definition bigram_json (b : string * nat) : json :=
  JDict [ ("phrase", JStr (fst b)); ("count", jnat (snd b)) ].

Definition saturation_json (s : Saturation) : json :=
  JDict ([ ("list_count", jnat (list_count s));
           ("guide_count", jnat (guide_count s));
           ("comparison_count", jnat (comparison_count s));
           ("total", jnat (total s));
           ("list_percentage", JReal (list_percentage s)) ]
         ++ match content_list_count s with
            | Some n => [ ("content_list_count", jnat n) ]
            | None => []
            end
         ++ [ ("content_list_percentage", JReal (content_list_percentage s));
              ("dominant_format", JStr (dominant_format s));
              ("is_saturated", JBool (is_saturated s));
              ("top_bigrams", JList (map bigram_json (top_bigrams s))) ])%list.

Definition gap_json (g : GapResult) : json :=
  JDict [ ("subdomain", JStr (subdomain g));
          ("similarity", JReal (similarity g));
          ("is_gap", JBool (is_gap g));
          ("method", JStr (method g)) ].

Definition intensity_json (i : Research.Intensity) : json :=
  JDict [ ("gap", JStr (Research.gap i));
          ("intensity_level", JStr (Research.intensity_level i));
          ("result_count", JInt (Research.result_count i));
          ("unique_domains", jnat (Research.unique_domains i)) ].

Definition sample_json (r : ResearchItem) : json :=
  JDict [ ("title", JStr (title r));
          ("snippet", JStr (take 200 (snippet r)));
          ("url", JStr (url r));
          ("score", JInt (score r));
          ("has_content", JBool (truthy (strip (content r))));
          ("has_summary", JBool (truthy (strip (summary r)))) ].

(** The dict of section texts; the order of its keys is not modelled. *)
Definition strategy_json (sections : gmap string string) : json :=
  JDict (map (fun kv => (fst kv, JStr (snd kv))) (map_to_list sections)).

(** [str(round(d, 1))] for a float [d]: the digits of the rounded value,
    which Python prints for magnitudes below 10^16.  A negative [d] keeps
    its sign when it rounds to zero: the float is then the negative zero,
    printed as -0.0. *)
Definition fmt_tenths (d : Q) : string :=
  let t := Qnum (py_round 1 d) in
  (if Qltb d 0 then "-" else "") +:+
  fmt_Z (Z.abs t / 10) +:+ "." +:+ fmt_Z (Z.abs t mod 10).

(** [str(b)] for a bool. *)

Definition fmt_bool (b : bool) : string := if b then "True" else "False".

(** The local variables [result] and [log] of [run_pipeline], with the
    rest of the run's store.  [result["pipeline_log"]] is the list [log]
    itself, so the log is kept once, in [fr_state]. *)
Record frame : Type := mkFrame {
  fr_result : list (string * json);
  fr_state : state;
}.

Abbreviation P := (MS frame).

Definition lift {A : Type} (m : M A) : P A :=
  fun fr =>
    let '(o, st') := m (fr_state fr) in
    (o, mkFrame (fr_result fr) st').

(** The result dict as a reader sees it: the log entry is the shared list. *)
Definition result_view (fr : frame) : list (string * json) :=
  dict_set "pipeline_log" (jstrs (st_log (fr_state fr))) (fr_result fr).

Definition meta_of (result : list (string * json)) : list (string * json) :=
  match dict_get "meta" result with
  | Some (JDict m) => m
  | _ => []
  end.

(** [result[k] = v] *)
Definition set_field (k : string) (v : json) : P unit :=
  fun fr => (Ok tt, mkFrame (dict_set k v (fr_result fr)) (fr_state fr)).

(** [result["meta"][k] = v] *)
Definition set_meta (k : string) (v : json) : P unit :=
  fun fr =>
    (Ok tt,
     mkFrame (dict_set "meta" (JDict (dict_set k v (meta_of (fr_result fr))))
                       (fr_result fr))
             (fr_state fr)).

Definition log (message : string) : P unit := lift (log_append message).

(** [_progress(message)] *)
Definition _progress (E : env) (message : string) : P unit :=
  if has_callback E then lift (emit (EvProgress message)) else ret tt.

Definition initial_result (niche platform audience goal : string)
    : list (string * json) :=
  [ ("client_profile",
     JDict [ ("niche", JStr niche); ("platform", JStr platform);
             ("target_audience", JStr audience); ("business_goal", JStr goal) ]);
    ("pipeline_log", JList []);
    ("signal_strength", JDict []);
    ("niche_alignment", JDict []);
    ("keyword_analysis", JList []);
    ("saturation_report", JDict []);
    ("semantic_gap_analysis", JList []);
    ("competitive_intensity", JList []);
    ("content_intelligence", JStr "");
    ("content_strategy", JDict []);
    ("meta", JDict []) ].

(** Input validation: the first of the four inputs that is empty or
    blank, in the order niche, platform, audience, goal. *)
Definition blank (val : string) : bool :=
  negb (truthy val) || negb (truthy (strip val)).

Definition validate (niche platform audience goal : string) : option exn :=
  match find (fun nv => blank (snd nv))
             [ ("niche", niche); ("platform", platform);
               ("audience", audience); ("goal", goal) ] with
  | Some (name, _) => Some (Exn ValueError (name +:+ " cannot be empty."))
  | None => None
  end.

(** The entries of a cache file are read through [.get].  The embedding
    covers the files whose entries have the types that [_save_cache]
    writes: strings, and an integer score.  For an entry of another
    shape Python raises at the first operation that does not apply to
    it, or carries on when every operation applies (a float score); the
    embedding raises before the alignment check in both cases. *)
Definition research_items (r : research) : P (list ResearchItem) :=
  match r with
  | Fresh items => ret items
  | Cached entries =>
      match items_of_json entries with
      | Some items => ret items
      | None => raise (Exn TypeError "research entry is not a ResearchItem")
      end
  end.

(** The body of the [try] block. *)
Definition stages (E : env) (niche platform audience goal : string)
    (start_time : Q) : P (list (string * json)) :=
  (* Step 0: Check Ollama *)
  _progress E "Checking system..." ;;;
  log "Checking Ollama availability..." ;;;
  lift (emit EvBackendCheck) ;;;
  (if negb (backend_available E) then
     raise (Exn ConnectionError
              ("Ollama is not running or qwen2.5-coder:7b is not installed. " +:+
               "Start Ollama with: ollama serve"))
   else ret tt) ;;;
  log "Ollama running with qwen2.5-coder:7b" ;;;
  (* Step 1: Research *)
  _progress E "Researching your market..." ;;;
  log "Step 1: Research..." ;;;
  found <- lift (research_niche E niche platform) ;;
  (if (research_len found =? 0)%nat then
     raise (Exn RuntimeError "No research data collected. Try a different niche.")
   else ret tt) ;;;
  log ("Research complete: " +:+ fmt_nat (research_len found) +:+ " results.") ;;;
  (* Step 2: Niche alignment *)
  _progress E "Analyzing market alignment..." ;;;
  log "Step 2: Niche alignment check..." ;;;
  research_data <- research_items found ;;
  let alignment := Research.check_niche_alignment research_data niche in
  set_field "niche_alignment" (alignment_json alignment) ;;;
  (if Research.drift_detected alignment then
     log ("WARNING: " +:+ default "" (Research.drift_warning alignment))
   else ret tt) ;;;
  (* Step 3: Keywords *)
  _progress E "Extracting key themes..." ;;;
  log "Step 3: Keyword analysis..." ;;;
  let keywords := Research.analyze_keyword_frequency research_data in
  set_field "keyword_analysis" (JList (map keyword_json keywords)) ;;;
  log ("Found " +:+ fmt_nat (length keywords) +:+ " keywords.") ;;;
  (* Step 4: Signal strength *)
  _progress E "Assessing data quality..." ;;;
  log "Step 4: Signal assessment..." ;;;
  let signal := assess_signal research_data in
  set_field "signal_strength" (signal_json signal) ;;;
  log ("Confidence: " +:+ confidence signal) ;;;
  (* Step 5: Saturation *)
  _progress E "Analyzing competition..." ;;;
  log "Step 5: Saturation analysis..." ;;;
  let saturation := analyze_structural_saturation research_data in
  set_field "saturation_report" (saturation_json saturation) ;;;
  log ("Format: " +:+ dominant_format saturation +:+ " | Saturated: " +:+
       fmt_bool (is_saturated saturation)) ;;;
  (* Step 6: Dynamic subdomains *)
  _progress E "Identifying content opportunities..." ;;;
  log "Step 6: Dynamic subdomain generation..." ;;;
  subdomains <- lift (generate_dynamic_subdomains E) ;;
  set_meta "subdomains" (jstrs subdomains) ;;;
  (* Step 7: Semantic gap detection *)
  _progress E "Finding market gaps..." ;;;
  log "Step 7: Gap detection..." ;;;
  gap_results <- lift (detect_gaps research_data subdomains) ;;
  set_field "semantic_gap_analysis" (JList (map gap_json gap_results)) ;;;
  let gap_count := count_if is_gap gap_results in
  log ("Gaps found: " +:+ fmt_nat gap_count +:+ "/" +:+ fmt_nat (length gap_results)) ;;;
  (* Step 8: Competitive intensity *)
  _progress E "Checking competitive intensity..." ;;;
  log "Step 8: Competitive intensity checks..." ;;;
  competitive <- lift (run_competitive_checks E gap_results niche) ;;
  set_field "competitive_intensity" (JList (map intensity_json competitive)) ;;;
  (* Step 9: Intelligence extraction *)
  _progress E "Extracting market insights..." ;;;
  log "Step 9: Intelligence extraction..." ;;;
  insights <- lift (extract_insights E) ;;
  set_field "content_intelligence" (JStr insights) ;;;
  (* Step 10: Strategy generation *)
  _progress E "Generating your strategy..." ;;;
  log "Step 10: Strategy generation (2-pass)..." ;;;
  strategy <- lift (Strategy.generate_strategy E) ;;
  let strategy_clean :=
    filter (fun kv => negb (startswith "_" (fst kv))) strategy in
  set_field "content_strategy" (strategy_json strategy_clean) ;;;
  (* Meta *)
  now <- lift (clock E) ;;
  let elapsed := py_round 1 (now - start_time) in
  set_meta "elapsed_seconds" (JReal elapsed) ;;;
  set_meta "research_count" (jnat (length research_data)) ;;;
  set_meta "pages_with_content" (jnat (urls_with_content signal)) ;;;
  set_meta "pages_summarized" (jnat (urls_with_summaries signal)) ;;;
  set_meta "gaps_found" (jnat gap_count) ;;;
  set_meta "total_subdomains" (jnat (length subdomains)) ;;;
  set_field "research_samples" (JList (map sample_json research_data)) ;;;
  log ("Pipeline complete in " +:+ fmt_tenths (now - start_time) +:+ "s.") ;;;
  _progress E "Finalizing report..." ;;;
  (* _ensure_json_serializable(result): a copy of the result *)
  (fun fr => (Ok (result_view fr), fr)).

(** The [except Exception as e] clause. *)
Definition on_failure (E : env) (start_time : Q) (e : exn)
    : P (list (string * json)) :=
  log ("ERROR: " +:+ exn_msg e) ;;;
  set_meta "error" (JStr (exn_msg e)) ;;;
  now <- lift (clock E) ;;
  set_meta "elapsed_seconds" (JReal (py_round 1 (now - start_time))) ;;;
  raise e.

(** One call of [run_pipeline], seen from outside and from inside. *)
Record run : Type := mkRun {
  surfaced : outcome (list (string * json));   (* returned value or raised exception *)
  result_object : option (list (string * json));
      (* the local [result] when the call ends, if it was created *)
  final : state;                               (* log, cache, external calls *)
}.

Definition run_pipeline (E : env) (niche platform audience goal : string)
    (cache : gmap string file) : run :=
  let st0 := mkState [] cache [] 0 in
  match validate niche platform audience goal with
  | Some e => mkRun (Raise e) None st0
  | None =>
      let body :=
        start_time <- lift (clock E) ;;
        try_except (stages E niche platform audience goal start_time)
                   (fun _ => true)
                   (on_failure E start_time) in
      let '(o, fr) := body (mkFrame (initial_result niche platform audience goal) st0) in
      mkRun o (Some (result_view fr)) (fr_state fr)
  end.

End Pipeline.

(** ** intelligence_engine.py: the corpus and keyword line of the prompts *)

Module Corpus.

(** One block of [_build_corpus]; [i] is the sample number, from 1. *)
Definition sample_text (i : nat) (s : ResearchItem) : string :=
  let lines := ["--- Sample " +:+ fmt_nat i +:+ " ---"; "Title: " +:+ title s] in
  let snippet_ := strip (snippet s) in
  let lines :=
    if truthy snippet_ then (lines ++ ["Snippet: " +:+ take 200 snippet_])%list
    else lines in
  let summary_ := strip (summary s) in
  let lines :=
    if truthy summary_ then (lines ++ ["Summary: " +:+ summary_])%list
    else if truthy (strip (content s))
         then (lines ++ ["Excerpt: " +:+ take 300 (content s)])%list
    else lines in
  let lines := (lines ++ ["Score: " +:+ fmt_Z (score s)])%list in
  let lines := (lines ++ [""])%list in
  join nl lines.

(** [enumerate(working, i)] rendered block by block. *)
Fixpoint samples_from (i : nat) (working : list ResearchItem) : list string :=
  match working with
  | [] => []
  | s :: rest => sample_text i s :: samples_from (S i) rest
  end.

(** The items [_build_corpus] renders: all of them, or the three with the
    highest score when the summaries exceed the budget. *)
Definition working_set (research_data : list ResearchItem) (max_chars : nat)
    : list ResearchItem :=
  let total := list_sum (map (fun r => String.length (summary r)) research_data) in
  if (max_chars <? total)%nat
  then firstn 3 (stable_sort (fun x y => (score y <=? score x)%Z) research_data)
  else research_data.

Definition trimmed_note : string := nl +:+ "[... trimmed ...]".

Definition _build_corpus (research_data : list ResearchItem) (max_chars : nat) : string :=
  let working := working_set research_data max_chars in
  let parts := samples_from 1 working in
  let result := join nl parts in
  if (max_chars <? String.length result)%nat
  then take max_chars result +:+ trimmed_note
  else result.

Definition _kw_data (keywords : list (string * nat)) : string :=
  match keywords with
  | [] => "Keywords: none."
  | _ =>
      "Top keywords: " +:+
      join ", " (map (fun kw => "'" +:+ fst kw +:+ "' (" +:+ fmt_nat (snd kw) +:+ "x)")
                     (firstn 15 keywords))
  end.

End Corpus.

(** ** ollama_client.py: prompt trimming and the request loop *)

Module Ollama.

(** [hay.find(needle)] and [hay.rfind(needle)]: [-1] when absent. *)
Fixpoint find_sub (needle hay : string) : Z :=
  if String.prefix needle hay then 0%Z
  else match hay with
       | EmptyString => (-1)%Z
       | String _ hay' =>
           let r := find_sub needle hay' in
           if (0 <=? r)%Z then (r + 1)%Z else (-1)%Z
       end.

Fixpoint rfind_sub (needle hay : string) : Z :=
  match hay with
  | EmptyString => if String.prefix needle hay then 0%Z else (-1)%Z
  | String _ hay' =>
      let r := rfind_sub needle hay' in
      if (0 <=? r)%Z then (r + 1)%Z
      else if String.prefix needle hay then 0%Z else (-1)%Z
  end.

Definition markers_start : list string :=
  ["=== RESEARCH"; "--- Sample"; "INTELLIGENCE:"; "SAMPLES:"].
Definition markers_end : list string :=
  ["=== END"; "Based STRICTLY"; "Analyze ONLY"; "GENERATE:"].

(** The index of the first marker that occurs, [default] when none does. *)
Fixpoint first_marker (locate : string -> Z) (markers : list string) (default : Z) : Z :=
  match markers with
  | [] => default
  | m :: rest =>
      let idx := locate m in
      if (idx =? -1)%Z then first_marker locate rest default else idx
  end.

Definition content_start_of (prompt : string) : Z :=
  first_marker (fun m => find_sub m prompt) markers_start
               (Z.of_nat (String.length prompt) / 4)%Z.

Definition content_end_of (prompt : string) : Z :=
  first_marker (fun m => rfind_sub m prompt) markers_end
               (Z.of_nat (String.length prompt) * 3 / 4)%Z.

Definition cut_note : string := nl +:+ "[... trimmed ...]" +:+ nl.

Definition _trim_prompt (prompt : string) (target_length : Z) : string :=
  if (Z.of_nat (String.length prompt) <=? target_length)%Z then prompt
  else
    let content_start := Z.to_nat (content_start_of prompt) in
    let content_end := Z.to_nat (content_end_of prompt) in
    let header := take content_start prompt in
    let footer := drop content_end prompt in
    let content := slice content_start content_end prompt in
    let available :=
      (target_length - Z.of_nat (String.length header)
       - Z.of_nat (String.length footer) - 50)%Z in
    let content :=
      if (0 <? available)%Z && (available <? Z.of_nat (String.length content))%Z
      then take (Z.to_nat available) content +:+ cut_note
      else content in
    header +:+ content +:+ footer.

(** The JSON object of a reply: its [response] and [error] entries, which
    the backend's API gives as strings. *)
Record payload : Type := mkPayload {
  p_response : option string;
  p_error : option string;
}.

(** What one [requests.post] meets: no connection, another request
    failure, or a response with its status, its text and its JSON object
    ([None] when the text is not JSON). *)
Inductive http : Type :=
| ConnectionRefused
| RequestFailed (description : string)
| Response (status : nat) (text : string) (data : option payload).

(** The backend as [send_prompt] sees it: the answer to the request
    number [n] carrying a given prompt. *)
Record backend : Type := mkBackend {
  transport : nat -> string -> http;
}.

(** [int(len(current_prompt) * 0.7)]: the product of the length, as a
    float, and the double nearest to 0.7, rounded to a double and
    truncated. *)
Definition scale07 (n : nat) : Z :=
  py_int (fl (fl (inject_Z (Z.of_nat n)) * fl (7 # 10))).

Definition max_retries_on_overflow : nat := 1.

Definition mentions (keywords : list string) (text : string) : bool :=
  existsb (fun kw => contains kw text) keywords.

(** The [while] loop of [send_prompt]; [rounds] bounds its iterations.
    The result is the list of prompts sent and the outcome. *)
Fixpoint send_rounds (B : backend) (rounds attempts : nat) (current_prompt : string)
    : list string * outcome string :=
  match rounds with
  | O => ([], Raise (Exn RuntimeError "All retry attempts exhausted."))
  | S rounds' =>
      let retry :=
        let target := scale07 (String.length current_prompt) in
        let '(sent, o) :=
          send_rounds B rounds' (S attempts) (_trim_prompt current_prompt target) in
        (current_prompt :: sent, o) in
      let fail (e : exn) := ([current_prompt], Raise e) in
      match transport B attempts current_prompt with
      | ConnectionRefused =>
          fail (Exn ConnectionError "Ollama not running. Start with: ollama serve")
      | RequestFailed description =>
          fail (Exn RuntimeError ("Ollama request failed: " +:+ description))
      | Response status text data =>
          if negb (status =? 200)%nat then
            let error_text := lower (take 500 text) in
            if mentions ["context"; "too long"; "token"] error_text then
              if (attempts <? max_retries_on_overflow)%nat then retry
              else fail (Exn RuntimeError "Context limit exceeded after trimming.")
            else fail (Exn RuntimeError ("Ollama error " +:+ fmt_nat status +:+ ": " +:+
                                         take 300 text))
          else
            match data with
            | None => fail (Exn RuntimeError "Invalid JSON from Ollama.")
            | Some reply =>
                match p_response reply with
                | Some generated => ([current_prompt], Ok (strip generated))
                | None =>
                    let error_msg := default "" (p_error reply) in
                    if truthy error_msg
                       && mentions ["context"; "token"] (lower error_msg)
                       && (attempts <? max_retries_on_overflow)%nat
                    then retry
                    else fail (Exn RuntimeError
                                 ("Unexpected response. Error: " +:+ error_msg))
                end
            end
      end
  end.

Definition send_prompt (B : backend) (prompt : string) : list string * outcome string :=
  send_rounds B (S max_retries_on_overflow) 0 prompt.

End Ollama.

(** ** api/app.py: the caller of the pipeline *)

Module Api.

Record AnalyzeResponse : Type := mkResponse {
  success : bool;
  human_report : option string;
  data : option (list (string * json));
  error : option string;
  error_type : option string;
}.

Definition failure (message type_name : string) : AnalyzeResponse :=
  mkResponse false None None (Some message) (Some type_name).

Definition report_fallback : string :=
  "Report generation encountered an issue. " +:+ nl +:+
  "Please see the technical data below for complete analysis results.".

(** The [analyze] endpoint on a request that passed the field checks of
    the request model.  [available] is the answer to the endpoint's own
    call of [check_ollama_available]; the pipeline asks again
    ([backend_available]).  [report] is [generate_human_report], which
    may raise.  [UnicodeDecodeError] is a [ValueError] and is handled as
    one; for an exception of another class the reported type name is the
    name of its kind here. *)
Definition analyze (E : env) (available : bool)
    (report : list (string * json) -> outcome string)
    (niche platform audience goal : string) (cache : gmap string file)
    : AnalyzeResponse :=
  if negb available then
    failure ("Ollama is not running or qwen2.5-coder:7b is not installed. " +:+
             "Please start Ollama with: ollama serve")
            "ConnectionError"
  else
    match Pipeline.surfaced (Pipeline.run_pipeline E niche platform audience goal cache) with
    | Ok result =>
        let text :=
          match report result with
          | Ok text => text
          | Raise _ => report_fallback
          end in
        mkResponse true (Some text) (Some result) None None
    | Raise e =>
        match exn_kind_of e with
        | ConnectionError => failure (exn_msg e) "ConnectionError"
        | ValueError | UnicodeDecodeError => failure (exn_msg e) "ValidationError"
        | RuntimeError => failure (exn_msg e) "RuntimeError"
        | TypeError =>
            failure ("An unexpected error occurred: " +:+ exn_msg e) "TypeError"
        end
    end.

End Api.

(** * Vocabulary of the statements

    Predicates and reference functions the properties are stated with, and
    the concrete environments and texts they are evaluated at. *)

Section Vocabulary.

Import Intel Strategy Pipeline.

(** Every character of [s] satisfies [p]. *)
Definition all_chars (p : ascii -> bool) (s : string) : Prop :=
  forall i c, String.get i s = Some c -> p c = true.

(** Python's whitespace among the code points below 256: the controls TAB
    to CR and FS to US, the blank, NEL and the no-break space. *)
Definition whitespace (c : ascii) : bool :=
  existsb (Nat.eqb (nat_of_ascii c)) [9; 10; 11; 12; 13; 28; 29; 30; 31; 32; 133; 160]%nat.

(** The number of words of a text: the places where a character that is
    not whitespace follows whitespace or begins the text. *)
Fixpoint word_starts (after_blank : bool) (s : string) : nat :=
  match s with
  | EmptyString => 0
  | String c s' =>
      (if after_blank && negb (whitespace c) then 1 else 0)
      + word_starts (whitespace c) s'
  end.

Definition word_count (s : string) : nat := word_starts true s.


(** The last character of a text. *)
Fixpoint last_char (s : string) : option ascii :=
  match s with
  | EmptyString => None
  | String c EmptyString => Some c
  | String _ s' => last_char s'
  end.

(** A text that neither begins nor ends with whitespace. *)
Definition no_outer_blank (text : string) : Prop :=
  forall c,
    String.get 0 text = Some c \/ String.get (String.length text - 1) text = Some c ->
    whitespace c = false.

(** [points] when [b] holds, nothing otherwise. *)
Definition bonus (b : bool) (points : Z) : Z := if b then points else 0%Z.

(** The normalised URL an entry is identified by. *)
Definition url_key (r : ResearchItem) : string := norm_url (url r).

(** The first entry of a list with a given normalised URL. *)
Definition first_with (k : string) (l : list ResearchItem) : option ResearchItem :=
  find (fun x => String.eqb (url_key x) k) l.

(** De-duplication as a recursion over the entries. *)
Fixpoint dedup_from (seen : gset string) (l : list ResearchItem) : list ResearchItem :=
  match l with
  | [] => []
  | r :: l' =>
      if decide (url_key r ∈ seen) then dedup_from seen l'
      else r :: dedup_from ({[ url_key r ]} ∪ seen) l'
  end.

(** Coverage as the specification words it: the matching content words
    over the total number of words of the subdomain. *)
Definition spec_coverage (corpus sd : string) : Q :=
  inject_Z (Z.of_nat (gap_matches corpus sd)) / inject_Z (Z.of_nat (length (split sd))).

(** The result object holds no [meta.error]. *)
Definition no_error (fr : frame) : Prop :=
  dict_get "error" (meta_of (fr_result fr)) = None.

(** [m] keeps the invariant and, when it returns, establishes [Q]. *)
Definition ensures {A : Type} (m : P A) (Q : A -> frame -> Prop) : Prop :=
  forall fr a fr', no_error fr -> m fr = (Ok a, fr') -> no_error fr' /\ Q a fr'.

Definition anything {A : Type} : A -> frame -> Prop := fun _ _ => True.

(** The locals of [run_pipeline] when the [try] block is entered. *)
Definition first_frame (niche platform audience goal : string)
    (cache : gmap string file) : frame :=
  mkFrame (initial_result niche platform audience goal) (mkState [] cache [] 1).

(** An environment in which nothing outside the process answers, and one
    that differs from it in the replies to the two strategy prompts. *)
Definition offline : env :=
  mkEnv false (fun _ => 0%Q) false (fun key => key) 0 false
        (fun _ => Raise (Exn RuntimeError "DDG failed: unreachable"))
        (fun _ => Raise (Exn RuntimeError "Bing failed: unreachable"))
        (fun _ => FetchFailed)
        (fun _ _ => Raise (Exn ConnectionError "Ollama not running. Start with: ollama serve"))
        (Raise (Exn ConnectionError "Ollama not running. Start with: ollama serve"))
        (Raise (Exn ConnectionError "Ollama not running. Start with: ollama serve"))
        (Raise (Exn ConnectionError "Ollama not running. Start with: ollama serve"))
        (Raise (Exn ConnectionError "Ollama not running. Start with: ollama serve"))
        (Raise (Exn ConnectionError "Ollama not running. Start with: ollama serve")).

Definition with_strategy_replies (draft refine : outcome string) : env :=
  mkEnv (has_callback offline) (time_at offline) (disk_ok offline) (md5_hex offline)
        (random_choice offline) (backend_available offline) (ddg offline) (bing offline)
        (page offline) (reply_summary offline) (reply_subdomains offline)
        (reply_insights1 offline) (reply_insights2 offline) draft refine.

(** The same environment with another clock, disk, or search provider. *)
Definition with_clock (now : nat -> Q) (E : env) : env :=
  mkEnv (has_callback E) now (disk_ok E) (md5_hex E) (random_choice E)
        (backend_available E) (ddg E) (bing E) (page E) (reply_summary E)
        (reply_subdomains E) (reply_insights1 E) (reply_insights2 E)
        (reply_draft E) (reply_refine E).

Definition with_disk (ok : bool) (E : env) : env :=
  mkEnv (has_callback E) (time_at E) ok (md5_hex E) (random_choice E)
        (backend_available E) (ddg E) (bing E) (page E) (reply_summary E)
        (reply_subdomains E) (reply_insights1 E) (reply_insights2 E)
        (reply_draft E) (reply_refine E).

Definition with_ddg (answer : list ResearchItem) (E : env) : env :=
  mkEnv (has_callback E) (time_at E) (disk_ok E) (md5_hex E) (random_choice E)
        (backend_available E) (fun _ => Ok answer) (bing E) (page E) (reply_summary E)
        (reply_subdomains E) (reply_insights1 E) (reply_insights2 E)
        (reply_draft E) (reply_refine E).

Definition with_backend (up : bool) (E : env) : env :=
  mkEnv (has_callback E) (time_at E) (disk_ok E) (md5_hex E) (random_choice E)
        up (ddg E) (bing E) (page E) (reply_summary E)
        (reply_subdomains E) (reply_insights1 E) (reply_insights2 E)
        (reply_draft E) (reply_refine E).

(** Nothing logged, an empty cache directory, no call made. *)
Definition empty_state : state := mkState [] ∅ [] 0.

(** A draft of 100 characters and a rewrite of 50. *)
Definition draft100 : string :=
  "Positioning for founders: ship weekly, show the work, skip the hype; pillars, hooks, scripts follow.".
Definition rewrite50 : string :=
  "Ship weekly. Show the work. Skip the hype. Always.".

(** A rewrite of 66 characters. *)
Definition rewrite66 : string :=
  "Ship weekly. Show the work. Skip the hype. Always. Then repeat it.".

(** A provider that answers every query with fourteen distinct pages. *)
Definition fourteen_pages : list ResearchItem :=
  map (fun n => stub ("Page " +:+ fmt_nat n) "" ("http://site" +:+ fmt_nat n +:+ ".example"))
      (seq 0 14).

(** An environment in which the backend is up, the primary provider
    answers, no page can be fetched and the subdomain prompt fails. *)
Definition online : env :=
  mkEnv true (fun n => (inject_Z (Z.of_nat n) * (25 # 2))%Q) true (fun key => key) 1 true
        (fun _ => Ok fourteen_pages)
        (fun _ => Ok (1200%Z, firstn 2 fourteen_pages))
        (fun _ => FetchFailed)
        (fun _ _ => Ok "digest")
        (Raise (Exn RuntimeError "Ollama error 500: overloaded"))
        (Ok "hooks and CTAs") (Ok "tone and themes")
        (Ok draft100) (Ok rewrite66).

(** The store after a step that appended [lines] to the log and made the
    external calls [calls]. *)
Definition after (st : state) (lines : list string) (calls : list event) : state :=
  mkState (st_log st ++ lines) (st_fs st) (st_events st ++ calls) (st_ticks st).

(** An external call that fails, when it does, with an exception of one
    of the given kinds. *)
Definition fails_only {A : Type} (kinds : exn_kind -> bool) (o : outcome A) : Prop :=
  forall e, o = Raise e -> kinds (exn_kind_of e) = true.

(** What holds of every item of a freshly researched list: its score is
    the heuristic score of its title and snippet, its content is empty or
    between 300 and 1200 characters long, and it has a summary only if it
    has content. *)
Definition researched (r : ResearchItem) : Prop :=
  score r = compute_heuristic_score (title r) (snippet r)
  /\ (content r = "" \/ (300 <= String.length (content r) <= 1200)%nat)
  /\ (content r = "" -> summary r = "").

(** Two items that differ at most in content and summary. *)
Definition same_page (a b : ResearchItem) : Prop :=
  title b = title a /\ snippet b = snippet a /\ url b = url a /\ score b = score a.

(** Items in order of decreasing score. *)
Definition by_score_desc (l : list ResearchItem) : Prop :=
  StronglySorted (fun a b => (score b <= score a)%Z) l.

(** A prompt of 248 characters with a start and an end marker, and a
    backend that reports a context overflow for every prompt longer than
    200 characters and echoes the others. *)
Definition marked_prompt : string :=
  "Find hooks. INTELLIGENCE: " +:+ draft100 +:+ " " +:+ draft100 +:+
  " GENERATE: five hooks".

Definition small_context : Ollama.backend :=
  Ollama.mkBackend
    (fun _ prompt =>
       if (200 <? String.length prompt)%nat
       then Ollama.Response 500 "context length exceeded" None
       else Ollama.Response 200 "" (Some (Ollama.mkPayload (Some (" " +:+ prompt +:+ " ")) None))).

(** How a call of [send_prompt] may end: with text that is stripped of
    surrounding whitespace, or with a [ConnectionError] or [RuntimeError]
    other than the one that follows the request loop. *)
Definition send_prompt_outcome (o : outcome string) : Prop :=
  match o with
  | Ok text => strip text = text
  | Raise e =>
      catches_backend (exn_kind_of e) = true
      /\ exn_msg e <> "All retry attempts exhausted."
  end.

(** A reply that makes [send_prompt] trim the prompt and try again. *)
Definition signals_overflow (reply : Ollama.http) : Prop :=
  exists status text data,
    reply = Ollama.Response status text data
    /\ (status <> 200%nat
        \/ exists error_msg, data = Some (Ollama.mkPayload None (Some error_msg))).

(** The keys the result object is created with. *)
Definition result_keys : list string :=
  [ "client_profile"; "pipeline_log"; "signal_strength"; "niche_alignment";
    "keyword_analysis"; "saturation_report"; "semantic_gap_analysis";
    "competitive_intensity"; "content_intelligence"; "content_strategy"; "meta" ].

(** The echo of the four inputs in the result object. *)
Definition profile_of (niche platform audience goal : string) : json :=
  JDict [ ("niche", JStr niche); ("platform", JStr platform);
          ("target_audience", JStr audience); ("business_goal", JStr goal) ].

(** A result object that has every initial key and a given profile. *)
Definition complete (profile : json) (result : list (string * json)) : Prop :=
  dict_get "client_profile" result = Some profile
  /\ forall k, In k result_keys -> dict_get k result <> None.

(** The frame's result object is complete. *)
Definition kept (profile : json) (fr : frame) : Prop := complete profile (fr_result fr).

(** [m] keeps an invariant of the frame however it ends. *)
Definition keeps {A : Type} (I : frame -> Prop) (m : P A) : Prop :=
  forall fr o fr', I fr -> m fr = (o, fr') -> I fr'.

(** The external calls of a run, without the progress messages. *)
Definition is_progress (ev : event) : bool :=
  match ev with EvProgress _ => true | _ => false end.
Definition external_calls (st : state) : list event :=
  List.filter (fun ev => negb (is_progress ev)) (st_events st).

(** Every search fails with a [RuntimeError]. *)
Definition searches_fail (E : env) : Prop :=
  (forall q, exists e, ddg E q = Raise e /\ exn_kind_of e = RuntimeError)
  /\ (forall q, exists e, bing E q = Raise e /\ exn_kind_of e = RuntimeError).

(** The counts a returned result reports agree with what it holds: the
    research count is the number of research samples, which is not zero;
    between 5 and 15 subdomains were examined, and the gaps found are
    among them. *)
Definition counts_agree (result : list (string * json)) : Prop :=
  exists (samples : list json) (subdomains gaps : nat),
    dict_get "research_samples" result = Some (JList samples)
    /\ samples <> []
    /\ dict_get "research_count" (meta_of result) = Some (jnat (length samples))
    /\ dict_get "total_subdomains" (meta_of result) = Some (jnat subdomains)
    /\ dict_get "gaps_found" (meta_of result) = Some (jnat gaps)
    /\ (5 <= subdomains <= 15)%nat
    /\ (gaps <= subdomains)%nat.

(** The search a competitive check makes for a gap phrase. *)
Definition probe (niche : string) (gap_phrase : string) : event :=
  EvSearchBing (dquote +:+ gap_phrase +:+ dquote +:+ " " +:+ niche).

End Vocabulary.

(** * Properties *)

(** ** The functions on small inputs *)

Section Evaluation.

Import Intel Strategy Pipeline.

Example score_example :
  compute_heuristic_score "10 Proven Hacks?" "the ultimate strategy" = 8%Z.
Proof. vm_compute. reflexivity. Qed.

Example clean_text_example :
  _clean_text ("Accept all   cookies" +:+ nl +:+
               "Terms of Service apply to every reader of this long paragraph.")
  = "apply to every reader of this long paragraph.".
Proof. vm_compute. reflexivity. Qed.

Example dedup_example :
  map url (_dedup [stub "a" "" "http://A.example/"; stub "b" "" "http://a.example";
                   stub "c" "" "http://b.example//"; stub "d" "" "HTTP://B.EXAMPLE"])
  = ["http://A.example/"; "http://b.example//"].
Proof. vm_compute. reflexivity. Qed.

Example keyword_gaps_example :
  map (fun g => (subdomain g, is_gap g))
      (_keyword_gaps [mkItem "Top 10 tools for marketing" "a market guide" "u" "" 0%Z ""]
                     ["marketing tools"; "zzz yyy xxx"; "market zzzz yyyy"])
  = [("zzz yyy xxx", true); ("market zzzz yyyy", false); ("marketing tools", false)].
Proof. vm_compute. reflexivity. Qed.

Example split_sections_example :
  let raw := "intro ## 1. STRATEGIC POSITIONING STATEMENT" +:+ nl +:+ "We are X." +:+ nl +:+
             "## 2. Content Pillars:" +:+ nl +:+ "- p1" +:+ nl +:+ "3. OPTIMIZED HOOKS -- h" in
  _split_sections raw !! "positioning" = Some ("STATEMENT" +:+ nl +:+ "We are X.")
  /\ _split_sections raw !! "pillars" = Some ("- p1" +:+ nl +:+ "3.")
  /\ _split_sections raw !! "hooks" = Some "h"
  /\ _split_sections raw !! "full_strategy" = None.
Proof. repeat split; vm_compute; reflexivity. Qed.

Example split_sections_unstructured :
  _split_sections "1. STRATEGIC POSITIONING: bold. 2. CONTENT PILLARS: three."
  = {[ "full_strategy" := "1. STRATEGIC POSITIONING: bold. 2. CONTENT PILLARS: three." ]}.
Proof. vm_compute. reflexivity. Qed.

Example cache_roundtrip_example :
  let E := with_disk true (with_clock (fun n => inject_Z (Z.of_nat n) * 3600)%Q offline) in
  let saved := snd (_save_cache E "Founder Productivity " "LinkedIn" fourteen_pages empty_state) in
  fst (_load_cache E "founder productivity" "linkedin" saved)
  = Ok (map item_json fourteen_pages).
Proof. vm_compute. reflexivity. Qed.

(** Code points above the ASCII range: the no-break space U+00A0 and NEL
    U+0085 are blanks for [split], [strip] and the validation of the
    inputs; U+00C9 is lower-cased to U+00E9, which is a word character, so
    that no word boundary follows "list" in "list" + U+00E9. *)
Example latin1_example :
  let nbsp := String "160" "" in
  let E_acute := String "201" "" in
  let e_acute := String "233" "" in
  compute_heuristic_score
    (join nbsp ["a"; "b"; "c"; "d"; "e"; "f"; "g"; "h"; "i"; "j"; "k"; "l"]) "" = 0%Z
  /\ strip (nbsp +:+ "a" +:+ String "133" "") = "a"
  /\ lower ("CAF" +:+ E_acute) = "caf" +:+ e_acute
  /\ map title (_dedup [stub "first" "" ("http://caf" +:+ E_acute);
                        stub "second" "" ("http://caf" +:+ e_acute +:+ "/")])
     = ["first"]
  /\ (let report := analyze_structural_saturation
                      [stub ("Contenu list" +:+ e_acute) "" "http://a.example"] in
      list_count report = 0%nat /\ dominant_format report = "Mixed formats")
  /\ _split_sections ("STRATEGIC POSITIONING:" +:+ nbsp +:+ "a" +:+ nbsp +:+
                      " CONTENT PILLARS: b OPTIMIZED HOOKS: c") !! "positioning"
     = Some "a"
  /\ map (fun g => (similarity g, is_gap g))
         (_keyword_gaps [stub (E_acute +:+ "COLE " +:+ E_acute +:+ "T" +:+ E_acute) "" ""]
                        [e_acute +:+ "cole " +:+ e_acute +:+ "t" +:+ e_acute])
     = [(1000 # 1000, false)]
  /\ validate "niche" (nbsp +:+ String "133" "") "audience" "goal"
     = Some (Exn ValueError "platform cannot be empty.").
Proof. cbv zeta. repeat split; vm_compute; reflexivity. Qed.

(** Rounding works on the double: 1/80 is held as a double above 0.0125
    and 1/20 as one above 0.05, so both round up; 3/80 * 100 is exactly
    3.75, a tie that goes to the even digit; 90 * 0.7 is a double below
    63. *)
Example float_example :
  py_round 3 (ratio 1 80) = 13 # 1000
  /\ py_round 2 (ratio 1 40) = 3 # 100
  /\ py_round 1 (ratio 1 20) = 1 # 10
  /\ py_round 1 (1 # 4) = 2 # 10
  /\ py_round 1 (pct_float 3 80) = 38 # 10
  /\ Ollama.scale07 90 = 62%Z
  /\ Ollama.scale07 100 = 70%Z.
Proof. repeat split; vm_compute; reflexivity. Qed.

Example successful_run_example :
  match surfaced (run_pipeline online "founder productivity" "LinkedIn" "founders" "leads" ∅) with
  | Ok result =>
      dict_get "research_count" (meta_of result) = Some (JInt 12)
      /\ dict_get "elapsed_seconds" (meta_of result) = Some (JReal (250 # 10))
      /\ dict_get "error" (meta_of result) = None
  | Raise _ => False
  end.
Proof. vm_compute. repeat split; reflexivity. Qed.

End Evaluation.

(** ** Strings *)

Section StringFacts.

Lemma length_take (n : nat) (s : string) :
  String.length (take n s) = Nat.min n (String.length s).
Proof.
  revert s; induction n as [|n IH]; intros [|c s]; simpl; auto.
Qed.

Lemma take_all (n : nat) (s : string) :
  (String.length s <= n)%nat -> take n s = s.
Proof.
  revert s; induction n as [|n IH]; intros [|c s]; simpl; intros H; auto; try lia.
  f_equal. apply IH. lia.
Qed.

Lemma take_take (n m : nat) (s : string) :
  (n <= m)%nat -> take n (take m s) = take n s.
Proof.
  revert m s; induction n as [|n IH]; intros [|m] [|c s] H; simpl; auto; try lia.
  f_equal. apply IH. lia.
Qed.

Lemma get_take (n i : nat) (s : string) :
  (i < n)%nat -> String.get i (take n s) = String.get i s.
Proof.
  revert i s; induction n as [|n IH]; intros i [|c s] H; simpl; auto; try lia.
  destruct i as [|i]; simpl; auto. apply IH. lia.
Qed.

(** [rfind_char] returns the last index holding the character. *)
Lemma rfind_char_range (ch : ascii) (s : string) :
  (-1 <= rfind_char ch s < Z.of_nat (String.length s))%Z.
Proof.
  induction s as [|c s IH]; simpl; [lia|].
  destruct (0 <=? rfind_char ch s)%Z eqn:E.
  - apply Z.leb_le in E. lia.
  - destruct (Ascii.eqb c ch); lia.
Qed.

Lemma rfind_char_hit (ch : ascii) (s : string) :
  (0 <= rfind_char ch s)%Z ->
  String.get (Z.to_nat (rfind_char ch s)) s = Some ch.
Proof.
  induction s as [|c s IH]; simpl; [lia|].
  destruct (0 <=? rfind_char ch s)%Z eqn:E.
  - apply Z.leb_le in E. intros _.
    replace (Z.to_nat (rfind_char ch s + 1)) with (S (Z.to_nat (rfind_char ch s))) by lia.
    simpl. auto.
  - destruct (Ascii.eqb c ch) eqn:Ec; [|lia].
    intros _. simpl. apply Ascii.eqb_eq in Ec. now subst.
Qed.

Lemma rfind_char_last (ch : ascii) (s : string) (j : nat) :
  (rfind_char ch s < Z.of_nat j)%Z -> String.get j s <> Some ch.
Proof.
  revert j; induction s as [|c s IH]; intros j; simpl; [discriminate|].
  destruct (0 <=? rfind_char ch s)%Z eqn:E.
  - apply Z.leb_le in E. intros H. destruct j as [|j]; [lia|].
    apply IH. lia.
  - apply Z.leb_gt in E. destruct (Ascii.eqb c ch) eqn:Ec.
    + intros H. destruct j as [|j]; [lia|]. apply IH. lia.
    + intros _. destruct j as [|j].
      * intros [= ->]. rewrite Ascii.eqb_refl in Ec. discriminate.
      * apply IH. lia.
Qed.

Lemma all_chars_nil (p : ascii -> bool) : all_chars p "".
Proof. intros i c. destruct i; discriminate. Qed.

Lemma all_chars_cons (p : ascii -> bool) (c : ascii) (s : string) :
  all_chars p (String c s) <-> p c = true /\ all_chars p s.
Proof.
  split.
  - intros H. split; [apply (H 0%nat); reflexivity|].
    intros i x Hi. apply (H (S i)). exact Hi.
  - intros [Hc Hs] [|i] x; simpl; [intros [= <-]; exact Hc | apply Hs].
Qed.

Lemma rstrip_by_empty (p : ascii -> bool) (s : string) :
  rstrip_by p s = "" <-> all_chars p s.
Proof.
  induction s as [|c s IH]; simpl.
  - split; auto using all_chars_nil.
  - rewrite all_chars_cons. destruct (rstrip_by p s) eqn:E.
    + destruct (p c); split; try discriminate; try tauto.
      intros [H _]; discriminate.
    + split; [discriminate|]. intros [_ H]. apply IH in H. discriminate.
Qed.

Lemma rstrip_by_all (p : ascii -> bool) (s : string) :
  all_chars p (rstrip_by p s) -> all_chars p s.
Proof.
  induction s as [|c s IH]; simpl; auto.
  destruct (rstrip_by p s) eqn:E.
  - intros H. apply all_chars_cons. split.
    + destruct (p c) eqn:Ec; auto.
      rewrite <- Ec. apply (H 0%nat). reflexivity.
    + apply rstrip_by_empty. exact E.
  - intros H. apply all_chars_cons in H. destruct H as [Hc Ht].
    apply all_chars_cons. split; auto.
Qed.

Lemma lstrip_by_empty (p : ascii -> bool) (s : string) :
  lstrip_by p s = "" <-> all_chars p s.
Proof.
  induction s as [|c s IH]; simpl.
  - split; auto using all_chars_nil.
  - rewrite all_chars_cons. destruct (p c) eqn:E.
    + rewrite IH. tauto.
    + split; [discriminate|]. intros [H _]. discriminate.
Qed.

Lemma is_space_whitespace (c : ascii) : is_space c = whitespace c.
Proof. destruct c as [[] [] [] [] [] [] [] []]; reflexivity. Qed.

(** [s.split()] has one entry for each word. *)
Lemma length_split_go (cur : list ascii) (s : string) :
  length (split_go cur s)
  = (word_starts (match cur with [] => true | _ => false end) s
     + match cur with [] => 0 | _ => 1 end)%nat.
Proof.
  revert cur. induction s as [|c s IH]; intros cur.
  - cbn [split_go word_starts]. destruct cur; reflexivity.
  - cbn [split_go word_starts]. rewrite <- is_space_whitespace.
    destruct (is_space c).
    + rewrite length_app, IH. destruct cur; cbn; lia.
    + rewrite IH. destruct cur; cbn; lia.
Qed.

Lemma length_split (s : string) : length (split s) = word_count s.
Proof. unfold split, word_count. rewrite length_split_go. lia. Qed.

Lemma get_last (s : string) : String.get (String.length s - 1) s = last_char s.
Proof.
  induction s as [|c s IH]; [reflexivity|].
  destruct s as [|d s]; [reflexivity|].
  change (last_char (String c (String d s))) with (last_char (String d s)).
  rewrite <- IH. cbn [String.length].
  replace (S (S (String.length s)) - 1)%nat with (S (S (String.length s) - 1)) by lia.
  reflexivity.
Qed.

Lemma lstrip_by_head (p : ascii -> bool) (s : string) (c : ascii) :
  String.get 0 (lstrip_by p s) = Some c -> p c = false.
Proof.
  induction s as [|d s IH]; cbn [lstrip_by]; [discriminate|].
  destruct (p d) eqn:E; [exact IH|]. cbn. now intros [= <-].
Qed.

Lemma lstrip_by_last (p : ascii -> bool) (s : string) (c : ascii) :
  last_char (lstrip_by p s) = Some c -> last_char s = Some c.
Proof.
  induction s as [|d s IH]; cbn [lstrip_by]; [discriminate|].
  destruct (p d); [|auto]. intros H. specialize (IH H).
  destruct s; [discriminate|exact IH].
Qed.

Lemma rstrip_by_last (p : ascii -> bool) (s : string) (c : ascii) :
  last_char (rstrip_by p s) = Some c -> p c = false.
Proof.
  induction s as [|d s IH]; cbn [rstrip_by]; [discriminate|].
  destruct (rstrip_by p s) as [|e r].
  - destruct (p d) eqn:E; [discriminate|]. cbn. now intros [= <-].
  - exact IH.
Qed.

(** [s.strip()] neither begins nor ends with whitespace. *)
Lemma strip_no_outer_blank (s : string) : no_outer_blank (strip s).
Proof.
  intros c. rewrite get_last, <- is_space_whitespace. unfold strip. intros [H|H].
  - eapply lstrip_by_head, H.
  - eapply rstrip_by_last, lstrip_by_last, H.
Qed.

(** [s.strip()] is empty exactly for a string of blanks. *)
Lemma strip_empty (s : string) : strip s = "" <-> all_chars is_space s.
Proof.
  unfold strip. rewrite lstrip_by_empty. split.
  - apply rstrip_by_all.
  - intros H. apply rstrip_by_empty in H. rewrite H. apply all_chars_nil.
Qed.

End StringFacts.

(** ** Regular expressions *)

Section RegexFacts.

(** A repetition never fails when what follows it cannot fail. *)
Lemma run_star_total {R : Type} (r : Re.regex) (k : option ascii -> string -> option R)
    (prev : option ascii) (s : string) :
  (forall p s', is_Some (k p s')) -> is_Some (Re.run (Re.Star r) prev s k).
Proof.
  intros Hk. simpl. generalize (String.length s). intros fuel. revert prev s.
  induction fuel as [|fuel IH]; intros prev s; [apply Hk|].
  match goal with |- is_Some (match ?m with _ => _ end) => destruct m end;
    [eauto | apply Hk].
Qed.

(** [re.search(r'\d+', s)] succeeds exactly when [s] holds a digit. *)
Lemma search_digits (s : string) (prev : option ascii) (pos : nat) :
  is_Some (Re.search_from (Re.plus Re.digit) prev s pos) <-> has_char is_digit s = true.
Proof.
  revert prev pos; induction s as [|c s IH]; intros prev pos.
  - simpl. split; [intros [x H]; discriminate | discriminate].
  - unfold Re.search_from; fold Re.search_from.
    unfold Re.match_here, Re.plus, Re.digit.
    change (has_char is_digit (String c s)) with (is_digit c || has_char is_digit s).
    cbn [Re.run]. destruct (is_digit c) eqn:Ec.
    + simpl orb.
      match goal with
      | |- context [match ?m with Some _ => _ | None => _ end] =>
          assert (Hm : is_Some m)
      end.
      { apply (run_star_total (Re.Chr is_digit)). eauto. }
      destruct Hm as [n ->]. split; eauto.
    + simpl orb. apply IH.
Qed.

Lemma found_digits (s : string) :
  Re.found (Re.plus Re.digit) s = has_char is_digit s.
Proof.
  unfold Re.found, Re.search.
  pose proof (search_digits s None 0) as H.
  destruct (Re.search_from (Re.plus Re.digit) None s 0) eqn:E.
  - symmetry. apply H. eauto.
  - destruct (has_char is_digit s); auto.
    destruct H as [_ H]. destruct (H eq_refl) as [x Hx]. discriminate.
Qed.

End RegexFacts.

(** ** Heuristic score *)

Section Score.

Lemma fold_count (p : string -> bool) (ws : list string) (a : Z) :
  fold_left (fun score w => if p w then (score + 1)%Z else score) ws a
  = (a + Z.of_nat (count_if p ws))%Z.
Proof.
  revert a; induction ws as [|w ws IH]; intros a; simpl.
  - unfold count_if; simpl; lia.
  - rewrite IH. unfold count_if; simpl. destruct (p w); simpl; lia.
Qed.

Lemma count_if_perm {A : Type} (p : A -> bool) (l1 l2 : list A) :
  Permutation l1 l2 -> count_if p l1 = count_if p l2.
Proof.
  unfold count_if. induction 1; simpl; auto.
  - destruct (p x); simpl; auto.
  - destruct (p x), (p y); simpl; auto.
  - congruence.
Qed.

Lemma score_over_sum (ws : list string) (title snippet : string) :
  let combined := lower (title +:+ " " +:+ snippet) in
  score_over ws title snippet
  = (bonus (has_char is_digit combined) 2
     + bonus (contains "?" combined) 1
     + bonus (length (split title) <? 12)%nat 1
     + Z.of_nat (count_if (fun w => contains w combined) ws))%Z.
Proof.
  intros combined. unfold score_over. fold combined.
  rewrite fold_count, found_digits. unfold bonus.
  destruct (has_char is_digit combined), (contains "?" combined),
    (length (split title) <? 12)%nat; lia.
Qed.

(** C7. For every title and snippet the heuristic score is the sum of 2
    when the lower-cased title and snippet hold a digit, 1 when they hold
    a question mark, 1 when the title has fewer than 12 words (runs of
    characters other than whitespace) and 1 for each power word occurring
    in them; it is a non-negative integer, and it is the same whatever
    order the set of power words is visited in, so two calls on the same
    input give the same score. *)
Theorem heuristic_score_sum (title snippet : string) :
  let combined := lower (title +:+ " " +:+ snippet) in
  compute_heuristic_score title snippet
  = (bonus (has_char is_digit combined) 2
     + bonus (contains "?" combined) 1
     + bonus (word_count title <? 12)%nat 1
     + Z.of_nat (count_if (fun w => contains w combined) POWER_WORDS))%Z
  /\ (0 <= compute_heuristic_score title snippet)%Z
  /\ forall order : list string,
       Permutation order POWER_WORDS ->
       score_over order title snippet = compute_heuristic_score title snippet.
Proof.
  intros combined. unfold compute_heuristic_score.
  repeat split.
  - rewrite <- length_split. apply score_over_sum.
  - rewrite score_over_sum. unfold bonus.
    destruct (has_char is_digit _), (contains "?" _), (length (split title) <? 12)%nat; lia.
  - intros order Hperm. rewrite !score_over_sum.
    now rewrite (count_if_perm _ _ _ Hperm).
Qed.

End Score.

(** ** Content extraction: the length gate *)

Section LengthGate.

Lemma length_gate_short (cleaned : string) :
  (String.length cleaned < MIN_CONTENT_LENGTH)%nat -> length_gate cleaned = "".
Proof.
  intros H. unfold length_gate.
  destruct (String.length cleaned <? MIN_CONTENT_LENGTH)%nat eqn:E; auto.
  apply Nat.ltb_ge in E. lia.
Qed.

Lemma length_gate_middle (cleaned : string) :
  (MIN_CONTENT_LENGTH <= String.length cleaned <= MAX_CONTENT_LENGTH)%nat ->
  length_gate cleaned = cleaned.
Proof.
  intros [H1 H2]. unfold length_gate.
  destruct (String.length cleaned <? MIN_CONTENT_LENGTH)%nat eqn:E1.
  { apply Nat.ltb_lt in E1. lia. }
  destruct (MAX_CONTENT_LENGTH <? String.length cleaned)%nat eqn:E2; auto.
  apply Nat.ltb_lt in E2. lia.
Qed.

Lemma length_gate_long (cleaned : string) :
  (MAX_CONTENT_LENGTH < String.length cleaned)%nat ->
  let trunc := take MAX_CONTENT_LENGTH cleaned in
  let lp := rfind_char "." trunc in
  length_gate cleaned
  = if (600 <? lp)%Z then take (Z.to_nat lp + 1) cleaned else trunc.
Proof.
  intros H trunc lp. unfold length_gate.
  destruct (String.length cleaned <? MIN_CONTENT_LENGTH)%nat eqn:E1.
  { apply Nat.ltb_lt in E1. unfold MIN_CONTENT_LENGTH, MAX_CONTENT_LENGTH in *. lia. }
  destruct (MAX_CONTENT_LENGTH <? String.length cleaned)%nat eqn:E2.
  2:{ apply Nat.ltb_ge in E2. lia. }
  fold trunc. fold lp.
  pose proof (rfind_char_range "." trunc) as Hr. fold lp in Hr.
  assert (Hlen : String.length trunc = MAX_CONTENT_LENGTH).
  { unfold trunc. rewrite length_take. lia. }
  rewrite Hlen in Hr.
  replace (Z.of_nat MAX_CONTENT_LENGTH <? 2 * lp)%Z with (600 <? lp)%Z.
  2:{ unfold MAX_CONTENT_LENGTH.
      destruct (600 <? lp)%Z eqn:A, (Z.of_nat 1200 <? 2 * lp)%Z eqn:B; auto;
        [apply Z.ltb_lt in A; apply Z.ltb_ge in B | apply Z.ltb_ge in A; apply Z.ltb_lt in B];
        lia. }
  destruct (600 <? lp)%Z eqn:A; auto.
  apply Z.ltb_lt in A. unfold trunc.
  replace (Z.to_nat (lp + 1)) with (Z.to_nat lp + 1)%nat by lia.
  apply take_take. unfold MAX_CONTENT_LENGTH in *. lia.
Qed.

Lemma length_gate_bound (cleaned : string) :
  (String.length (length_gate cleaned) <= MAX_CONTENT_LENGTH)%nat.
Proof.
  destruct (Nat.lt_ge_cases (String.length cleaned) MIN_CONTENT_LENGTH) as [H|H].
  { rewrite length_gate_short by exact H. simpl. lia. }
  destruct (Nat.le_gt_cases (String.length cleaned) MAX_CONTENT_LENGTH) as [H'|H'].
  { rewrite length_gate_middle by lia. exact H'. }
  rewrite length_gate_long by exact H'.
  pose proof (rfind_char_range "." (take MAX_CONTENT_LENGTH cleaned)) as Hr.
  rewrite length_take in Hr. unfold MAX_CONTENT_LENGTH in *.
  destruct (600 <? _)%Z; rewrite length_take; lia.
Qed.

(** C5. Content extraction returns the empty string whenever the cleaned
    text has fewer than 300 characters and never returns more than 1200
    characters; a cleaned text of more than 1200 characters is cut to its
    first 1200, and cut back to end at the last full stop of that prefix
    only when that full stop lies past index 600, the half of the
    prefix. *)
Theorem extract_page_content_length_gate :
  (forall page : fetched,
      (String.length (extract_page_content page) <= 1200)%nat)
  /\ (forall meta parts,
        extract_page_content (Page meta parts)
        = length_gate (_clean_text (page_raw meta parts)))
  /\ forall cleaned : string,
       let out := length_gate cleaned in
       let trunc := take 1200 cleaned in
       let lp := rfind_char "." trunc in
       ((String.length cleaned < 300)%nat -> out = "")
       /\ (String.length out <= 1200)%nat
       /\ ((1200 < String.length cleaned)%nat ->
           ((600 < lp)%Z ->
              out = take (Z.to_nat lp + 1) cleaned
              /\ String.length out = (Z.to_nat lp + 1)%nat
              /\ String.get (Z.to_nat lp) out = Some "."%char
              /\ forall j, (Z.to_nat lp < j)%nat -> String.get j trunc <> Some "."%char)
           /\ ((lp <= 600)%Z -> out = trunc /\ String.length out = 1200%nat)).
Proof.
  split; [|split].
  - intros [| |meta parts]; simpl; try lia. apply length_gate_bound.
  - reflexivity.
  - intros cleaned out trunc lp. split; [|split].
    + apply length_gate_short.
    + apply length_gate_bound.
    + intros Hlong.
      pose proof (length_gate_long cleaned Hlong) as Hg. cbv zeta in Hg.
      unfold MAX_CONTENT_LENGTH in Hg. fold trunc in Hg. fold lp in Hg. fold out in Hg.
      pose proof (rfind_char_range "." trunc) as Hr. fold lp in Hr.
      assert (Hlen : String.length trunc = 1200%nat).
      { unfold trunc. rewrite length_take. lia. }
      rewrite Hlen in Hr.
      split.
      * intros Hlp. apply Z.ltb_lt in Hlp. rewrite Hlp in Hg.
        apply Z.ltb_lt in Hlp.
        split; [exact Hg|]. split; [|split].
        -- rewrite Hg, length_take. lia.
        -- rewrite Hg. rewrite get_take by lia.
           rewrite <- (get_take 1200) by lia. fold trunc.
           apply rfind_char_hit. fold lp. lia.
        -- intros j Hj. apply rfind_char_last. fold lp. lia.
      * intros Hlp. apply Z.ltb_ge in Hlp. rewrite Hlp in Hg.
        split; [exact Hg|]. now rewrite Hg.
Qed.

End LengthGate.

(** ** Sorting and sequencing *)

Section Sorting.

Context {A : Type} (le : A -> A -> bool).

Lemma insert_sorted_perm (x : A) (l : list A) :
  Permutation (insert_sorted le x l) (x :: l).
Proof.
  induction l as [|y l IH]; simpl; auto.
  destruct (le x y); auto.
  rewrite IH. apply perm_swap.
Qed.

Lemma stable_sort_perm (l : list A) : Permutation (stable_sort le l) l.
Proof.
  induction l as [|x l IH]; simpl; auto.
  rewrite insert_sorted_perm. now constructor.
Qed.

Lemma stable_sort_length (l : list A) : length (stable_sort le l) = length l.
Proof. apply Permutation_length, stable_sort_perm. Qed.

End Sorting.

Lemma mapM_length {S A B : Type} (f : A -> MS S B) (l : list A) (st st' : S)
    (out : list B) :
  mapM f l st = (Ok out, st') -> length out = length l.
Proof.
  revert st st' out; induction l as [|a l IH]; intros st st' out; simpl.
  - unfold ret. intros [= <- _]. reflexivity.
  - unfold bind. destruct (f a st) as [[b|e] st1]; [|discriminate].
    destruct (mapM f l st1) as [[bs|e] st2] eqn:E; [|discriminate].
    unfold ret. intros [= <- _]. simpl. f_equal. eapply IH, E.
Qed.

(** ** De-duplication *)

Section Dedup.

Lemma fold_dedup (l : list ResearchItem) (seen : gset string) (acc : list ResearchItem) :
  snd (fold_left dedup_step l (seen, acc)) = (acc ++ dedup_from seen l)%list.
Proof.
  revert seen acc; induction l as [|r l IH]; intros seen acc; simpl.
  - now rewrite app_nil_r.
  - fold (url_key r). destruct (decide (url_key r ∈ seen)); [apply IH|].
    rewrite IH, <- app_assoc. reflexivity.
Qed.

Lemma dedup_unfold (l : list ResearchItem) : _dedup l = dedup_from ∅ l.
Proof. unfold _dedup. now rewrite fold_dedup. Qed.

Lemma dedup_from_sublist (seen : gset string) (l : list ResearchItem) :
  dedup_from seen l `sublist_of` l.
Proof.
  revert seen; induction l as [|r l IH]; intros seen; simpl; [constructor|].
  destruct (decide (url_key r ∈ seen)); [apply sublist_cons | apply sublist_skip]; apply IH.
Qed.

Lemma dedup_from_fresh (seen : gset string) (l : list ResearchItem) (r : ResearchItem) :
  r ∈ dedup_from seen l -> url_key r ∉ seen.
Proof.
  revert seen; induction l as [|x l IH]; intros seen; simpl.
  - intros H. inversion H.
  - destruct (decide (url_key x ∈ seen)); [apply IH|].
    rewrite elem_of_cons. intros [->|H]; [assumption|].
    apply IH in H. set_solver.
Qed.

Lemma dedup_from_nodup (seen : gset string) (l : list ResearchItem) :
  NoDup (map url_key (dedup_from seen l)).
Proof.
  revert seen; induction l as [|x l IH]; intros seen; simpl; [constructor|].
  destruct (decide (url_key x ∈ seen)); [apply IH|].
  simpl. constructor; [|apply IH].
  intros Hin. apply (list_elem_of_fmap url_key) in Hin.
  destruct Hin as [y [Hk Hy]]. apply dedup_from_fresh in Hy.
  rewrite <- Hk in Hy. set_solver.
Qed.

Lemma dedup_from_covers (seen : gset string) (l : list ResearchItem) (r : ResearchItem) :
  r ∈ l -> url_key r ∈ seen \/ exists r', r' ∈ dedup_from seen l /\ url_key r' = url_key r.
Proof.
  revert seen; induction l as [|x l IH]; intros seen; [intros H; inversion H|].
  rewrite elem_of_cons. simpl. intros [->|H].
  - destruct (decide (url_key x ∈ seen)); [now left|].
    right. exists x. split; [left|reflexivity].
  - destruct (decide (url_key x ∈ seen)).
    + apply IH, H.
    + destruct (IH ({[ url_key x ]} ∪ seen) H) as [Hs|[r' [Hr' Hk]]].
      * apply elem_of_union in Hs. destruct Hs as [Hs|Hs]; [|now left].
        apply elem_of_singleton in Hs. right. exists x. split; [left|congruence].
      * right. exists r'. split; [now right|assumption].
Qed.

Lemma dedup_from_first (seen : gset string) (l : list ResearchItem) (r : ResearchItem) :
  r ∈ dedup_from seen l -> first_with (url_key r) l = Some r.
Proof.
  revert seen; induction l as [|x l IH]; intros seen; simpl; [intros H; inversion H|].
  destruct (decide (url_key x ∈ seen)) as [Hx|Hx].
  - intros H. pose proof (dedup_from_fresh _ _ _ H) as Hr.
    destruct (String.eqb_spec (url_key x) (url_key r)) as [Heq|Hne].
    + rewrite Heq in Hx. contradiction.
    + eapply IH, H.
  - rewrite elem_of_cons. intros [->|H].
    + now rewrite String.eqb_refl.
    + pose proof (dedup_from_fresh _ _ _ H) as Hr.
      destruct (String.eqb_spec (url_key x) (url_key r)) as [Heq|Hne].
      * exfalso. apply Hr. rewrite Heq. set_solver.
      * eapply IH, H.
Qed.

Lemma score_and_sort_length (l : list ResearchItem) :
  length (score_and_sort l) = length l.
Proof. unfold score_and_sort. now rewrite stable_sort_length, length_map. Qed.

Lemma extract_contents_length (E : env) (l out : list ResearchItem) (st st' : state) :
  extract_contents E l st = (Ok out, st') -> length out = length l.
Proof.
  unfold extract_contents, bind.
  destruct (mapM _ _ st) as [[u|e] st1]; [|discriminate].
  unfold log_append, ret. intros [= <- _].
  rewrite length_app, length_map, length_firstn, length_skipn. lia.
Qed.

Lemma summarize_all_length (E : env) (l out : list ResearchItem) (st st' : state) :
  summarize_all E l st = (Ok out, st') -> length out = length l.
Proof.
  unfold summarize_all, bind.
  destruct (mapM _ l st) as [[u|e] st1] eqn:Em; [|discriminate].
  unfold log_append, ret. intros [= <- _]. eapply mapM_length, Em.
Qed.

Lemma research_niche_cap (E : env) (niche platform : string) (st st' : state)
    (items : list ResearchItem) :
  research_niche E niche platform st = (Ok (Fresh items), st') ->
  (length items <= 12)%nat.
Proof.
  unfold research_niche, bind.
  destruct (_load_cache E niche platform st) as [[cached|e] st1]; [|discriminate].
  destruct cached as [|c cached].
  2:{ unfold log_append, ret. discriminate. }
  destruct (collect_results E niche platform st1) as [[all|e] st2]; [|discriminate].
  destruct (_dedup all) as [|d ds] eqn:Ed.
  { unfold log_append, ret. intros [= <- _]. simpl. lia. }
  destruct (extract_contents E _ st2) as [[l1|e] st3] eqn:E1; [|discriminate].
  destruct (summarize_all E l1 st3) as [[l2|e] st4] eqn:E2; [|discriminate].
  destruct (_save_cache E niche platform l2 st4) as [[u|e] st5]; [|discriminate].
  unfold ret. intros [= <- _].
  apply summarize_all_length in E2. apply extract_contents_length in E1.
  rewrite E2, E1, score_and_sort_length, length_firstn. lia.
Qed.

Lemma rstrip_by_snoc (p : ascii -> bool) (s : string) (c : ascii) :
  p c = true -> rstrip_by p (s +:+ String c "") = rstrip_by p s.
Proof.
  intros Hc. induction s as [|a s IH].
  - change ("" +:+ String c "") with (String c ""). cbn [rstrip_by]. now rewrite Hc.
  - change (String a s +:+ String c "") with (String a (s +:+ String c "")).
    cbn [rstrip_by]. now rewrite IH.
Qed.

Lemma rstrip_by_lower (p : ascii -> bool) (s : string) :
  (forall c, p (lower_char c) = p c) ->
  rstrip_by p (lower s) = lower (rstrip_by p s).
Proof.
  intros Hp. induction s as [|c s IH]; [reflexivity|].
  cbn [lower rstrip_by]. rewrite IH, Hp.
  destruct (rstrip_by p s) as [|d u]; cbn [lower]; [destruct (p c)|]; reflexivity.
Qed.

Lemma slash_lower_char (c : ascii) :
  has_char (Ascii.eqb (lower_char c)) "/" = has_char (Ascii.eqb c) "/".
Proof. destruct c as [[] [] [] [] [] [] [] []]; reflexivity. Qed.

(** URLs that differ by one trailing slash, or only in the case of their
    letters, have the same normalised form. *)
Lemma norm_url_variants (u v : string) :
  v = u +:+ "/" \/ lower v = lower u -> norm_url v = norm_url u.
Proof.
  unfold norm_url, rstrip_chars. intros [->|H].
  - now rewrite rstrip_by_snoc.
  - rewrite <- !(rstrip_by_lower _ _ slash_lower_char). now rewrite H.
Qed.

Lemma NoDup_map_inj {A B : Type} (f : A -> B) (l : list A) (x y : A) :
  NoDup (map f l) -> x ∈ l -> y ∈ l -> f x = f y -> x = y.
Proof.
  induction l as [|a l IH]; [intros _ H; inversion H|].
  cbn [map]. rewrite NoDup_cons, !elem_of_cons.
  intros [Ha Hl] [->|Hx] [->|Hy] E; auto.
  - exfalso. apply Ha. rewrite E. now apply (list_elem_of_fmap_2 f).
  - exfalso. apply Ha. rewrite <- E. now apply (list_elem_of_fmap_2 f).
Qed.

(** C6. With the key of an entry being its URL without trailing slashes
    and in lower case, de-duplication keeps the kept entries in their
    original order and keeps, among the entries of one key, exactly one:
    no two kept entries share a key, every entry has a kept entry of its
    key, and a kept entry is the first entry of its key.  URLs that
    differ by a trailing slash or in the case of their letters have the
    same key.  The list the research stage builds from the de-duplicated
    results has at most 12 entries. *)
Theorem dedup_first_occurrence_wins (results : list ResearchItem) :
  let key (r : ResearchItem) := lower (rstrip_chars "/" (url r)) in
  _dedup results `sublist_of` results
  /\ NoDup (map key (_dedup results))
  /\ (forall r1 r2, r1 ∈ _dedup results -> r2 ∈ _dedup results ->
        key r1 = key r2 -> r1 = r2)
  /\ (forall r, r ∈ results ->
        exists r', r' ∈ _dedup results /\ key r' = key r)
  /\ (forall r', r' ∈ _dedup results ->
        find (fun x => String.eqb (key x) (key r')) results = Some r')
  /\ (forall r1 r2, url r2 = url r1 +:+ "/" \/ lower (url r2) = lower (url r1) ->
        key r2 = key r1)
  /\ forall E niche platform st st' items,
       research_niche E niche platform st = (Ok (Fresh items), st') ->
       (length items <= 12)%nat.
Proof.
  intros key. change key with url_key. rewrite dedup_unfold.
  split; [apply dedup_from_sublist|].
  split; [apply dedup_from_nodup|].
  split; [intros r1 r2; apply NoDup_map_inj, dedup_from_nodup|].
  split.
  { intros r Hr. destruct (dedup_from_covers ∅ results r Hr) as [H|H]; [set_solver|exact H]. }
  split; [intros r'; apply dedup_from_first|].
  split; [intros r1 r2; apply norm_url_variants|].
  intros E niche platform st st' items. apply research_niche_cap.
Qed.

End Dedup.

(** ** Rationals *)

Section Rationals.

Local Open Scope Q_scope.

Lemma Qltb_lt (x y : Q) : Qltb x y = true <-> x < y.
Proof.
  unfold Qltb. rewrite negb_true_iff. split.
  - intros H. apply Qnot_le_lt. intros Hle. apply Qle_bool_iff in Hle. congruence.
  - intros H. destruct (Qle_bool y x) eqn:E; auto.
    apply Qle_bool_iff in E. exfalso. apply (Qlt_not_le _ _ H E).
Qed.

Lemma Qltb_ge (x y : Q) : Qltb x y = false <-> y <= x.
Proof.
  unfold Qltb. rewrite negb_false_iff. apply Qle_bool_iff.
Qed.

Lemma Zpos_of_nat (d : nat) : (0 < d)%nat -> Z.pos (Pos.of_nat d) = Z.of_nat d.
Proof.
  intros Hd. rewrite <- positive_nat_Z, Nat2Pos.id by lia. reflexivity.
Qed.

Lemma ratio_div (n d : nat) :
  (0 < d)%nat -> ratio n d == inject_Z (Z.of_nat n) / inject_Z (Z.of_nat d).
Proof.
  intros Hd. unfold ratio. rewrite Qmake_Qdiv, Zpos_of_nat by exact Hd. reflexivity.
Qed.

Lemma ratio_unit (n d : nat) : (n <= d)%nat -> (0 < d)%nat -> 0 <= ratio n d <= 1.
Proof.
  intros Hn Hd. unfold ratio, Qle. simpl.
  rewrite Zpos_of_nat by exact Hd. lia.
Qed.

(** [n / d < a / b] on counters, without division. *)
Lemma ratio_lt (n d : nat) (a : Z) (b : positive) :
  (0 < d)%nat -> (ratio n d < a # b <-> (Z.of_nat n * Z.pos b < a * Z.of_nat d)%Z).
Proof.
  intros Hd. unfold ratio, Qlt. simpl.
  rewrite Zpos_of_nat by exact Hd. reflexivity.
Qed.

Lemma round_half_even_range (q : Q) (a b : Z) :
  inject_Z a <= q -> q <= inject_Z b -> (a <= round_half_even q <= b)%Z.
Proof.
  intros Ha Hb. unfold round_half_even.
  pose proof (Qfloor_le q) as Hf. pose proof (Qlt_floor q) as Hc.
  assert (Hfa : (a <= Qfloor q)%Z).
  { rewrite <- (Qfloor_Z a). now apply Qfloor_resp_le. }
  assert (Hfb : (Qfloor q <= b)%Z).
  { rewrite <- (Qfloor_Z b). now apply Qfloor_resp_le. }
  assert (Hstep : 0 < q - inject_Z (Qfloor q) -> (Qfloor q + 1 <= b)%Z).
  { intros Hpos. destruct (Z.eq_dec (Qfloor q) b) as [Heq|Hne]; [|lia].
    exfalso. rewrite Heq in Hpos. lra. }
  destruct (q - inject_Z (Qfloor q) ?= 1 # 2) eqn:Ec.
  - apply Qeq_alt in Ec. destruct (Z.even (Qfloor q)); [lia|].
    split; [lia|]. apply Hstep. lra.
  - lia.
  - apply Qgt_alt in Ec. split; [lia|]. apply Hstep. lra.
Qed.

(** ** Doubles *)

Lemma round_half_even_comp (x y : Q) : x == y -> round_half_even x = round_half_even y.
Proof.
  intros H. unfold round_half_even.
  rewrite (Qfloor_comp x y H).
  assert (E : (x - inject_Z (Qfloor y) ?= 1 # 2) = (y - inject_Z (Qfloor y) ?= 1 # 2)).
  { apply Qcompare_comp; [rewrite H|]; reflexivity. }
  now rewrite E.
Qed.

Lemma round_half_even_Z (n : Z) : round_half_even (inject_Z n) = n.
Proof.
  unfold round_half_even. rewrite Qfloor_Z.
  assert (E : (inject_Z n - inject_Z n ?= 1 # 2) = Lt).
  { apply Qlt_alt. assert (E0 : inject_Z n - inject_Z n == 0) by ring.
    rewrite E0. reflexivity. }
  now rewrite E.
Qed.

Lemma round_half_even_near (x : Q) :
  inject_Z (round_half_even x) - (1 # 2) <= x <= inject_Z (round_half_even x) + (1 # 2).
Proof.
  unfold round_half_even.
  pose proof (Qfloor_le x) as Hf. pose proof (Qlt_floor x) as Hc.
  rewrite inject_Z_plus in Hc. change (inject_Z 1) with 1 in Hc.
  destruct (x - inject_Z (Qfloor x) ?= 1 # 2) eqn:Ec.
  - apply Qeq_alt in Ec. destruct (Z.even (Qfloor x));
      [|rewrite inject_Z_plus; change (inject_Z 1) with 1]; lra.
  - apply Qlt_alt in Ec. lra.
  - apply Qgt_alt in Ec. rewrite inject_Z_plus. change (inject_Z 1) with 1. lra.
Qed.

Lemma round_half_even_mono (x y : Q) : x <= y -> (round_half_even x <= round_half_even y)%Z.
Proof.
  intros Hxy.
  destruct (Z_le_gt_dec (round_half_even x) (round_half_even y)) as [H|H]; [exact H|].
  exfalso.
  assert (H1 : (round_half_even y + 1 <= round_half_even x)%Z) by lia.
  rewrite Zle_Qle, inject_Z_plus in H1. change (inject_Z 1) with 1 in H1.
  pose proof (round_half_even_near x) as [Hx _].
  pose proof (round_half_even_near y) as [_ Hy].
  assert (E : x == y) by lra.
  apply round_half_even_comp in E. lia.
Qed.

Lemma two_neq_0 : ~ 2 == 0.
Proof. discriminate. Qed.

Lemma pow2_pos (e : Z) : 0 < 2 ^ e.
Proof. apply Qpower_0_lt. reflexivity. Qed.

Lemma pow2_add (a b : Z) : 2 ^ (a + b) == 2 ^ a * 2 ^ b.
Proof. apply Qpower_plus, two_neq_0. Qed.

Lemma pow2_le (a b : Z) : (a <= b)%Z -> 2 ^ a <= 2 ^ b.
Proof. intros H. apply Qpower_le_compat_l; [exact H|discriminate]. Qed.

Lemma pow2_Z (n : Z) : (0 <= n)%Z -> 2 ^ n == inject_Z (2 ^ n).
Proof. intros H. now rewrite Zpower_Qpower. Qed.

Lemma Zlog2_Q (n : Z) :
  (0 < n)%Z -> 2 ^ Z.log2 n <= inject_Z n /\ inject_Z n < 2 ^ (Z.log2 n + 1).
Proof.
  intros Hn. pose proof (Z.log2_spec n Hn) as [Hlo Hhi].
  pose proof (Z.log2_nonneg n) as H0.
  rewrite !pow2_Z by lia. rewrite <- Zle_Qle, <- Zlt_Qlt.
  unfold Z.succ in Hhi. lia.
Qed.

(** [ilog2 q] is the binary exponent of a positive [q]. *)
Lemma ilog2_spec (q : Q) : 0 < q -> 2 ^ ilog2 q <= q /\ q < 2 ^ (ilog2 q + 1).
Proof.
  intros Hq. destruct q as [n d].
  assert (Hn : (0 < n)%Z) by (unfold Qlt in Hq; simpl in Hq; lia).
  unfold ilog2. cbn [Qnum Qden].
  destruct (Zlog2_Q n Hn) as [Hn1 Hn2].
  destruct (Zlog2_Q (Z.pos d) (Pos2Z.is_pos d)) as [Hd1 Hd2].
  set (a := Z.log2 n) in *. set (b := Z.log2 (Z.pos d)) in *.
  assert (HD : 0 < inject_Z (Z.pos d)) by reflexivity.
  assert (Eq : n # d == inject_Z n / inject_Z (Z.pos d)) by apply Qmake_Qdiv.
  destruct (Qle_bool (2 ^ (a - b)) (n # d)) eqn:E.
  - apply Qle_bool_iff in E. split; [exact E|].
    rewrite Eq. apply Qlt_shift_div_r; [exact HD|].
    assert (Ep : 2 ^ (a - b + 1) * 2 ^ b == 2 ^ (a + 1)).
    { rewrite <- pow2_add. now replace (a - b + 1 + b)%Z with (a + 1)%Z by lia. }
    pose proof (pow2_pos (a - b + 1)) as Hp.
    apply Qlt_le_trans with (2 ^ (a + 1)); [exact Hn2|].
    rewrite <- Ep. apply Qmult_le_l; assumption.
  - assert (E' : n # d < 2 ^ (a - b)).
    { apply Qnot_le_lt. intros H. apply Qle_bool_iff in H. congruence. }
    split; [|now replace (a - b - 1 + 1)%Z with (a - b)%Z by lia].
    rewrite Eq. apply Qle_shift_div_l; [exact HD|].
    assert (Ep : 2 ^ (a - b - 1) * 2 ^ (b + 1) == 2 ^ a).
    { rewrite <- pow2_add. now replace (a - b - 1 + (b + 1))%Z with a by lia. }
    pose proof (pow2_pos (a - b - 1)) as Hp.
    apply Qle_trans with (2 ^ a); [|exact Hn1].
    rewrite <- Ep. apply Qmult_le_l; [exact Hp|]. now apply Qlt_le_weak.
Qed.

Lemma ulp_pos (q : Q) : 0 < ulp q.
Proof. apply pow2_pos. Qed.

(** The magnitude of [q] against the binade of its exponent. *)
Lemma binade_upper (q : Q) : Qabs q < 2 ^ (exponent q + 1).
Proof.
  unfold exponent.
  destruct (Qlt_le_dec 0 (Qabs q)) as [H|H].
  - destruct (ilog2_spec _ H) as [_ Hu].
    eapply Qlt_le_trans; [exact Hu|]. apply pow2_le. lia.
  - eapply Qle_lt_trans; [exact H|]. apply pow2_pos.
Qed.

Lemma binade_lower (q : Q) :
  ~ q == 0 -> (-1022 < exponent q)%Z -> 2 ^ exponent q <= Qabs q.
Proof.
  intros Hq He. unfold exponent in *.
  assert (H : 0 < Qabs q).
  { destruct (Qlt_le_dec 0 (Qabs q)) as [H|H]; [exact H|].
    exfalso. apply Hq. pose proof (Qabs_nonneg q) as H0.
    apply Qabs_Qle_condition in H. lra. }
  destruct (ilog2_spec _ H) as [Hl _].
  now replace (Z.max (ilog2 (Qabs q)) (-1022)) with (ilog2 (Qabs q)) by lia.
Qed.

Lemma grid_pow2 (e k : Z) : (0 <= k)%Z -> inject_Z (2 ^ k) * 2 ^ (e - 52) == 2 ^ (e - 52 + k).
Proof.
  intros Hk. rewrite <- pow2_Z by exact Hk. rewrite <- pow2_add.
  now replace (k + (e - 52))%Z with (e - 52 + k)%Z by lia.
Qed.

(** [fl q] stays on the side of every multiple of the unit in the last
    place on which [q] lies. *)
Lemma fl_le_grid (q : Q) (m : Z) :
  q <= inject_Z m * ulp q -> fl q <= inject_Z m * ulp q.
Proof.
  intros H. pose proof (ulp_pos q) as Hu. unfold fl.
  apply Qmult_le_compat_r; [|now apply Qlt_le_weak].
  rewrite <- Zle_Qle. rewrite <- (round_half_even_Z m).
  apply round_half_even_mono. apply Qle_shift_div_r; assumption.
Qed.

Lemma fl_ge_grid (q : Q) (m : Z) :
  inject_Z m * ulp q <= q -> inject_Z m * ulp q <= fl q.
Proof.
  intros H. pose proof (ulp_pos q) as Hu. unfold fl.
  apply Qmult_le_compat_r; [|now apply Qlt_le_weak].
  rewrite <- Zle_Qle. rewrite <- (round_half_even_Z m) at 1.
  apply round_half_even_mono. apply Qle_shift_div_l; assumption.
Qed.

(** A multiple of the unit in the last place is a double. *)
Lemma fl_exact (q : Q) (m : Z) : q == inject_Z m * ulp q -> fl q == q.
Proof.
  intros H. apply Qle_antisym.
  - rewrite H at 2. apply fl_le_grid. rewrite <- H. apply Qle_refl.
  - rewrite H at 1. apply fl_ge_grid. rewrite <- H. apply Qle_refl.
Qed.

Lemma fl_nonneg (q : Q) : 0 <= q -> 0 <= fl q.
Proof.
  intros H. assert (E0 : inject_Z 0 * ulp q == 0) by ring.
  rewrite <- E0. apply fl_ge_grid. now rewrite E0.
Qed.

Lemma fl_nonpos (q : Q) : q <= 0 -> fl q <= 0.
Proof.
  intros H. assert (E0 : inject_Z 0 * ulp q == 0) by ring.
  rewrite <- E0. apply fl_le_grid. now rewrite E0.
Qed.

Lemma fl_same_ulp (x y : Q) : ulp x = ulp y -> x <= y -> fl x <= fl y.
Proof.
  intros E H. unfold fl. rewrite E. pose proof (ulp_pos y) as Hu.
  apply Qmult_le_compat_r; [|now apply Qlt_le_weak].
  rewrite <- Zle_Qle. apply round_half_even_mono.
  apply Qmult_le_compat_r; [exact H|]. apply Qlt_le_weak, Qinv_lt_0_compat, Hu.
Qed.

Lemma pow2_grid52 (q : Q) : 2 ^ exponent q == inject_Z (2 ^ 52) * ulp q.
Proof.
  unfold ulp. rewrite grid_pow2 by lia.
  now replace (exponent q - 52 + 52)%Z with (exponent q) by lia.
Qed.

Lemma pow2_grid53 (q : Q) : 2 ^ (exponent q + 1) == inject_Z (2 ^ 53) * ulp q.
Proof.
  unfold ulp. rewrite grid_pow2 by lia.
  now replace (exponent q - 52 + 53)%Z with (exponent q + 1)%Z by lia.
Qed.

Lemma opp_grid (m : Z) (u : Q) : - (inject_Z m * u) == inject_Z (- m) * u.
Proof. rewrite inject_Z_opp. ring. Qed.

(** Rounding to a double keeps the order. *)
Lemma fl_mono (x y : Q) : x <= y -> fl x <= fl y.
Proof.
  intros Hxy.
  destruct (Qlt_le_dec 0 x) as [Hx|Hx].
  - (* both positive *)
    assert (Hy : 0 < y) by lra.
    assert (Ax : Qabs x == x) by (apply Qabs_pos; lra).
    assert (Ay : Qabs y == y) by (apply Qabs_pos; lra).
    pose proof (binade_upper x) as Ux. pose proof (binade_upper y) as Uy.
    rewrite Ax in Ux. rewrite Ay in Uy.
    destruct (Z.lt_trichotomy (exponent x) (exponent y)) as [L|[E|G]].
    + assert (Ly : 2 ^ exponent y <= y).
      { assert (B : 2 ^ exponent y <= Qabs y)
          by (apply binade_lower; [lra|unfold exponent in *; lia]).
        now rewrite Ay in B. }
      apply Qle_trans with (2 ^ (exponent x + 1)).
      * rewrite pow2_grid53. apply fl_le_grid. rewrite <- pow2_grid53. lra.
      * apply Qle_trans with (2 ^ exponent y); [apply pow2_le; lia|].
        rewrite pow2_grid52. apply fl_ge_grid. rewrite <- pow2_grid52. exact Ly.
    + apply fl_same_ulp; [unfold ulp; now rewrite E|exact Hxy].
    + exfalso.
      assert (Lx : 2 ^ exponent x <= x).
      { assert (B : 2 ^ exponent x <= Qabs x)
          by (apply binade_lower; [lra|unfold exponent in *; lia]).
        now rewrite Ax in B. }
      assert (P : 2 ^ (exponent y + 1) <= 2 ^ exponent x) by (apply pow2_le; lia).
      lra.
  - destruct (Qlt_le_dec y 0) as [Hy|Hy].
    + (* both negative *)
      assert (Ax : Qabs x == - x) by (apply Qabs_neg; lra).
      assert (Ay : Qabs y == - y) by (apply Qabs_neg; lra).
      pose proof (binade_upper x) as Ux. pose proof (binade_upper y) as Uy.
      rewrite Ax in Ux. rewrite Ay in Uy.
      destruct (Z.lt_trichotomy (exponent x) (exponent y)) as [L|[E|G]].
      * exfalso.
        assert (Ly : 2 ^ exponent y <= - y).
        { assert (B : 2 ^ exponent y <= Qabs y)
          by (apply binade_lower; [lra|unfold exponent in *; lia]).
        now rewrite Ay in B. }
        assert (P : 2 ^ (exponent x + 1) <= 2 ^ exponent y) by (apply pow2_le; lia).
        lra.
      * apply fl_same_ulp; [unfold ulp; now rewrite E|exact Hxy].
      * assert (Lx : 2 ^ exponent x <= - x).
        { assert (B : 2 ^ exponent x <= Qabs x)
          by (apply binade_lower; [lra|unfold exponent in *; lia]).
        now rewrite Ax in B. }
        apply Qle_trans with (- 2 ^ exponent x).
        -- rewrite pow2_grid52, opp_grid. apply fl_le_grid.
           rewrite <- opp_grid, <- pow2_grid52. lra.
        -- apply Qle_trans with (- 2 ^ (exponent y + 1)).
           ++ assert (P : 2 ^ (exponent y + 1) <= 2 ^ exponent x) by (apply pow2_le; lia).
              lra.
           ++ rewrite pow2_grid53, opp_grid. apply fl_ge_grid.
              rewrite <- opp_grid, <- pow2_grid53. lra.
    + apply Qle_trans with 0; [now apply fl_nonpos|now apply fl_nonneg].
Qed.

Lemma exponent_Z (n : Z) : (n <> 0)%Z -> exponent (inject_Z n) = Z.log2 (Z.abs n).
Proof.
  intros Hn. unfold exponent, ilog2.
  change (Qabs (inject_Z n)) with (Z.abs n # 1). cbn [Qnum Qden].
  change (Z.log2 1) with 0%Z. rewrite Z.sub_0_r.
  destruct (Zlog2_Q (Z.abs n)) as [Hl _]; [lia|].
  apply Qle_bool_iff in Hl. change (Z.abs n # 1) with (inject_Z (Z.abs n)).
  rewrite Hl. pose proof (Z.log2_nonneg (Z.abs n)). lia.
Qed.

(** Integers up to 2^53 in magnitude are doubles. *)
Lemma fl_Z (n : Z) : (Z.abs n <= 2 ^ 53)%Z -> fl (inject_Z n) == inject_Z n.
Proof.
  intros Hn. destruct (Z.eq_dec n 0%Z) as [->|Hz].
  { apply Qle_antisym; [apply fl_nonpos|apply fl_nonneg]; apply Qle_refl. }
  pose proof (exponent_Z n Hz) as He.
  assert (Hp : (0 < Z.abs n)%Z) by lia.
  pose proof (Z.log2_spec _ Hp) as [Hlo Hhi]. pose proof (Z.log2_nonneg (Z.abs n)) as H0.
  assert (Hle : (Z.log2 (Z.abs n) <= 53)%Z).
  { rewrite <- (Z.log2_pow2 53) by lia. now apply Z.log2_le_mono. }
  destruct (Z.eq_dec (Z.log2 (Z.abs n)) 53%Z) as [E53|N53].
  - rewrite E53 in *.
    assert (Habs : Z.abs n = (2 ^ 53)%Z) by lia.
    apply (fl_exact _ (n / 2)). unfold ulp. rewrite He. 
    change (2 ^ (53 - 52)) with 2.
    assert (En : n = (2 * (n / 2))%Z).
    { destruct (Z.abs_spec n) as [[_ E]|[_ E]]; rewrite Habs in E.
      - rewrite <- E. reflexivity.
      - assert (n = (- 2 ^ 53)%Z) as -> by lia. reflexivity. }
    rewrite En at 1. rewrite inject_Z_mult. change (inject_Z 2) with 2. ring.
  - set (e := Z.log2 (Z.abs n)) in *.
    apply (fl_exact _ (n * 2 ^ (52 - e))). unfold ulp. rewrite He. fold e.
    rewrite inject_Z_mult, <- pow2_Z by lia.
    rewrite <- Qmult_assoc, <- pow2_add.
    replace (52 - e + (e - 52))%Z with 0%Z by lia.
    change (2 ^ 0) with 1. ring.
Qed.

(** The rounding error of a double is at most half a unit in the last
    place, which for a normal number is at most its magnitude over
    2^53. *)
Lemma fl_error (q : Q) : Qabs (fl q - q) <= ulp q * (1 # 2).
Proof.
  pose proof (ulp_pos q) as Hu.
  pose proof (round_half_even_near (q / ulp q)) as [Hlo Hhi].
  assert (Eq : q == q / ulp q * ulp q).
  { field. intros H. rewrite H in Hu. discriminate. }
  unfold fl. apply Qabs_Qle_condition.
  set (m := inject_Z (round_half_even (q / ulp q))) in *.
  set (t := q / ulp q) in *. set (u := ulp q) in *.
  assert (H1 : (m - t) * u <= (1 # 2) * u)
    by (apply Qmult_le_compat_r; [lra|now apply Qlt_le_weak]).
  assert (H2 : - (1 # 2) * u <= (m - t) * u)
    by (apply Qmult_le_compat_r; [lra|now apply Qlt_le_weak]).
  assert (E : m * u - q == (m - t) * u) by (rewrite Eq at 1; ring).
  rewrite E. split; lra.
Qed.

Lemma ulp_normal (q : Q) : 2 ^ (-1022) <= Qabs q -> ulp q <= Qabs q * 2 ^ (-52).
Proof.
  intros Hn. pose proof (binade_upper q) as Hu.
  assert (He : (-1022 <= exponent q)%Z) by (unfold exponent; lia).
  assert (Hq : 2 ^ exponent q <= Qabs q).
  { destruct (Z.eq_dec (exponent q) (-1022)%Z) as [E|N]; [now rewrite E|].
    apply binade_lower; [|lia].
    intros H0. rewrite H0 in Hn. vm_compute in Hn. now apply Hn. }
  unfold ulp. replace (exponent q - 52)%Z with (exponent q + -52)%Z by lia.
  rewrite pow2_add. apply Qmult_le_compat_r; [exact Hq|].
  apply Qlt_le_weak, pow2_pos.
Qed.

Lemma fl_range (q : Q) (a b : Z) :
  (Z.abs a <= 2 ^ 53)%Z -> (Z.abs b <= 2 ^ 53)%Z ->
  inject_Z a <= q -> q <= inject_Z b -> inject_Z a <= fl q <= inject_Z b.
Proof.
  intros Ba Bb Ha Hb. split.
  - rewrite <- (fl_Z a Ba). now apply fl_mono.
  - rewrite <- (fl_Z b Bb). now apply fl_mono.
Qed.

(** Rounding to decimals keeps a float between integer bounds that are
    doubles. *)
Lemma py_round_range (digits : nat) (q : Q) (a b : Z) :
  (Z.abs a <= 2 ^ 53)%Z -> (Z.abs b <= 2 ^ 53)%Z ->
  inject_Z a <= q -> q <= inject_Z b ->
  inject_Z a <= py_round digits q <= inject_Z b.
Proof.
  intros Ba Bb Ha Hb. destruct (fl_range q a b Ba Bb Ha Hb) as [Fa Fb].
  unfold py_round.
  set (scale := (10 ^ Z.of_nat digits)%Z).
  assert (Hs : (0 < scale)%Z) by (apply Z.pow_pos_nonneg; lia).
  assert (Hsq : 0 < inject_Z scale) by (unfold Qlt; simpl; lia).
  destruct (round_half_even_range (fl q * inject_Z scale) (a * scale) (b * scale)) as [Hlo Hhi].
  - rewrite inject_Z_mult. apply Qmult_le_compat_r; [exact Fa|now apply Qlt_le_weak].
  - rewrite inject_Z_mult. apply Qmult_le_compat_r; [exact Fb|now apply Qlt_le_weak].
  - unfold Qle. simpl. rewrite Z2Pos.id by exact Hs. lia.
Qed.

(** Rounding to three decimals gives a number of thousandths that is
    within half a thousandth of the double. *)
Lemma py_round3_near (q : Q) :
  exists k : Z, py_round 3 q = k # 1000 /\ Qabs (py_round 3 q - fl q) <= 1 # 2000.
Proof.
  unfold py_round. change (10 ^ Z.of_nat 3)%Z with 1000%Z.
  change (Z.to_pos 1000) with 1000%positive.
  set (r := round_half_even (fl q * inject_Z 1000)).
  exists r. split; [reflexivity|].
  pose proof (round_half_even_near (fl q * inject_Z 1000)) as [Hlo Hhi]. fold r in Hlo, Hhi.
  change (inject_Z 1000) with 1000 in Hlo, Hhi.
  assert (E : r # 1000 == inject_Z r * (1 # 1000)) by (unfold Qeq; simpl; lia).
  apply Qabs_Qle_condition. rewrite E. split; lra.
Qed.

Lemma py_round3_unit (q : Q) : 0 <= q <= 1 -> 0 <= py_round 3 q <= 1.
Proof.
  intros [H0 H1]. apply (py_round_range 3 q 0 1); [lia|lia|exact H0|exact H1].
Qed.

End Rationals.

(** ** Gap detection *)

Section Gaps.

Import Intel.
Local Open Scope Q_scope.

Lemma count_if_le {A : Type} (p : A -> bool) (l : list A) :
  (count_if p l <= length l)%nat.
Proof.
  unfold count_if. induction l as [|x l IH]; simpl; auto.
  destruct (p x); simpl; lia.
Qed.

Lemma coverage_formula (corpus sd : string) :
  coverage corpus sd
  == inject_Z (Z.of_nat (gap_matches corpus sd))
     / inject_Z (Z.of_nat (length (gap_words sd))).
Proof.
  unfold coverage. destruct (gap_words sd) as [|w words] eqn:E.
  - simpl. unfold Qdiv, Qinv. simpl. ring.
  - apply ratio_div. simpl. lia.
Qed.

Lemma coverage_unit (corpus sd : string) : 0 <= coverage corpus sd <= 1.
Proof.
  unfold coverage. pose proof (count_if_le (fun w => contains w corpus) (gap_words sd)) as H.
  fold (gap_matches corpus sd) in H.
  destruct (gap_words sd) as [|w words] eqn:E.
  - split; discriminate.
  - apply ratio_unit; [exact H | simpl; lia].
Qed.

(** The subdomain "go to market now" has two content words, one of which
    occurs in the corpus: the code reports coverage 1/2 and no gap, where
    the ratio over all four words is 1/4, below the threshold. *)
Lemma keyword_gaps_total_words_cex :
  let research_data := [mkItem "Market report" "" "http://a.example" "" 0%Z ""] in
  let sd := "go to market now" in
  exists g : GapResult,
    _keyword_gaps research_data [sd] = [g]
    /\ length (split sd) = 4%nat
    /\ gap_matches (corpus_of research_data) sd = 1%nat
    /\ spec_coverage (corpus_of research_data) sd == 1 # 4
    /\ similarity g == 1 # 2
    /\ ~ similarity g == spec_coverage (corpus_of research_data) sd
    /\ spec_coverage (corpus_of research_data) sd < 3 # 10
    /\ is_gap g = false.
Proof.
  intros research_data sd.
  exists (mkGap "go to market now" (500 # 1000) false "keyword").
  repeat split; try (vm_compute; reflexivity).
  vm_compute. discriminate.
Qed.

(** C1 (amended). Gap detection gives every subdomain one entry.  Its
    coverage is the number of the subdomain's lower-cased words of more
    than 2 characters that occur as substrings of the corpus (the
    lower-cased title, snippet, content and summary of every item),
    divided by the number of those words of more than 2 characters, and 0
    when there is none; [similarity] is that coverage, as a float,
    rounded to 3 decimals: a number of thousandths within half a
    thousandth of the float, which lies in [0, 1]; [is_gap] holds exactly
    when the coverage is below 0.3. *)
Theorem keyword_gaps_coverage (research_data : list ResearchItem)
    (subdomains : list string) :
  let corpus := corpus_of research_data in
  Permutation (_keyword_gaps research_data subdomains)
              (map (gap_entry corpus) subdomains)
  /\ forall sd : string,
       let g := gap_entry corpus sd in
       let words := map lower (List.filter (fun w => (2 <? String.length w)%nat) (split sd)) in
       let matches := count_if (fun w => contains w corpus) words in
       subdomain g = sd
       /\ coverage corpus sd
          == inject_Z (Z.of_nat matches) / inject_Z (Z.of_nat (length words))
       /\ (words = [] -> coverage corpus sd == 0)
       /\ 0 <= coverage corpus sd <= 1
       /\ similarity g = py_round 3 (coverage corpus sd)
       /\ (exists k : Z,
             similarity g = k # 1000
             /\ Qabs (similarity g - fl (coverage corpus sd)) <= 1 # 2000)
       /\ 0 <= similarity g <= 1
       /\ (is_gap g = true <-> coverage corpus sd < 3 # 10).
Proof.
  intros corpus. split.
  - unfold _keyword_gaps. apply stable_sort_perm.
  - intros sd g words matches. repeat split.
    + apply coverage_formula.
    + intros Hw. unfold coverage. fold words. unfold gap_words. fold words.
      rewrite Hw. reflexivity.
    + apply coverage_unit.
    + apply coverage_unit.
    + apply py_round3_near.
    + apply py_round3_unit, coverage_unit.
    + apply py_round3_unit, coverage_unit.
    + apply Qltb_lt.
    + apply Qltb_lt.
Qed.

End Gaps.

(** ** Structural saturation *)

Section SaturationFacts.

Import Intel.
Local Open Scope Q_scope.

Lemma pct_above_50 (a d : nat) :
  (0 < d)%nat -> (50 < ratio a d * 100 <-> (d < 2 * a)%nat).
Proof.
  intros Hd. unfold Qlt, Qmult, ratio. simpl.
  rewrite Pos.mul_1_r, Zpos_of_nat by exact Hd. lia.
Qed.

Lemma share_above (n k : nat) (a : Z) (b : positive) :
  inject_Z (Z.of_nat n) * (a # b) < inject_Z (Z.of_nat k)
  <-> (a * Z.of_nat n < Z.pos b * Z.of_nat k)%Z.
Proof. unfold Qlt, Qmult, inject_Z. simpl. lia. Qed.

Lemma py_max_above (x a b : Q) : x < py_max a b <-> x < a \/ x < b.
Proof.
  unfold py_max. destruct (Qltb a b) eqn:E.
  - apply Qltb_lt in E. split; [auto|]. intros [H|H]; lra.
  - apply Qltb_ge in E. split; [auto|]. intros [H|H]; lra.
Qed.

Lemma content_list_le_samples (rd : list ResearchItem) :
  (content_list_count_of rd <= samples_text_of rd)%nat.
Proof.
  unfold content_list_count_of, samples_text_of, count_if.
  induction rd as [|s rd IH]; simpl; auto.
  destruct (truthy (body_text s)); simpl; [|exact IH].
  destruct (Re.found content_list_re (body_text s)); simpl; lia.
Qed.

Lemma listicle_test (rd : list ResearchItem) :
  rd <> [] ->
  (Qltb 50 (py_max (t_pct_of rd) (c_pct_of rd)) = true
   <-> (length rd < 2 * list_count_of rd)%nat
       \/ (samples_text_of rd < 2 * content_list_count_of rd)%nat).
Proof.
  intros Hne. rewrite Qltb_lt, py_max_above.
  assert (Hn : (0 < length rd)%nat) by (destruct rd; simpl; [congruence|lia]).
  unfold t_pct_of. rewrite (pct_above_50 _ _ Hn).
  unfold c_pct_of. pose proof (content_list_le_samples rd) as Hle.
  destruct (samples_text_of rd =? 0)%nat eqn:Em.
  - apply Nat.eqb_eq in Em. split; intros [H|H]; auto.
    + exfalso. revert H. apply Qle_not_lt. discriminate.
    + lia.
  - apply Nat.eqb_neq in Em. rewrite pct_above_50 by lia. reflexivity.
Qed.

(** Exactly half of the titles match the list patterns, which is at least
    50%: the code reports "Mixed formats" and no saturation. *)
Lemma saturation_half_cex :
  let research_data := [stub "Top tools" "" "http://a.example";
                        stub "Quiet notes" "" "http://b.example"] in
  length research_data = 2%nat
  /\ list_count_of research_data = 1%nat
  /\ t_pct_of research_data == 50
  /\ dominant_format (analyze_structural_saturation research_data) = "Mixed formats"
  /\ dominant_format (analyze_structural_saturation research_data)
     <> "Listicle saturation"
  /\ is_saturated (analyze_structural_saturation research_data) = false.
Proof.
  intros research_data. repeat split; try (vm_compute; reflexivity).
  vm_compute. discriminate.
Qed.

(** C8 (amended). For every non-empty corpus the dominant format is
    "Listicle saturation" when more than 50% of the titles/snippets match
    the list patterns or more than 50% of the items with a non-empty body
    (summary, else content) match the content-list patterns; otherwise
    "Guide/tutorial heavy" when more than 40% of the titles/snippets match
    the guide patterns; otherwise "Comparison heavy" when more than 30%
    match the comparison patterns; otherwise "Mixed formats"; and
    [is_saturated] is set exactly in the listicle case. *)
Theorem saturation_dominant_format (research_data : list ResearchItem) :
  research_data <> [] ->
  let n := length research_data in
  let listicle :=
    (n < 2 * list_count_of research_data)%nat
    \/ (samples_text_of research_data < 2 * content_list_count_of research_data)%nat in
  let guide := (4 * n < 10 * guide_count_of research_data)%nat in
  let comparison := (3 * n < 10 * comparison_count_of research_data)%nat in
  let report := analyze_structural_saturation research_data in
  (listicle -> dominant_format report = "Listicle saturation")
  /\ (~ listicle -> guide -> dominant_format report = "Guide/tutorial heavy")
  /\ (~ listicle -> ~ guide -> comparison -> dominant_format report = "Comparison heavy")
  /\ (~ listicle -> ~ guide -> ~ comparison -> dominant_format report = "Mixed formats")
  /\ (is_saturated report = true <-> listicle)
  /\ (is_saturated report = true <-> dominant_format report = "Listicle saturation").
Proof.
  intros Hne n listicle guide comparison report.
  pose proof (listicle_test research_data Hne) as HL.
  assert (Hn : (length research_data =? 0)%nat = false).
  { apply Nat.eqb_neq. destruct research_data; simpl; congruence. }
  assert (HG : Qltb (inject_Z (Z.of_nat n) * (4 # 10))
                    (inject_Z (Z.of_nat (guide_count_of research_data))) = true
               <-> guide).
  { rewrite Qltb_lt, share_above. unfold guide. lia. }
  assert (HC : Qltb (inject_Z (Z.of_nat n) * (3 # 10))
                    (inject_Z (Z.of_nat (comparison_count_of research_data))) = true
               <-> comparison).
  { rewrite Qltb_lt, share_above. unfold comparison. lia. }
  unfold report, analyze_structural_saturation. rewrite Hn. cbn [dominant_format is_saturated].
  fold n.
  destruct (Qltb 50 (py_max (t_pct_of research_data) (c_pct_of research_data))) eqn:EL;
    [assert (HLt : listicle) by (apply HL; reflexivity)
    |assert (HLf : ~ listicle) by (intros X; apply HL in X; discriminate)].
  - repeat split; auto; try tauto.
  - destruct (Qltb (inject_Z (Z.of_nat n) * (4 # 10)) _) eqn:EG;
      [assert (HGt : guide) by (apply HG; reflexivity)
      |assert (HGf : ~ guide) by (intros X; apply HG in X; discriminate)].
    + repeat split; try tauto; try discriminate.
    + destruct (Qltb (inject_Z (Z.of_nat n) * (3 # 10)) _) eqn:EC;
        [assert (HCt : comparison) by (apply HC; reflexivity)
        |assert (HCf : ~ comparison) by (intros X; apply HC in X; discriminate)];
        repeat split; try tauto; try discriminate.
Qed.

End SaturationFacts.

(** ** Two-pass strategy generation *)

Section TwoPass.

Import Strategy.

Lemma strip_nonempty (s : string) : (0 < String.length (strip s))%nat -> s <> "".
Proof. intros H ->. simpl in H. lia. Qed.

Lemma truthy_true (s : string) : s <> "" -> truthy s = true.
Proof. destruct s; [congruence|reflexivity]. Qed.

(** A rewrite of exactly half the draft's length is at least half as long,
    and the draft is kept. *)
Lemma refine_exactly_half_cex :
  let E := with_strategy_replies (Ok draft100) (Ok rewrite50) in
  String.length draft100 = 100%nat
  /\ String.length rewrite50 = 50%nat
  /\ match generate_strategy E empty_state with
     | (Ok sections, st') =>
         sections !! "_raw" = Some draft100
         /\ sections !! "_raw" <> Some rewrite50
         /\ last (st_log st') = Some "Pass 2 too short. Using Pass 1."
     | (Raise _, _) => False
     end.
Proof.
  intros E. split; [reflexivity|]. split; [reflexivity|].
  vm_compute. repeat split; try reflexivity. discriminate.
Qed.

(** C2 (amended). When the draft is accepted and the refine call returns a
    non-empty text, the refined text becomes the final strategy if and
    only if its length once surrounding whitespace is stripped is strictly
    greater than half the draft's length; otherwise, also at exactly half,
    the draft is kept and the skip is logged. *)
Theorem refine_replaces_draft (E : env) (raw refined : string) (st : state) :
  reply_draft E = Ok raw ->
  (100 <= String.length (strip raw))%nat ->
  reply_refine E = Ok refined ->
  refined <> "" ->
  exists (sections : gmap string string) (st' : state),
    generate_strategy E st = (Ok sections, st')
    /\ sections !! "_pass1" = Some raw
    /\ ((String.length raw < 2 * String.length (strip refined))%nat ->
        sections !! "_raw" = Some refined
        /\ last (st_log st')
           = Some ("Pass 2: " +:+ fmt_nat (String.length refined) +:+ " chars (refined)."))
    /\ ((2 * String.length (strip refined) <= String.length raw)%nat ->
        sections !! "_raw" = Some raw
        /\ last (st_log st') = Some "Pass 2 too short. Using Pass 1.").
Proof.
  intros Hdraft Hlen Hrefine Hne.
  assert (Hraw : truthy raw = true) by (apply truthy_true, strip_nonempty; lia).
  assert (Hshort : (String.length (strip raw) <? 100)%nat = false)
    by (apply Nat.ltb_ge; exact Hlen).
  unfold generate_strategy, refine_pass, try_except, bind, log_append, emit, call, ret.
  cbn [st_log st_fs st_events st_ticks].
  rewrite Hdraft, Hraw, Hshort. cbn [negb orb].
  cbn [st_log st_fs st_events st_ticks].
  rewrite Hrefine, (truthy_true _ Hne). cbn [andb].
  destruct (String.length raw <? 2 * String.length (strip refined))%nat eqn:Ecmp;
    cbn [st_log st_fs st_events st_ticks].
  - apply Nat.ltb_lt in Ecmp. eexists _, _. split; [reflexivity|].
    split; [apply lookup_insert_eq|]. split.
    + intros _. split.
      * rewrite lookup_insert_ne by discriminate. apply lookup_insert_eq.
      * cbn [st_log]. apply last_snoc.
    + intros Hle. lia.
  - apply Nat.ltb_ge in Ecmp. eexists _, _. split; [reflexivity|].
    split; [apply lookup_insert_eq|]. split.
    + intros Hlt. lia.
    + intros _. split.
      * rewrite lookup_insert_ne by discriminate. apply lookup_insert_eq.
      * cbn [st_log]. apply last_snoc.
Qed.

End TwoPass.

(** ** Section splitting *)

Section Sections.

Import Strategy.

Lemma insert_sorted_sorted (x : boundary) (l : list boundary) :
  StronglySorted (fun a b => (b_start a <= b_start b)%nat) l ->
  StronglySorted (fun a b => (b_start a <= b_start b)%nat) (insert_sorted by_start x l).
Proof.
  induction 1 as [|y l Hs IH Hy]; simpl.
  - repeat constructor.
  - unfold by_start at 1. destruct (b_start x <=? b_start y)%nat eqn:E.
    + apply Nat.leb_le in E. constructor; [constructor; assumption|].
      constructor; [exact E|].
      eapply Forall_impl; [exact Hy|]. simpl. intros a Ha. lia.
    + apply Nat.leb_gt in E. constructor; [exact IH|].
      eapply Permutation_Forall; [symmetry; apply insert_sorted_perm|].
      constructor; [lia|exact Hy].
Qed.

Lemma stable_sort_by_start_sorted (l : list boundary) :
  StronglySorted (fun a b => (b_start a <= b_start b)%nat) (stable_sort by_start l).
Proof.
  induction l as [|x l IH]; simpl; [constructor|].
  apply insert_sorted_sorted, IH.
Qed.

Lemma located_keys_sublist (raw : string) (ps : list (string * Re.regex)) :
  map b_key (flat_map (locate raw) ps) `sublist_of` map fst ps.
Proof.
  induction ps as [|p ps IH]; simpl; [constructor|].
  unfold locate at 1. destruct (Re.search (snd p) raw) as [[start stop]|]; simpl.
  - now apply sublist_skip.
  - now apply sublist_cons.
Qed.

Lemma pattern_keys_nodup : NoDup (map fst patterns).
Proof.
  apply (bool_decide_unpack _). vm_compute. exact I.
Qed.

Lemma located_keys_nodup (raw : string) : NoDup (map b_key (boundaries_of raw)).
Proof.
  eapply sublist_NoDup; [apply pattern_keys_nodup|apply located_keys_sublist].
Qed.

Lemma fill_sections_other (raw : string) (bs : list boundary)
    (acc : gmap string string) (k : string) :
  k ∉ map b_key bs -> fill_sections raw bs acc !! k = acc !! k.
Proof.
  revert acc; induction bs as [|b bs IH]; intros acc Hk; simpl; [reflexivity|].
  simpl in Hk. apply not_elem_of_cons in Hk. destruct Hk as [Hne Hk].
  rewrite IH by exact Hk. apply lookup_insert_ne. congruence.
Qed.

Lemma fill_sections_at (raw : string) (bs : list boundary)
    (acc : gmap string string) (i : nat) (b : boundary) :
  NoDup (map b_key bs) ->
  bs !! i = Some b ->
  fill_sections raw bs acc !! b_key b
  = Some (tidy (slice (b_hend b)
                      (match bs !! S i with
                       | Some next => b_start next
                       | None => String.length raw
                       end) raw)).
Proof.
  revert acc i; induction bs as [|x bs IH]; intros acc i Hnd Hi; [discriminate|].
  simpl in Hnd. apply NoDup_cons in Hnd. destruct Hnd as [Hx Hnd].
  destruct i as [|i]; simpl in Hi |- *.
  - injection Hi as ->. rewrite fill_sections_other by exact Hx.
    rewrite lookup_insert_eq. unfold span_end. destruct bs; reflexivity.
  - apply IH; assumption.
Qed.

Lemma fill_sections_keys (raw : string) (bs : list boundary)
    (acc : gmap string string) (k : string) :
  is_Some (fill_sections raw bs acc !! k) <-> k ∈ map b_key bs \/ is_Some (acc !! k).
Proof.
  revert acc; induction bs as [|b bs IH]; intros acc; simpl.
  - split; [auto|]. intros [H|H]; [inversion H|exact H].
  - rewrite IH, elem_of_cons. destruct (decide (k = b_key b)) as [->|Hne].
    + rewrite lookup_insert_eq. split; [auto|]. intros _. right. eauto.
    + rewrite lookup_insert_ne by congruence. tauto.
Qed.

Lemma fill_sections_values (raw : string) (bs : list boundary)
    (acc : gmap string string) (k text : string) :
  fill_sections raw bs acc !! k = Some text ->
  (exists span, text = tidy span) \/ acc !! k = Some text.
Proof.
  revert acc; induction bs as [|b bs IH]; intros acc; simpl; [auto|].
  intros H. destruct (IH _ H) as [Ht|Ha]; [now left|].
  destruct (decide (k = b_key b)) as [->|Hne].
  - rewrite lookup_insert_eq in Ha. injection Ha as <-. left. eauto.
  - rewrite lookup_insert_ne in Ha by congruence. now right.
Qed.

(** Surrounding blanks and a leading colon are removed from a section:
    its text is not the span between the headers. *)
Lemma split_sections_raw_span_cex :
  let raw := "STRATEGIC POSITIONING: bold CONTENT PILLARS: three OPTIMIZED HOOKS: ten" in
  stable_sort by_start (boundaries_of raw)
  = [(0, "positioning", 21); (28, "pillars", 43); (51, "hooks", 66)]%nat
  /\ slice 21 28 raw = ": bold "
  /\ _split_sections raw !! "positioning" = Some "bold"
  /\ _split_sections raw !! "positioning" <> Some (slice 21 28 raw).
Proof.
  intros raw. repeat split; try (vm_compute; reflexivity).
  vm_compute. discriminate.
Qed.

(** C9 (amended). Section splitting locates each of the six headers by a
    pattern search.  With fewer than 3 located headers the whole text is
    returned under the single key "full_strategy".  With at least 3, the
    located headers are taken in the order of their positions and the
    result has exactly their keys; the text of each is the span from the
    end of its header match to the start of the next located header (the
    end of the text for the last one), with surrounding whitespace
    stripped, then leading ':' and '-' characters removed, then
    whitespace stripped again, so that no section text begins or ends
    with whitespace. *)
Theorem split_sections_spans (raw : string) :
  let located := boundaries_of raw in
  let ordered := stable_sort by_start located in
  (forall b, b ∈ located <->
     exists p, p ∈ patterns /\ Re.search (snd p) raw = Some (b_start b, b_hend b)
               /\ b_key b = fst p)
  /\ ((length located < 3)%nat -> _split_sections raw = {[ "full_strategy" := raw ]})
  /\ ((3 <= length located)%nat ->
      Permutation ordered located
      /\ StronglySorted (fun a b => (b_start a <= b_start b)%nat) ordered
      /\ (forall k, is_Some (_split_sections raw !! k) <-> k ∈ map b_key located)
      /\ (forall i b,
           ordered !! i = Some b ->
           _split_sections raw !! b_key b
           = Some (strip (lstrip_chars ":-" (strip
                     (slice (b_hend b)
                            (match ordered !! S i with
                             | Some next => b_start next
                             | None => String.length raw
                             end) raw)))))
      /\ forall k text, _split_sections raw !! k = Some text -> no_outer_blank text).
Proof.
  intros located ordered. split; [|split].
  - intros b. unfold located, boundaries_of. rewrite list_elem_of_In, in_flat_map.
    split.
    + intros [p [Hp Hb]]. exists p. split; [now apply list_elem_of_In|].
      unfold locate in Hb. destruct (Re.search (snd p) raw) as [[start stop]|]; [|inversion Hb].
      destruct Hb as [<-|[]]. auto.
    + intros [p [Hp [Hs Hk]]]. exists p. split; [now apply list_elem_of_In|].
      unfold locate. rewrite Hs. left. destruct b as [[s k] e].
      unfold b_start, b_key, b_hend in *. simpl in *. now subst.
  - intros Hlt. unfold _split_sections. fold located.
    apply Nat.ltb_lt in Hlt. now rewrite Hlt.
  - intros Hge. unfold _split_sections. fold located. fold ordered.
    apply Nat.ltb_ge in Hge. rewrite Hge.
    assert (Hperm : Permutation ordered located) by apply stable_sort_perm.
    assert (Hkeys : map b_key ordered ≡ₚ map b_key located)
      by (apply Permutation_map; exact Hperm).
    assert (Hnd : NoDup (map b_key ordered)).
    { rewrite Hkeys. apply located_keys_nodup. }
    split; [exact Hperm|]. split; [apply stable_sort_by_start_sorted|]. split.
    + intros k. rewrite fill_sections_keys, lookup_empty, <- Hkeys. split; [|auto].
      intros [H|[x H]]; [exact H|discriminate].
    + split; [intros i b Hi; apply fill_sections_at; assumption|].
      intros k text Hk. destruct (fill_sections_values _ _ _ _ _ Hk) as [[span ->]|Ha].
      * apply strip_no_outer_blank.
      * rewrite lookup_empty in Ha. discriminate.
Qed.

End Sections.

(** ** The cache *)

Section Cache.

Local Open Scope Q_scope.

Lemma item_json_roundtrip (d : ResearchItem) : item_of_json (item_json d) = Some d.
Proof. destruct d. reflexivity. Qed.

Lemma items_json_roundtrip (data : list ResearchItem) :
  items_of_json (map item_json data) = Some data.
Proof.
  induction data as [|d data IH]; [reflexivity|].
  cbn [map items_of_json]. now rewrite item_json_roundtrip, IH.
Qed.

(** No entry for the key: a miss. *)
Lemma load_cache_missing (E : env) (niche platform : string) (st : state) :
  st_fs st !! _cache_path E niche platform = None ->
  _load_cache E niche platform st = (Ok [], st).
Proof. intros H. unfold _load_cache. now rewrite H. Qed.

(** An entry older than 24 hours: a miss, whatever the file holds. *)
Lemma load_cache_expired (E : env) (niche platform : string) (st : state) (f : file) :
  st_fs st !! _cache_path E niche platform = Some f ->
  24 * 3600 < time_at E (st_ticks st) - mtime f ->
  fst (_load_cache E niche platform st) = Ok [].
Proof.
  intros H Hage. unfold _load_cache. rewrite H. unfold bind, clock.
  assert (Hb : Qltb CACHE_MAX_AGE_HOURS ((time_at E (st_ticks st) - mtime f) / 3600) = true).
  { apply Qltb_lt. unfold CACHE_MAX_AGE_HOURS.
    apply Qlt_shift_div_l; [reflexivity|]. exact Hage. }
  now rewrite Hb.
Qed.

(** A fresh entry that cannot be opened, or whose text is not JSON: a miss. *)
Lemma load_cache_unusable (E : env) (niche platform : string) (st : state) (f : file) :
  st_fs st !! _cache_path E niche platform = Some f ->
  readable f = false \/ body f = NotJson ->
  fst (_load_cache E niche platform st) = Ok [].
Proof.
  intros H Hbad. unfold _load_cache. rewrite H. unfold bind, clock.
  destruct (Qltb _ _); [reflexivity|].
  destruct Hbad as [Hr|Hb].
  - now rewrite Hr.
  - destruct (readable f); [|reflexivity]. now rewrite Hb.
Qed.

(** Loading after a successful save, within the window, gives back the
    saved items. *)
Lemma load_after_save (E : env) (niche platform : string)
    (data : list ResearchItem) (st : state) :
  disk_ok E = true ->
  let saved := snd (_save_cache E niche platform data st) in
  time_at E (st_ticks saved) - time_at E (st_ticks st) <= 24 * 3600 ->
  fst (_load_cache E niche platform saved) = Ok (map item_json data)
  /\ items_of_json (map item_json data) = Some data.
Proof.
  intros Hdisk saved Hage. split; [|apply items_json_roundtrip].
  unfold saved, _save_cache in *. rewrite Hdisk in *. cbn [snd st_fs st_ticks] in *.
  unfold _load_cache. cbn [st_fs]. rewrite lookup_insert_eq.
  unfold bind, clock. cbn [st_ticks mtime readable body negb].
  assert (Hb : Qltb CACHE_MAX_AGE_HOURS
                 ((time_at E (S (st_ticks st)) - time_at E (st_ticks st)) / 3600) = false).
  { apply Qltb_ge. unfold CACHE_MAX_AGE_HOURS.
    apply Qle_shift_div_r; [reflexivity|]. exact Hage. }
  rewrite Hb. destruct data; reflexivity.
Qed.

(** C4. A fresh, readable cache entry whose bytes are not valid UTF-8 (a
    file cut in the middle of a multi-byte character, say) makes the load
    raise [UnicodeDecodeError], which the handler for
    [json.JSONDecodeError] and [OSError] does not catch, where the claim
    wants the empty list. *)
Theorem load_cache_undecodable_raises :
  let path := _cache_path offline "founder productivity" "LinkedIn" in
  let st := mkState [] {[ path := mkFile 0 true NotUtf8 ]} [] 0 in
  exists (e : exn) (st' : state),
    _load_cache offline "founder productivity" "LinkedIn" st = (Raise e, st')
    /\ exn_kind_of e = UnicodeDecodeError.
Proof.
  intros path st. eexists _, _. split.
  - unfold _load_cache. unfold st at 1. cbn [st_fs]. fold path.
    rewrite lookup_singleton_eq. reflexivity.
  - reflexivity.
Qed.

End Cache.

(** ** The orchestrator *)

Section Orchestrator.

Import Pipeline.

Lemma blank_spec (val : string) : blank val = true <-> all_chars is_space val.
Proof.
  unfold blank. destruct val as [|c val].
  - simpl. split; auto using all_chars_nil.
  - cbn [truthy negb orb]. rewrite <- strip_empty.
    destruct (strip (String c val)); simpl; split; congruence.
Qed.

Lemma validate_blank (niche platform audience goal : string) :
  blank niche = true \/ blank platform = true
  \/ blank audience = true \/ blank goal = true ->
  exists name,
    validate niche platform audience goal
    = Some (Exn ValueError (name +:+ " cannot be empty."))
    /\ In name ["niche"; "platform"; "audience"; "goal"].
Proof.
  intros H. unfold validate. cbn [find snd].
  destruct (blank niche); [exists "niche"; simpl; auto|].
  destruct (blank platform); [exists "platform"; simpl; auto|].
  destruct (blank audience); [exists "audience"; simpl; auto|].
  destruct (blank goal); [exists "goal"; simpl; auto 6|].
  destruct H as [H|[H|[H|H]]]; discriminate.
Qed.

Lemma all_whitespace (s : string) : all_chars whitespace s <-> all_chars is_space s.
Proof.
  unfold all_chars. split; intros H i c Hc.
  - rewrite is_space_whitespace. now apply (H i).
  - rewrite <- is_space_whitespace. now apply (H i).
Qed.



(** C10. Whenever one of niche, platform, audience and goal is empty or
    consists only of whitespace, the entry point raises [ValueError]
    naming an offending input, before the backend-availability check and
    before any search, fetch or prompt: no external call is made, no clock
    is read, the cache is untouched, nothing is logged and no result
    object exists. *)
Theorem run_pipeline_rejects_blank_input (E : env)
    (niche platform audience goal : string) (cache : gmap string file) :
  all_chars whitespace niche \/ all_chars whitespace platform
  \/ all_chars whitespace audience \/ all_chars whitespace goal ->
  exists name,
    In name ["niche"; "platform"; "audience"; "goal"]
    /\ run_pipeline E niche platform audience goal cache
       = mkRun (Raise (Exn ValueError (name +:+ " cannot be empty.")))
               None
               (mkState [] cache [] 0)
    /\ st_events (final (run_pipeline E niche platform audience goal cache)) = []
    /\ result_object (run_pipeline E niche platform audience goal cache) = None.
Proof.
  intros H. rewrite !all_whitespace, <- !blank_spec in H.
  destruct (validate_blank _ _ _ _ H) as [name [Hv Hin]].
  exists name. unfold run_pipeline. rewrite Hv. auto.
Qed.

(** *** Dict facts *)

Lemma dict_get_set_eq (k : string) (v : json) (d : list (string * json)) :
  dict_get k (dict_set k v d) = Some v.
Proof.
  induction d as [|[k' v'] d IH]; simpl.
  - now rewrite String.eqb_refl.
  - destruct (String.eqb k' k) eqn:E; simpl.
    + now rewrite String.eqb_refl.
    + now rewrite E.
Qed.

Lemma dict_get_set_ne (k k0 : string) (v : json) (d : list (string * json)) :
  k0 <> k -> dict_get k (dict_set k0 v d) = dict_get k d.
Proof.
  intros Hne. induction d as [|[k' v'] d IH]; simpl.
  - destruct (String.eqb_spec k0 k); [contradiction|reflexivity].
  - destruct (String.eqb_spec k' k0) as [->|Hk]; simpl.
    + destruct (String.eqb_spec k0 k); [contradiction|reflexivity].
    + destruct (String.eqb k' k); [reflexivity|exact IH].
Qed.

Lemma meta_of_set_meta (m : list (string * json)) (d : list (string * json)) :
  meta_of (dict_set "meta" (JDict m) d) = m.
Proof. unfold meta_of. now rewrite dict_get_set_eq. Qed.

Lemma meta_of_set_other (k : string) (v : json) (d : list (string * json)) :
  k <> "meta" -> meta_of (dict_set k v d) = meta_of d.
Proof. intros H. unfold meta_of. now rewrite dict_get_set_ne. Qed.

(** *** The result carries no error while the stages run *)

Lemma ensures_bind {A B : Type} (m : P A) (k : A -> P B) (Q : B -> frame -> Prop) :
  ensures m anything -> (forall a, ensures (k a) Q) -> ensures (bind m k) Q.
Proof.
  intros Hm Hk fr b fr' Hinv. unfold bind.
  destruct (m fr) as [[a|e] fr1] eqn:Em; [|discriminate].
  destruct (Hm fr a fr1 Hinv Em) as [Hinv1 _]. apply Hk. exact Hinv1.
Qed.

Lemma ensures_ret {A : Type} (a : A) : ensures (ret a) anything.
Proof. intros fr x fr' Hinv [= <- <-]. split; [exact Hinv|exact I]. Qed.

Lemma ensures_raise {A : Type} (e : exn) (Q : A -> frame -> Prop) :
  ensures (raise e) Q.
Proof. intros fr x fr' Hinv. discriminate. Qed.

Lemma ensures_lift {A : Type} (m : M A) : ensures (lift m) anything.
Proof.
  intros fr a fr' Hinv. unfold lift.
  destruct (m (fr_state fr)) as [o st']. intros [= -> <-].
  split; [exact Hinv|exact I].
Qed.

Lemma ensures_log (message : string) : ensures (log message) anything.
Proof. apply ensures_lift. Qed.

Lemma ensures_progress (E : env) (message : string) :
  ensures (_progress E message) anything.
Proof.
  unfold _progress. destruct (has_callback E); [apply ensures_lift|apply ensures_ret].
Qed.

Lemma ensures_set_field (k : string) (v : json) :
  k <> "meta" -> ensures (set_field k v) anything.
Proof.
  intros Hk fr a fr' Hinv [= _ <-]. split; [|exact I].
  unfold no_error in *. cbn [fr_result]. now rewrite meta_of_set_other.
Qed.

Lemma ensures_set_meta (k : string) (v : json) :
  k <> "error" -> ensures (set_meta k v) anything.
Proof.
  intros Hk fr a fr' Hinv [= _ <-]. split; [|exact I].
  unfold no_error in *. cbn [fr_result].
  now rewrite meta_of_set_meta, dict_get_set_ne.
Qed.

Lemma ensures_research_items (r : research) : ensures (research_items r) anything.
Proof.
  unfold research_items. destruct r as [entries|items]; [|apply ensures_ret].
  destruct (items_of_json entries); [apply ensures_ret|apply ensures_raise].
Qed.

Lemma ensures_guard (c : bool) (e : exn) :
  ensures (if c then raise e else ret tt) anything.
Proof. destruct c; [apply ensures_raise|apply ensures_ret]. Qed.

Lemma ensures_when (c : bool) (m : P unit) :
  ensures m anything -> ensures (if c then m else ret tt) anything.
Proof. intros H. destruct c; [exact H|apply ensures_ret]. Qed.

Create HintDb pipeline.
#[local] Hint Resolve ensures_ret ensures_lift ensures_log ensures_progress
  ensures_research_items ensures_guard ensures_when : pipeline.
#[local] Hint Extern 1 (ensures (set_field _ _) _) =>
  apply ensures_set_field; discriminate : pipeline.
#[local] Hint Extern 1 (ensures (set_meta _ _) _) =>
  apply ensures_set_meta; discriminate : pipeline.

Ltac stage := apply ensures_bind; [solve [auto with pipeline] | intros ?].

Lemma stages_no_error (E : env) (niche platform audience goal : string) (start_time : Q) :
  ensures (stages E niche platform audience goal start_time)
          (fun result fr => result = result_view fr).
Proof.
  unfold stages. repeat stage.
  intros frame0 result frame1 Hinv [= <- <-]. auto.
Qed.


Lemma on_failure_raises (E : env) (start_time : Q) (e : exn) (fr : frame) :
  exists fr',
    on_failure E start_time e fr = (Raise e, fr')
    /\ dict_get "error" (meta_of (fr_result fr')) = Some (JStr (exn_msg e))
    /\ dict_get "elapsed_seconds" (meta_of (fr_result fr'))
       = Some (JReal (py_round 1 (time_at E (st_ticks (fr_state fr)) - start_time)))
    /\ st_log (fr_state fr') = (st_log (fr_state fr) ++ ["ERROR: " +:+ exn_msg e])%list
    /\ st_events (fr_state fr') = st_events (fr_state fr)
    /\ st_fs (fr_state fr') = st_fs (fr_state fr).
Proof.
  eexists. split; [reflexivity|].
  cbn [fr_result fr_state st_log st_events st_fs st_ticks].
  rewrite !meta_of_set_meta. repeat split.
  - rewrite dict_get_set_ne by discriminate. apply dict_get_set_eq.
  - apply dict_get_set_eq.
Qed.


End Orchestrator.

(** ** Failures of a run *)

Section Failures.

Import Pipeline.

(** A run on valid inputs: the stages, then the [except] clause if they
    raised. *)
Lemma run_pipeline_valid (E : env) (niche platform audience goal : string)
    (cache : gmap string file) :
  validate niche platform audience goal = None ->
  run_pipeline E niche platform audience goal cache
  = match stages E niche platform audience goal (time_at E 0)
                 (first_frame niche platform audience goal cache) with
    | (Ok result, fr) => mkRun (Ok result) (Some (result_view fr)) (fr_state fr)
    | (Raise e, fr) =>
        let '(o, fr') := on_failure E (time_at E 0) e fr in
        mkRun o (Some (result_view fr')) (fr_state fr')
    end.
Proof.
  intros Hv. unfold run_pipeline. rewrite Hv. cbv zeta.
  unfold bind, try_except, lift, clock, first_frame.
  cbn [fr_state fr_result st_log st_fs st_events st_ticks].
  destruct (stages E niche platform audience goal (time_at E 0) _) as [[result|e] fr];
    reflexivity.
Qed.

Lemma first_frame_no_error (niche platform audience goal : string)
    (cache : gmap string file) :
  no_error (first_frame niche platform audience goal cache).
Proof. reflexivity. Qed.



End Failures.

(** ** The theorems at concrete inputs *)

Section Witnesses.

Import Intel Strategy Pipeline.

Lemma dedup_first_occurrence_wins_witness :
  let cafe (e : ascii) (tail : string) := "http://caf" +:+ String e tail in
  let results :=
    [stub "a" "" "http://A.example/"; stub "b" "" "http://a.example";
     stub "c" "" (cafe "201"%char ".example");
     stub "d" "" (cafe "233"%char ".example//");
     stub "e" "" "HTTP://A.EXAMPLE//"] in
  map title (_dedup results) = ["a"; "c"]
  /\ NoDup (map (fun r => lower (rstrip_chars "/" (url r))) (_dedup results))
  /\ exists kept,
       kept ∈ _dedup results
       /\ lower (rstrip_chars "/" (url kept)) = "http://a.example"
       /\ title kept = "a".
Proof.
  intros cafe results.
  destruct (dedup_first_occurrence_wins results) as (_ & Hnd & Huniq & Hcov & Hfirst & _).
  split; [vm_compute; reflexivity|]. split; [exact Hnd|].
  destruct (Hcov (stub "e" "" "HTTP://A.EXAMPLE//")) as (kept & Hin & Hk).
  { apply list_elem_of_In. vm_compute. tauto. }
  exists kept. split; [exact Hin|]. split; [exact Hk|].
  apply Hfirst in Hin. rewrite Hk in Hin. vm_compute in Hin.
  injection Hin as <-. reflexivity.
Defined.

Lemma saturation_dominant_format_witness :
  let research_data := [stub "Top tools" "" "http://a.example";
                        stub "10 best hooks" "" "http://b.example";
                        stub "Quiet notes" "" "http://c.example"] in
  research_data <> []
  /\ dominant_format (analyze_structural_saturation research_data) = "Listicle saturation"
  /\ is_saturated (analyze_structural_saturation research_data) = true.
Proof.
  intros research_data.
  assert (Hne : research_data <> []) by discriminate.
  destruct (saturation_dominant_format research_data Hne) as (Hl & _ & _ & _ & Hs & _).
  split; [exact Hne|]. split.
  - apply Hl. left. vm_compute. lia.
  - apply Hs. left. vm_compute. lia.
Defined.

Lemma refine_replaces_draft_witness :
  exists (sections : gmap string string) (st' : state),
    generate_strategy (with_strategy_replies (Ok draft100) (Ok rewrite66)) empty_state
    = (Ok sections, st')
    /\ sections !! "_pass1" = Some draft100
    /\ sections !! "_raw" = Some rewrite66.
Proof.
  destruct (refine_replaces_draft
              (with_strategy_replies (Ok draft100) (Ok rewrite66))
              draft100 rewrite66 empty_state
              eq_refl ltac:(vm_compute; lia) eq_refl ltac:(discriminate))
    as (sections & st' & Hg & Hp & Hyes & _).
  exists sections, st'. split; [exact Hg|]. split; [exact Hp|].
  apply Hyes. vm_compute. lia.
Defined.

Lemma run_pipeline_rejects_blank_input_witness :
  let blanks := String "160" (String "133" (String "009" " ")) in
  all_chars whitespace blanks
  /\ exists name,
       run_pipeline offline "founder productivity" blanks "founders" "leads" ∅
       = mkRun (Raise (Exn ValueError (name +:+ " cannot be empty."))) None
               (mkState [] ∅ [] 0).
Proof.
  intros blanks.
  assert (Hb : all_chars whitespace blanks)
    by (apply all_whitespace, blank_spec; reflexivity).
  split; [exact Hb|].
  destruct (run_pipeline_rejects_blank_input offline "founder productivity" blanks
              "founders" "leads" ∅ (or_intror (or_introl Hb)))
    as (name & _ & Hrun & _).
  exists name. exact Hrun.
Defined.


End Witnesses.

(** * Further properties of the modelled code *)

(** ** More facts on strings *)

Section MoreStringFacts.

Lemma append_cons (c : ascii) (a b : string) : String c a +:+ b = String c (a +:+ b).
Proof. reflexivity. Qed.

Lemma append_nil_l (b : string) : "" +:+ b = b.
Proof. reflexivity. Qed.

Lemma length_append (a b : string) :
  String.length (a +:+ b) = (String.length a + String.length b)%nat.
Proof.
  induction a as [|c a IH]; [reflexivity|].
  rewrite append_cons. simpl. now rewrite IH.
Qed.

Lemma length_drop (n : nat) (s : string) :
  String.length (drop n s) = (String.length s - n)%nat.
Proof.
  revert s. induction n as [|n IH]; intros [|c s]; simpl; try reflexivity.
  apply IH.
Qed.

Lemma take_drop (n : nat) (s : string) : take n s +:+ drop n s = s.
Proof.
  revert s. induction n as [|n IH]; intros [|c s]; try reflexivity.
  cbn [take drop]. rewrite append_cons. f_equal. apply IH.
Qed.

Lemma take_append (a b : string) : take (String.length a) (a +:+ b) = a.
Proof.
  induction a as [|c a IH]; [now destruct b|].
  rewrite append_cons. simpl. now rewrite IH.
Qed.

Lemma drop_append (a b : string) : drop (String.length a) (a +:+ b) = b.
Proof.
  induction a as [|c a IH]; [now destruct b|].
  rewrite append_cons. simpl. exact IH.
Qed.

Lemma append_assoc (a b c : string) : (a +:+ b) +:+ c = a +:+ (b +:+ c).
Proof.
  induction a as [|x a IH]; [reflexivity|].
  rewrite !append_cons. now rewrite IH.
Qed.

Lemma append_nil_r (a : string) : a +:+ "" = a.
Proof.
  induction a as [|x a IH]; [reflexivity|].
  rewrite append_cons. now rewrite IH.
Qed.

Lemma length_lower (s : string) : String.length (lower s) = String.length s.
Proof. induction s as [|c s IH]; simpl; [reflexivity|now rewrite IH]. Qed.

End MoreStringFacts.

(** ** The range of the heuristic score *)

Section ScoreRange.

Lemma bonus_range (b : bool) (points : Z) : (0 <= points -> 0 <= bonus b points <= points)%Z.
Proof. destruct b; simpl; lia. Qed.

Lemma heuristic_score_bounds (title snippet : string) :
  (0 <= compute_heuristic_score title snippet <= 26)%Z.
Proof.
  unfold compute_heuristic_score.
  rewrite score_over_sum. cbv zeta.
  set (combined := lower (title +:+ " " +:+ snippet)).
  pose proof (count_if_le (fun w => contains w combined) POWER_WORDS) as Hc.
  change (length POWER_WORDS) with 22%nat in Hc.
  pose proof (bonus_range (has_char is_digit combined) 2 ltac:(lia)).
  pose proof (bonus_range (contains "?" combined) 1 ltac:(lia)).
  pose proof (bonus_range (length (split title) <? 12)%nat 1 ltac:(lia)).
  lia.
Qed.

(** X1. The heuristic score of any title and snippet lies between 0 and
    26: two points for a digit, one for a question mark, one for a title
    of fewer than twelve words, one for each of the 22 power words.  Both
    ends are reached. *)
Theorem heuristic_score_range :
  (forall title snippet : string,
      (0 <= compute_heuristic_score title snippet <= 26)%Z)
  /\ compute_heuristic_score "1?" (join " " POWER_WORDS) = 26%Z
  /\ compute_heuristic_score "a b c d e f g h i j k l" "" = 0%Z.
Proof.
  split; [exact heuristic_score_bounds|].
  split; vm_compute; reflexivity.
Qed.

End ScoreRange.

(** ** De-duplication is a projection *)

Section DedupAgain.

Lemma dedup_from_id (seen : gset string) (l : list ResearchItem) :
  NoDup (map url_key l) ->
  (forall r, r ∈ l -> url_key r ∉ seen) ->
  dedup_from seen l = l.
Proof.
  revert seen. induction l as [|r l IH]; intros seen Hnd Hfresh; [reflexivity|].
  simpl. apply NoDup_cons in Hnd as [Hr Hnd].
  destruct (decide (url_key r ∈ seen)) as [Hin|_].
  - exfalso. apply (Hfresh r); [left|exact Hin].
  - f_equal. apply IH; [exact Hnd|].
    intros r' Hr' Hin. apply elem_of_union in Hin as [Hin|Hin].
    + apply elem_of_singleton in Hin. apply Hr. rewrite <- Hin.
      apply list_elem_of_fmap. exists r'. split; [reflexivity|exact Hr'].
    + apply (Hfresh r'); [now right|exact Hin].
Qed.

(** X2. De-duplication changes nothing on a list whose URLs, without
    trailing slashes and in lower case, are already distinct; in
    particular applying it twice is the same as applying it once.  It
    never returns more entries than it was given. *)
Theorem dedup_idempotent (results : list ResearchItem) :
  let key (r : ResearchItem) := lower (rstrip_chars "/" (url r)) in
  _dedup (_dedup results) = _dedup results
  /\ (NoDup (map key results) -> _dedup results = results)
  /\ (length (_dedup results) <= length results)%nat.
Proof.
  intros key. change key with url_key. clear key.
  assert (Hid : forall l, NoDup (map url_key l) -> _dedup l = l).
  { intros l Hnd. rewrite dedup_unfold. apply dedup_from_id; [exact Hnd|].
    intros r _. apply not_elem_of_empty. }
  split; [|split].
  - apply Hid. rewrite dedup_unfold. apply dedup_from_nodup.
  - apply Hid.
  - rewrite dedup_unfold. apply sublist_length, dedup_from_sublist.
Qed.

End DedupAgain.

(** ** The text a page yields *)

Section PageText.

Lemma length_gate_shape (cleaned : string) :
  length_gate cleaned = ""
  \/ ((300 <= String.length (length_gate cleaned) <= 1200)%nat
      /\ length_gate cleaned = take (String.length (length_gate cleaned)) cleaned).
Proof.
  destruct (Nat.lt_ge_cases (String.length cleaned) MIN_CONTENT_LENGTH) as [Hs|Hs].
  { left. now apply length_gate_short. }
  right.
  destruct (Nat.le_gt_cases (String.length cleaned) MAX_CONTENT_LENGTH) as [Hm|Hl].
  - rewrite length_gate_middle by (split; assumption).
    unfold MIN_CONTENT_LENGTH, MAX_CONTENT_LENGTH in *.
    split; [lia|]. symmetry. now apply take_all.
  - rewrite (length_gate_long cleaned Hl). cbv zeta.
    unfold MAX_CONTENT_LENGTH in *.
    pose proof (rfind_char_range "." (take 1200 cleaned)) as Hr.
    rewrite length_take in Hr.
    destruct (600 <? rfind_char "." (take 1200 cleaned))%Z eqn:Elp.
    + apply Z.ltb_lt in Elp. rewrite length_take. split; [lia|].
      f_equal. lia.
    + rewrite length_take. split; [lia|].
      f_equal. lia.
Qed.

Lemma page_content_bounds (page : fetched) :
  extract_page_content page = ""
  \/ (300 <= String.length (extract_page_content page) <= 1200)%nat.
Proof.
  destruct page as [| |meta parts]; [now left|now left|].
  cbn [extract_page_content].
  destruct (length_gate_shape (_clean_text (page_raw meta parts))) as [H|[H _]]; auto.
Qed.

(** X3. The text extracted from a page is either empty or a prefix of
    the cleaned page text that is between 300 and 1200 characters long;
    a failed request and a response that is not HTML give the empty
    text. *)
Theorem extract_page_content_shape (page : fetched) :
  let out := extract_page_content page in
  (out = ""
   \/ ((300 <= String.length out <= 1200)%nat
       /\ exists meta parts,
            page = Page meta parts
            /\ out = take (String.length out) (_clean_text (page_raw meta parts))))
  /\ extract_page_content FetchFailed = ""
  /\ extract_page_content NotHtml = "".
Proof.
  cbv zeta. split; [|split; reflexivity].
  destruct page as [| |meta parts]; [now left|now left|].
  cbn [extract_page_content].
  destruct (length_gate_shape (_clean_text (page_raw meta parts))) as [H|[H1 H2]];
    [now left|right].
  split; [exact H1|]. exists meta, parts. split; [reflexivity|exact H2].
Qed.

End PageText.

(** ** Sorting by a total order *)

Section Ordered.

Context {A : Type} (le : A -> A -> bool).
Hypothesis le_total : forall x y, le x y = true \/ le y x = true.
Hypothesis le_trans : forall x y z, le x y = true -> le y z = true -> le x z = true.

Lemma insert_sorted_ordered (x : A) (l : list A) :
  StronglySorted (fun a b => le a b = true) l ->
  StronglySorted (fun a b => le a b = true) (insert_sorted le x l).
Proof.
  induction l as [|y l IH]; intros Hs; simpl.
  - constructor; constructor.
  - apply StronglySorted_inv in Hs as [Hs Hy].
    destruct (le x y) eqn:Exy.
    + constructor; [constructor; assumption|].
      constructor; [exact Exy|].
      eapply List.Forall_impl; [|exact Hy]. intros z Hz. cbv beta in Hz. eauto.
    + constructor; [auto|].
      assert (Hyx : le y x = true) by (destruct (le_total x y); congruence).
      rewrite (insert_sorted_perm le x l). constructor; assumption.
Qed.

Lemma stable_sort_ordered (l : list A) :
  StronglySorted (fun a b => le a b = true) (stable_sort le l).
Proof.
  induction l as [|x l IH]; simpl; [constructor|].
  now apply insert_sorted_ordered.
Qed.

End Ordered.

Lemma In_firstn {A : Type} (n : nat) (l : list A) (x : A) :
  In x (firstn n l) -> In x l.
Proof.
  revert n. induction l as [|y l IH]; intros [|n] H; simpl in *; try contradiction.
  destruct H as [H|H]; [now left|right; eauto].
Qed.

Lemma StronglySorted_firstn {A : Type} (R : A -> A -> Prop) (n : nat) (l : list A) :
  StronglySorted R l -> StronglySorted R (firstn n l).
Proof.
  revert n. induction l as [|x l IH]; intros [|n] Hs; simpl; try constructor.
  - apply IH. now apply StronglySorted_inv in Hs.
  - apply StronglySorted_inv in Hs as [_ Hx].
    rewrite List.Forall_forall in *. intros y Hy. apply Hx.
    eapply In_firstn. exact Hy.
Qed.

Lemma StronglySorted_at {A : Type} (R : A -> A -> Prop) (l : list A) (i j : nat) (x y : A) :
  StronglySorted R l -> (i < j)%nat -> l !! i = Some x -> l !! j = Some y -> R x y.
Proof.
  intros Hs. revert i j. induction Hs as [|a l Hs IH Ha]; intros i j Hij Hi Hj.
  - discriminate.
  - destruct j as [|j]; [lia|]. destruct i as [|i].
    + injection Hi as <-. simpl in Hj.
      rewrite List.Forall_forall in Ha. apply Ha.
      apply list_elem_of_In. eapply list_elem_of_lookup_2. exact Hj.
    + simpl in Hi, Hj. apply (IH i j); [lia|assumption|assumption].
Qed.

(** ** The order of the gap report *)

Section GapOrder.

Import Intel.
Local Open Scope Q_scope.

Lemma gap_key_le_total (x y : GapResult) :
  gap_key_le x y = true \/ gap_key_le y x = true.
Proof.
  unfold gap_key_le. destruct (is_gap x), (is_gap y); simpl; auto.
  - destruct (Qle_bool (similarity x) (similarity y)) eqn:E; [now left|right].
    apply Qle_bool_iff. apply Qlt_le_weak, Qnot_le_lt. intros H.
    apply Qle_bool_iff in H. congruence.
  - destruct (Qle_bool (similarity x) (similarity y)) eqn:E; [now left|right].
    apply Qle_bool_iff. apply Qlt_le_weak, Qnot_le_lt. intros H.
    apply Qle_bool_iff in H. congruence.
Qed.

Lemma gap_key_le_trans (x y z : GapResult) :
  gap_key_le x y = true -> gap_key_le y z = true -> gap_key_le x z = true.
Proof.
  unfold gap_key_le. destruct (is_gap x), (is_gap y), (is_gap z); simpl; auto;
    try discriminate; rewrite !Qle_bool_iff; apply Qle_trans.
Qed.

(** X4. The gap report has one entry per subdomain, with every gap
    before every entry that is not a gap, and within each of the two
    groups the entries in order of increasing similarity. *)
Theorem keyword_gaps_order (research_data : list ResearchItem)
    (subdomains : list string) :
  let out := _keyword_gaps research_data subdomains in
  length out = length subdomains
  /\ forall (i j : nat) (x y : GapResult),
       (i < j)%nat -> out !! i = Some x -> out !! j = Some y ->
       (is_gap y = true -> is_gap x = true)
       /\ (is_gap x = is_gap y -> similarity x <= similarity y).
Proof.
  cbv zeta. unfold _keyword_gaps. split.
  - now rewrite stable_sort_length, length_map.
  - intros i j x y Hij Hi Hj.
    pose proof (StronglySorted_at _ _ i j x y
                  (stable_sort_ordered gap_key_le gap_key_le_total gap_key_le_trans _)
                  Hij Hi Hj) as Hle.
    cbv beta in Hle. unfold gap_key_le in Hle.
    destruct (is_gap x), (is_gap y); simpl in Hle; try discriminate;
      (split; [auto|]); intros H; try discriminate; now apply Qle_bool_iff.
Qed.

End GapOrder.

(** ** Counting words *)

Section Counting.

Lemma counter_add_keys (w : string) (c : list (string * nat)) :
  map fst (counter_add w c)
  = if decide (w ∈ map fst c) then map fst c else (map fst c ++ [w])%list.
Proof.
  induction c as [|[k n] c IH]; simpl.
  - destruct (decide (w ∈ [])) as [H|_]; [|reflexivity].
    now apply elem_of_nil in H.
  - destruct (String.eqb k w) eqn:E; simpl.
    + apply String.eqb_eq in E. subst k.
      destruct (decide (w ∈ w :: map fst c)) as [_|H]; [reflexivity|].
      exfalso. apply H. left.
    + apply String.eqb_neq in E. rewrite IH.
      destruct (decide (w ∈ map fst c)) as [H|H];
        destruct (decide (w ∈ k :: map fst c)) as [H'|H']; try reflexivity.
      * exfalso. apply H'. now right.
      * exfalso. apply elem_of_cons in H' as [H'|H']; [congruence|contradiction].
Qed.

Lemma counter_add_entries (w : string) (c : list (string * nat)) (good : string -> Prop) :
  good w ->
  List.Forall (fun kv => (1 <= snd kv)%nat /\ good (fst kv)) c ->
  List.Forall (fun kv => (1 <= snd kv)%nat /\ good (fst kv)) (counter_add w c).
Proof.
  intros Hw. induction c as [|[k n] c IH]; intros Hc; simpl.
  - constructor; [simpl; auto|constructor].
  - apply List.Forall_cons_iff in Hc as [[Hn Hk] Hc]. simpl in Hn, Hk.
    destruct (String.eqb k w); constructor; simpl; auto.
Qed.

Lemma Counter_shape (ws : list string) (good : string -> Prop) :
  List.Forall good ws ->
  NoDup (map fst (Counter ws))
  /\ List.Forall (fun kv => (1 <= snd kv)%nat /\ good (fst kv)) (Counter ws).
Proof.
  unfold Counter. intros Hws.
  assert (Hgen : forall c,
             NoDup (map fst c) ->
             List.Forall (fun kv => (1 <= snd kv)%nat /\ good (fst kv)) c ->
             NoDup (map fst (fold_left (fun c w => counter_add w c) ws c))
             /\ List.Forall (fun kv => (1 <= snd kv)%nat /\ good (fst kv))
                            (fold_left (fun c w => counter_add w c) ws c)).
  { induction Hws as [|w ws Hw Hws IH]; intros c Hnd Hc; simpl; [auto|].
    apply IH.
    - rewrite counter_add_keys. destruct (decide (w ∈ map fst c)) as [H|H]; [exact Hnd|].
      apply NoDup_app. split; [exact Hnd|]. split.
      + intros x Hx Hx'. apply list_elem_of_singleton in Hx'. now subst x.
      + apply NoDup_singleton.
    - now apply counter_add_entries. }
  apply Hgen; constructor.
Qed.

Lemma count_order_total (x y : string * nat) :
  (snd y <=? snd x)%nat = true \/ (snd x <=? snd y)%nat = true.
Proof. rewrite !Nat.leb_le. lia. Qed.

Lemma count_order_trans (x y z : string * nat) :
  (snd y <=? snd x)%nat = true -> (snd z <=? snd y)%nat = true ->
  (snd z <=? snd x)%nat = true.
Proof. rewrite !Nat.leb_le. lia. Qed.

(** [most_common] keeps what holds of the counter's entries, and orders
    them by decreasing count. *)
Lemma most_common_shape (n : nat) (c : list (string * nat))
    (good : string * nat -> Prop) :
  NoDup (map fst c) -> List.Forall good c ->
  (length (most_common n c) <= n)%nat
  /\ NoDup (map fst (most_common n c))
  /\ List.Forall good (most_common n c)
  /\ forall i j x y, (i < j)%nat ->
       most_common n c !! i = Some x -> most_common n c !! j = Some y ->
       (snd y <= snd x)%nat.
Proof.
  intros Hnd Hc. unfold most_common.
  set (le := fun x y : string * nat => (snd y <=? snd x)%nat).
  pose proof (stable_sort_perm le c) as Hp.
  assert (Hsub : firstn n (stable_sort le c) `sublist_of` stable_sort le c)
    by apply sublist_take.
  split; [|split; [|split]].
  - rewrite length_firstn. lia.
  - rewrite <- firstn_map. eapply sublist_NoDup; [|apply sublist_take].
    rewrite Hp. exact Hnd.
  - apply List.Forall_forall. intros x Hx.
    rewrite List.Forall_forall in Hc. apply Hc.
    apply (Permutation_in _ Hp). eapply In_firstn. exact Hx.
  - intros i j x y Hij Hi Hj.
    pose proof (StronglySorted_at _ _ i j x y
                  (StronglySorted_firstn _ n _
                     (stable_sort_ordered le count_order_total count_order_trans c))
                  Hij Hi Hj) as H.
    cbv beta in H. now apply Nat.leb_le in H.
Qed.

(** X5. The keyword table holds at most 15 entries, one per word, in
    order of decreasing count; every word in it occurs at least once, is
    longer than two characters and is not a stop word. *)
Theorem keyword_frequency_shape (research_data : list ResearchItem) :
  let keywords := Research.analyze_keyword_frequency research_data in
  (length keywords <= 15)%nat
  /\ NoDup (map fst keywords)
  /\ (forall w n, In (w, n) keywords ->
        (1 <= n)%nat /\ (2 < String.length w)%nat /\ ~ In w Research.STOPWORDS)
  /\ forall i j x y, (i < j)%nat ->
       keywords !! i = Some x -> keywords !! j = Some y -> (snd y <= snd x)%nat.
Proof.
  cbv zeta. unfold Research.analyze_keyword_frequency.
  match goal with |- context [Counter ?ws] => set (words := ws) end.
  assert (Hwords : List.Forall (fun w => (2 < String.length w)%nat
                                    /\ ~ In w Research.STOPWORDS) words).
  { apply List.Forall_forall. intros w Hw. unfold words in Hw.
    apply filter_In in Hw as [_ Hw]. apply andb_true_iff in Hw as [Hstop Hlen].
    apply Nat.ltb_lt in Hlen. split; [exact Hlen|].
    intros Hin. apply negb_true_iff in Hstop.
    assert (existsb (String.eqb w) Research.STOPWORDS = true); [|congruence].
    apply existsb_exists. exists w. split; [exact Hin|apply String.eqb_refl]. }
  destruct (Counter_shape words _ Hwords) as [Hnd Hc].
  destruct (most_common_shape 15 (Counter words) _ Hnd Hc) as (Hlen & Hnd' & Hall & Hord).
  split; [exact Hlen|]. split; [exact Hnd'|]. split; [|exact Hord].
  intros w n Hin. rewrite List.Forall_forall in Hall.
  destruct (Hall _ Hin) as [Hn [Hl Hs]]. auto.
Qed.

End Counting.

(** ** Bounds on the reports *)

Section ReportBounds.

Import Intel IntelStages.
Local Open Scope Q_scope.

Lemma pct_range (n d : nat) : (n <= d)%nat -> (0 < d)%nat -> 0 <= ratio n d * 100 <= 100.
Proof. intros Hn Hd. pose proof (ratio_unit n d Hn Hd). lra. Qed.

Lemma pct_float_range (n d : nat) :
  (n <= d)%nat -> (0 < d)%nat -> 0 <= pct_float n d <= 100.
Proof.
  intros Hn Hd. destruct (ratio_unit n d Hn Hd) as [H0 H1].
  destruct (fl_range (ratio n d) 0 1) as [F0 F1]; [lia|lia|exact H0|exact H1|].
  unfold pct_float. change (inject_Z 0) with 0 in F0. change (inject_Z 1) with 1 in F1.
  lra.
Qed.

(** X6. In the saturation report the three title counts and the content
    count never exceed the number of items, both percentages lie between
    0 and 100, and at most ten bigrams are listed; an empty corpus gives
    the format "Unknown", no saturation and no content count. *)
Theorem saturation_report_bounds (research_data : list ResearchItem) :
  let report := analyze_structural_saturation research_data in
  total report = length research_data
  /\ (list_count report <= total report)%nat
  /\ (guide_count report <= total report)%nat
  /\ (comparison_count report <= total report)%nat
  /\ (forall n, content_list_count report = Some n -> (n <= total report)%nat)
  /\ 0 <= list_percentage report <= 100
  /\ 0 <= content_list_percentage report <= 100
  /\ (length (top_bigrams report) <= 10)%nat
  /\ (research_data = [] ->
      dominant_format report = "Unknown" /\ is_saturated report = false
      /\ content_list_count report = None).
Proof.
  cbv zeta. unfold analyze_structural_saturation.
  destruct research_data as [|r rd].
  { cbn. split; [reflexivity|]. do 3 (split; [lia|]). split; [discriminate|].
    do 2 (split; [split; discriminate|]). split; [lia|]. auto. }
  set (data := r :: rd).
  assert (Hn : (0 < length data)%nat) by (simpl; lia).
  destruct (length data =? 0)%nat eqn:E; [apply Nat.eqb_eq in E; lia|].
  cbn [total list_count guide_count comparison_count content_list_count
       list_percentage content_list_percentage top_bigrams dominant_format is_saturated].
  pose proof (content_list_le_samples data) as Hcs.
  assert (Hst : (samples_text_of data <= length data)%nat) by apply count_if_le.
  assert (Ht : 0 <= t_pct_float data <= 100).
  { apply pct_float_range; [apply count_if_le|exact Hn]. }
  assert (Hc : 0 <= c_pct_float data <= 100).
  { unfold c_pct_float. destruct (samples_text_of data =? 0)%nat eqn:Es.
    - split; discriminate.
    - apply Nat.eqb_neq in Es. apply pct_float_range; lia. }
  split; [reflexivity|].
  split; [apply count_if_le|]. split; [apply count_if_le|]. split; [apply count_if_le|].
  split; [intros n [= <-]; lia|].
  split; [apply (py_round_range 1 _ 0 100); [lia|lia|apply Ht..]|].
  split; [apply (py_round_range 1 _ 0 100); [lia|lia|apply Hc..]|].
  split; [|discriminate].
  unfold top_bigrams_of, most_common. rewrite length_firstn. lia.
Qed.

(** X7. The alignment report counts every item, never more aligned items
    than items, lists at most five keywords and gives a ratio between 0
    and 1.  Drift is flagged, and the warning text is present, exactly
    when the niche has alignment keywords and fewer than 40% of the items
    match one of them; with keywords and no item at all, drift is
    flagged. *)
Theorem niche_alignment_shape (research_data : list ResearchItem) (niche : string) :
  let a := Research.check_niche_alignment research_data niche in
  Research.total_count a = length research_data
  /\ (Research.aligned_count a <= Research.total_count a)%nat
  /\ (length (Research.alignment_keywords a) <= 5)%nat
  /\ 0 <= Research.alignment_ratio a <= 1
  /\ (Research.drift_detected a = true <-> Research.drift_warning a <> None)
  /\ (Research.drift_detected a = true
      <-> Research._alignment_keywords niche <> []
          /\ (research_data = []
              \/ (5 * Research.aligned_count a < 2 * Research.total_count a)%nat)).
Proof.
  cbv zeta. unfold Research.check_niche_alignment.
  destruct (Research._alignment_keywords niche) as [|kw kws] eqn:Ek.
  { cbn. repeat split; try lia; try discriminate; try tauto. }
  set (keys := kw :: kws).
  set (aligned := count_if _ research_data).
  assert (Ha : (aligned <= length research_data)%nat) by apply count_if_le.
  cbn [Research.total_count Research.aligned_count Research.alignment_keywords
       Research.alignment_ratio Research.drift_detected Research.drift_warning].
  split; [reflexivity|]. split; [exact Ha|].
  split; [rewrite length_firstn; lia|].
  assert (Hr : 0 <= (if (0 <? length research_data)%nat
                     then ratio aligned (length research_data) else 0) <= 1).
  { destruct (0 <? length research_data)%nat eqn:E.
    - apply Nat.ltb_lt in E. now apply ratio_unit.
    - split; discriminate. }
  split.
  { change 0 with (inject_Z 0). change 1 with (inject_Z 1).
    apply py_round_range; [lia|lia|apply Hr..]. }
  split.
  { destruct (Qltb _ (4 # 10)); split; intros H; congruence. }
  rewrite Qltb_lt.
  destruct (0 <? length research_data)%nat eqn:E.
  - apply Nat.ltb_lt in E. rewrite ratio_lt by exact E.
    split.
    + intros H. split; [discriminate|]. right. lia.
    + intros [_ [H|H]]; [subst; simpl in E; lia|lia].
  - apply Nat.ltb_ge in E. split.
    + intros _. split; [discriminate|]. left. destruct research_data; [reflexivity|simpl in E; lia].
    + intros _. reflexivity.
Qed.

Lemma sum_scores_range (scores : list Z) (a b : Z) :
  List.Forall (fun z => (a <= z <= b)%Z) scores ->
  (a * Z.of_nat (length scores) <= fold_right Z.add 0%Z scores
   <= b * Z.of_nat (length scores))%Z.
Proof.
  induction 1 as [|z scores Hz _ IH]; [simpl; lia|].
  cbn [fold_right length]. lia.
Qed.

Lemma truthy_length (s : string) : truthy s = true -> (1 <= String.length s)%nat.
Proof. destruct s; simpl; [discriminate|lia]. Qed.

Lemma length_lstrip_by (p : ascii -> bool) (s : string) :
  (String.length (lstrip_by p s) <= String.length s)%nat.
Proof.
  induction s as [|c s IH]; simpl; [lia|].
  destruct (p c); simpl; lia.
Qed.

Lemma length_rstrip_by (p : ascii -> bool) (s : string) :
  (String.length (rstrip_by p s) <= String.length s)%nat.
Proof.
  induction s as [|c s IH]; simpl; [lia|].
  destruct (rstrip_by p s); [destruct (p c)|]; simpl in *; lia.
Qed.

Lemma length_strip (s : string) : (String.length (strip s) <= String.length s)%nat.
Proof.
  unfold strip. etransitivity; [apply length_lstrip_by|apply length_rstrip_by].
Qed.

(** The average of no score is 0; the average of some scores lies
    between any two bounds on them that a float holds exactly. *)
Lemma avg_score_range (research_data : list ResearchItem) (a b : Z) :
  research_data <> [] \/ (a <= 0 <= b)%Z ->
  (Z.abs a <= 2 ^ 53)%Z -> (Z.abs b <= 2 ^ 53)%Z ->
  List.Forall (fun r => (a <= score r <= b)%Z) research_data ->
  inject_Z a <= avg_heuristic_score (assess_signal research_data) <= inject_Z b.
Proof.
  unfold assess_signal. cbn [avg_heuristic_score].
  intros Hne Ba Bb Hall.
  assert (Hs : List.Forall (fun z => (a <= z <= b)%Z) (map score research_data)).
  { apply List.Forall_map. exact Hall. }
  pose proof (sum_scores_range _ a b Hs) as [Hlo Hhi].
  assert (Hab : map score research_data = [] -> (a <= 0 <= b)%Z).
  { intros Em. destruct Hne as [Hne|Hab]; [|exact Hab].
    destruct research_data; [congruence|discriminate]. }
  apply py_round_range; [exact Ba|exact Bb|..].
  - destruct (map score research_data) as [|z zs] eqn:Em.
    + specialize (Hab eq_refl). unfold Qle. simpl. lia.
    + rewrite <- Em in *. unfold Qle. simpl.
      rewrite Zpos_of_nat by (rewrite Em; simpl; lia). lia.
  - destruct (map score research_data) as [|z zs] eqn:Em.
    + specialize (Hab eq_refl). unfold Qle. simpl. lia.
    + rewrite <- Em in *. unfold Qle. simpl.
      rewrite Zpos_of_nat by (rewrite Em; simpl; lia). lia.
Qed.

(** X8. The signal report counts every item, never more pages with
    content or with a summary than items, and never more pages with
    content than characters of content; the confidence is HIGH above 5000
    characters, MEDIUM above 2000 and LOW otherwise.  The average score
    of no item is 0; the average score of one item or more lies between
    any two integers that bound the score of every item and are at most
    2^53 in magnitude, the integers that a float holds exactly. *)
Theorem signal_shape (research_data : list ResearchItem) :
  let signal := assess_signal research_data in
  total_urls signal = length research_data
  /\ (urls_with_content signal <= total_urls signal)%nat
  /\ (urls_with_summaries signal <= total_urls signal)%nat
  /\ (urls_with_content signal <= total_content_chars signal)%nat
  /\ (confidence signal = "HIGH" <-> (5000 < total_content_chars signal)%nat)
  /\ (confidence signal = "MEDIUM" <-> (2000 < total_content_chars signal <= 5000)%nat)
  /\ (confidence signal = "LOW" <-> (total_content_chars signal <= 2000)%nat)
  /\ (research_data = [] -> avg_heuristic_score signal == 0)
  /\ forall a b : Z,
       research_data <> [] ->
       (Z.abs a <= 2 ^ 53)%Z -> (Z.abs b <= 2 ^ 53)%Z ->
       List.Forall (fun r => (a <= score r <= b)%Z) research_data ->
       inject_Z a <= avg_heuristic_score signal <= inject_Z b.
Proof.
  cbv zeta. unfold assess_signal.
  cbn [total_urls urls_with_content urls_with_summaries total_content_chars
       confidence avg_heuristic_score].
  split; [reflexivity|]. split; [apply count_if_le|]. split; [apply count_if_le|].
  split.
  { unfold count_if. induction research_data as [|r rd IH]; simpl; [lia|].
    destruct (truthy (strip (content r))) eqn:E; simpl; [|lia].
    apply truthy_length in E. pose proof (length_strip (content r)). lia. }
  set (chars := list_sum _).
  split; [|split; [|split; [|split]]].
  - destruct (5000 <? chars)%nat eqn:E5; [apply Nat.ltb_lt in E5; tauto|].
    apply Nat.ltb_ge in E5.
    destruct (2000 <? chars)%nat; split; intros H; try discriminate; lia.
  - destruct (5000 <? chars)%nat eqn:E5;
      [apply Nat.ltb_lt in E5; split; intros H; [discriminate|lia]|].
    apply Nat.ltb_ge in E5.
    destruct (2000 <? chars)%nat eqn:E2.
    + apply Nat.ltb_lt in E2. split; [lia|reflexivity].
    + apply Nat.ltb_ge in E2. split; intros H; [discriminate|lia].
  - destruct (5000 <? chars)%nat eqn:E5;
      [apply Nat.ltb_lt in E5; split; intros H; [discriminate|lia]|].
    apply Nat.ltb_ge in E5.
    destruct (2000 <? chars)%nat eqn:E2.
    + apply Nat.ltb_lt in E2. split; intros H; [discriminate|lia].
    + apply Nat.ltb_ge in E2. split; [lia|reflexivity].
  - intros ->. reflexivity.
  - intros a b Hne Ba Bb Hall. apply avg_score_range; auto.
Qed.

End ReportBounds.

(** ** Stages that call out: what they absorb and what they leave behind *)

Section Calls.

Import Intel IntelStages.

Lemma after_after (st : state) (l1 l2 : list string) (c1 c2 : list event) :
  after (after st l1 c1) l2 c2 = after st (l1 ++ l2) (c1 ++ c2).
Proof. unfold after. cbn. now rewrite <- !app_assoc. Qed.

Lemma after_nothing (st : state) : after st [] [] = st.
Proof. unfold after. rewrite !app_nil_r. now destruct st. Qed.

Lemma length_omap {A B : Type} (f : A -> option B) (l : list A) :
  (length (omap f l) <= length l)%nat.
Proof.
  induction l as [|x l IH]; [reflexivity|].
  cbn. destruct (f x); simpl; lia.
Qed.

Lemma size_list_to_set_le (l : list string) :
  (size (list_to_set l : gset string) <= length l)%nat.
Proof.
  induction l as [|x l IH].
  - rewrite list_to_set_nil, size_empty. reflexivity.
  - rewrite list_to_set_cons, size_union_alt, size_singleton.
    assert (Hsub : list_to_set l ∖ {[x]} ⊆ (list_to_set l : gset string))
      by apply subseteq_difference_l, reflexivity.
    apply subseteq_size in Hsub. simpl. lia.
Qed.

Lemma count_domains_le (results : list ResearchItem) :
  (Research._count_domains results <= 5)%nat
  /\ (Research._count_domains results <= length results)%nat.
Proof.
  unfold Research._count_domains.
  pose proof (size_list_to_set_le
                (omap (fun r => Research.host_of (url r)) (firstn 5 results))) as H1.
  pose proof (length_omap (fun r => Research.host_of (url r)) (firstn 5 results)) as H2.
  rewrite length_firstn in H2. lia.
Qed.

Lemma check_competitive_intensity_returns (E : env) (gap_phrase niche : string)
    (st : state) :
  fails_only catches_runtime
             (bing E (dquote +:+ gap_phrase +:+ dquote +:+ " " +:+ niche)) ->
  exists i,
    Research.check_competitive_intensity E gap_phrase niche st
    = (Ok i, after st [] [probe niche gap_phrase])
    /\ Research.gap i = gap_phrase.
Proof.
  intros Hfail. unfold Research.check_competitive_intensity, bind, emit, try_except, call, ret.
  unfold after, probe. rewrite app_nil_r.
  destruct (bing E _) as [[count parsed]|e] eqn:Eb.
  - eexists. split; reflexivity.
  - rewrite (Hfail e eq_refl). eexists. split; reflexivity.
Qed.

(** X9. A competitive check makes exactly one search and never fails
    when the search fails with a [RuntimeError]: its level is then
    "UNKNOWN", with a result count of -1.  In every case it echoes the
    gap phrase, reports at most five distinct domains and one of the
    levels LOW, MEDIUM, HIGH and UNKNOWN. *)
Theorem competitive_intensity_total (E : env) (gap_phrase niche : string) (st : state) :
  fails_only catches_runtime
             (bing E (dquote +:+ gap_phrase +:+ dquote +:+ " " +:+ niche)) ->
  exists (i : Research.Intensity) (st' : state),
    Research.check_competitive_intensity E gap_phrase niche st = (Ok i, st')
    /\ st_events st' = (st_events st ++ [probe niche gap_phrase])%list
    /\ st_log st' = st_log st
    /\ Research.gap i = gap_phrase
    /\ (Research.unique_domains i <= 5)%nat
    /\ In (Research.intensity_level i) ["LOW"; "MEDIUM"; "HIGH"; "UNKNOWN"]
    /\ (Research.intensity_level i = "UNKNOWN"
        <-> exists e, bing E (dquote +:+ gap_phrase +:+ dquote +:+ " " +:+ niche) = Raise e)
    /\ (Research.intensity_level i = "UNKNOWN" ->
        Research.result_count i = (-1)%Z /\ Research.unique_domains i = 0%nat).
Proof.
  intros Hfail. unfold Research.check_competitive_intensity, bind, emit, try_except, call, ret.
  destruct (bing E _) as [[count parsed]|e] eqn:Eb.
  - eexists _, _. split; [reflexivity|].
    cbn [st_events st_log Research.gap Research.unique_domains Research.intensity_level
         Research.result_count].
    split; [reflexivity|]. split; [reflexivity|]. split; [reflexivity|].
    split; [apply count_domains_le|].
    assert (Hlevel : forall level : string,
               level = "LOW" \/ level = "MEDIUM" \/ level = "HIGH" ->
               In level ["LOW"; "MEDIUM"; "HIGH"; "UNKNOWN"]
               /\ (level = "UNKNOWN" <-> exists e : exn, @Ok (Z * list ResearchItem) (count, parsed) = Raise e)
               /\ (level = "UNKNOWN" ->
                   count = (-1)%Z /\ Research._count_domains parsed = 0%nat)).
    { intros level Hl. split; [destruct Hl as [ -> | [ -> | -> ] ]; simpl; auto|]. split.
      - split; [intros ->; destruct Hl as [H|[H|H]]; discriminate|intros [e He]; discriminate].
      - intros ->. destruct Hl as [H|[H|H]]; discriminate. }
    apply Hlevel.
    destruct (count <? 0)%Z.
    + destruct (length parsed <? 3)%nat; [auto|].
      destruct (Research._count_domains parsed <=? 3)%nat; auto.
    + destruct ((count <? 10000)%Z && (Research._count_domains parsed <=? 3)%nat); [auto|].
      destruct (count <? 100000)%Z; auto.
  - rewrite (Hfail e eq_refl). eexists _, _. split; [reflexivity|].
    cbn [st_events st_log Research.gap Research.unique_domains Research.intensity_level
         Research.result_count].
    split; [reflexivity|]. split; [reflexivity|]. split; [reflexivity|].
    split; [lia|]. split; [simpl; auto|]. split; [|auto].
    split; [intros _; now exists e|reflexivity].
Qed.

Lemma probes_return (E : env) (niche : string) (gs : list GapResult) (st : state) :
  (forall q, fails_only catches_runtime (bing E q)) ->
  exists out,
    mapM (fun g => Research.check_competitive_intensity E (subdomain g) niche) gs st
    = (Ok out, after st [] (map (fun g => probe niche (subdomain g)) gs))
    /\ map Research.gap out = map subdomain gs.
Proof.
  intros Hfail. revert st. induction gs as [|g gs IH]; intros st.
  - exists []. cbn. rewrite after_nothing. split; reflexivity.
  - destruct (check_competitive_intensity_returns E (subdomain g) niche st (Hfail _))
      as (i & Hi & Hg).
    destruct (IH (after st [] [probe niche (subdomain g)])) as (out & Hout & Hgs).
    exists (i :: out). cbn [mapM]. unfold bind at 1. rewrite Hi.
    unfold bind at 1. rewrite Hout. unfold ret. rewrite after_after.
    split; [reflexivity|]. cbn. now rewrite Hg, Hgs.
Qed.

Lemma firstn_min_length {A : Type} (n : nat) (l : list A) :
  firstn (Nat.min n (length l)) l = firstn n l.
Proof.
  destruct (Nat.le_ge_cases n (length l)) as [H|H].
  - now rewrite Nat.min_l.
  - rewrite Nat.min_r by exact H. rewrite firstn_all.
    symmetry. now apply firstn_all2.
Qed.

(** X10. The competitive checks probe the first five gaps of the gap
    report, in order, one search each, and return one result per probed
    gap; with no gap they make no search and log nothing.  A search that
    fails with a [RuntimeError] does not stop them. *)
Theorem competitive_checks_probe_first_gaps (E : env) (gap_results : list GapResult)
    (niche : string) (st : state) :
  (forall q, fails_only catches_runtime (bing E q)) ->
  let probed := firstn 5 (List.filter is_gap gap_results) in
  exists (out : list Research.Intensity) (st' : state),
    run_competitive_checks E gap_results niche st = (Ok out, st')
    /\ map Research.gap out = map subdomain probed
    /\ length out = Nat.min 5 (count_if is_gap gap_results)
    /\ st_events st' = (st_events st ++ map (fun g => probe niche (subdomain g)) probed)%list
    /\ (probed = [] -> st' = st).
Proof.
  intros Hfail. cbv zeta. unfold run_competitive_checks, count_if.
  destruct (List.filter is_gap gap_results) as [|g gs].
  - exists [], st. cbn. rewrite app_nil_r. repeat split.
  - rewrite firstn_min_length. set (probed := firstn 5 (g :: gs)).
    destruct (probes_return E niche probed
                (mkState (st_log st ++ ["Checking competitive intensity for " +:+
                                        fmt_nat (Nat.min 5 (length (g :: gs))) +:+ " gaps."])
                         (st_fs st) (st_events st) (st_ticks st))
                Hfail) as (out & Hout & Hgaps).
    exists out. eexists. unfold bind, log_append.
    split; [exact Hout|]. split; [exact Hgaps|]. split.
    + assert (Hl : length (map Research.gap out) = length (map subdomain probed))
        by now rewrite Hgaps.
      rewrite !length_map in Hl. rewrite Hl. unfold probed.
      apply length_firstn.
    + split; [reflexivity|].
      unfold probed. discriminate.
Qed.

(** X11. Subdomain generation sends one prompt and always returns
    between 5 and 15 subdomains: when the backend fails with a
    [ConnectionError] or a [RuntimeError], or when fewer than five usable
    lines come back, it returns the fifteen fallback subdomains; it logs
    one line in every case. *)
Theorem dynamic_subdomains_total (E : env) (st : state) :
  fails_only catches_backend (reply_subdomains E) ->
  exists (out : list string) (st' : state),
    generate_dynamic_subdomains E st = (Ok out, st')
    /\ (5 <= length out <= 15)%nat
    /\ st_events st' = (st_events st ++ [EvPrompt "subdomains"])%list
    /\ (exists line, st_log st' = (st_log st ++ [line])%list)
    /\ st_fs st' = st_fs st
    /\ ((exists e, reply_subdomains E = Raise e) -> out = _fallback_subdomains).
Proof.
  intros Hfail.
  unfold generate_dynamic_subdomains, try_except, bind, emit, call, log_append, ret.
  destruct (reply_subdomains E) as [raw|e] eqn:Er.
  - match goal with |- context [(length ?c <? 5)%nat] => set (cleaned := c) end.
    destruct (length cleaned <? 5)%nat eqn:El.
    + eexists _, _. split; [reflexivity|]. cbn [st_events st_log st_fs].
      split; [vm_compute; lia|]. split; [reflexivity|]. split; [eauto|].
      split; [reflexivity|]. intros [e He]. discriminate.
    + apply Nat.ltb_ge in El. eexists _, _. split; [reflexivity|].
      cbn [st_events st_log st_fs].
      split.
      { split; [exact El|]. unfold cleaned. rewrite length_firstn. lia. }
      split; [reflexivity|]. split; [eauto|].
      split; [reflexivity|]. intros [e He]. discriminate.
  - rewrite (Hfail e eq_refl). eexists _, _. split; [reflexivity|].
    cbn [st_events st_log st_fs].
    split; [vm_compute; lia|]. split; [reflexivity|]. split; [eauto|].
    split; [reflexivity|]. reflexivity.
Qed.

End Calls.

(** ** The two passes of strategy generation when one of them fails *)

Section StrategyFailures.

Import Strategy.

(** X12. A draft whose stripped text is shorter than 100 characters
    makes strategy generation fail with a [RuntimeError] right after the
    first prompt: the refine prompt is not sent and nothing more is
    logged. *)
Theorem strategy_short_draft_rejected (E : env) (raw : string) (st : state) :
  reply_draft E = Ok raw ->
  (String.length (strip raw) < 100)%nat ->
  generate_strategy E st
  = (Raise (Exn RuntimeError "Strategy Pass 1 insufficient output."),
     after st ["Strategy Pass 1: Generating..."] [EvPrompt "strategy draft"]).
Proof.
  intros Hdraft Hlen.
  unfold generate_strategy, bind, log_append, emit, call, raise, after.
  cbn [st_log st_fs st_events st_ticks]. rewrite Hdraft.
  apply Nat.ltb_lt in Hlen. rewrite Hlen, orb_true_r. reflexivity.
Qed.

(** X13. When the draft is long enough and the refine call fails with a
    [ConnectionError] or a [RuntimeError], strategy generation still
    succeeds: the draft is the final text, it is what the sections are
    split from, and the last log line says that the second pass failed. *)
Theorem strategy_refine_failure_keeps_draft (E : env) (raw : string) (e : exn)
    (st : state) :
  reply_draft E = Ok raw ->
  (100 <= String.length (strip raw))%nat ->
  reply_refine E = Raise e ->
  catches_backend (exn_kind_of e) = true ->
  exists (sections : gmap string string) (st' : state),
    generate_strategy E st = (Ok sections, st')
    /\ sections !! "_raw" = Some raw
    /\ sections !! "_pass1" = Some raw
    /\ (forall k, k <> "_raw" -> k <> "_pass1" ->
          sections !! k = _split_sections raw !! k)
    /\ last (st_log st') = Some "Pass 2 failed. Using Pass 1."
    /\ st_events st'
       = (st_events st ++ [EvPrompt "strategy draft"; EvPrompt "strategy refine"])%list.
Proof.
  intros Hdraft Hlen Hrefine Hkind.
  assert (Hraw : truthy raw = true) by (apply truthy_true, strip_nonempty; lia).
  assert (Hshort : (String.length (strip raw) <? 100)%nat = false)
    by (apply Nat.ltb_ge; exact Hlen).
  unfold generate_strategy, refine_pass, try_except, bind, log_append, emit, call, ret.
  cbn [st_log st_fs st_events st_ticks].
  rewrite Hdraft, Hraw, Hshort. cbn [negb orb].
  cbn [st_log st_fs st_events st_ticks].
  rewrite Hrefine, Hkind.
  eexists _, _. split; [reflexivity|].
  split; [rewrite lookup_insert_ne by discriminate; apply lookup_insert_eq|].
  split; [apply lookup_insert_eq|].
  split.
  { intros k H1 H2. now rewrite !lookup_insert_ne by congruence. }
  cbn [st_log st_events]. split; [apply last_snoc|].
  now rewrite <- app_assoc.
Qed.

Lemma fill_sections_dom (raw : string) (bs : list boundary) :
  dom (fill_sections raw bs ∅) = (list_to_set (map b_key bs) : gset string).
Proof.
  apply set_eq. intros k. rewrite elem_of_dom, fill_sections_keys, elem_of_list_to_set.
  rewrite lookup_empty. split; [intros [H|H]; [exact H|]|auto].
  now apply is_Some_None in H.
Qed.

(** X14. Section splitting never returns an empty dict: it returns
    either the whole text under "full_strategy", or between three and six
    of the six named sections, one per header found, and no
    "full_strategy".  No key it produces starts with an underscore. *)
Theorem split_sections_shape (raw : string) :
  let sections := _split_sections raw in
  let names := ["positioning"; "pillars"; "hooks"; "scripts"; "ctas"; "calendar"] in
  (sections = {[ "full_strategy" := raw ]}
   \/ ((3 <= size sections <= 6)%nat
       /\ size sections = length (boundaries_of raw)
       /\ sections !! "full_strategy" = None
       /\ forall k, is_Some (sections !! k) -> In k names))
  /\ forall k, is_Some (sections !! k) -> startswith "_" k = false.
Proof.
  cbv zeta.
  assert (Hsub : map b_key (boundaries_of raw) `sublist_of` map fst patterns)
    by apply located_keys_sublist.
  assert (Hkeys : forall k, k ∈ map b_key (stable_sort by_start (boundaries_of raw)) ->
                            In k ["positioning"; "pillars"; "hooks"; "scripts"; "ctas"; "calendar"]).
  { intros k Hk. rewrite (stable_sort_perm by_start (boundaries_of raw)) in Hk.
    apply list_elem_of_In. exact (elem_of_sublist _ _ _ Hk Hsub). }
  unfold _split_sections. destruct (length (boundaries_of raw) <? 3)%nat eqn:El.
  - split; [now left|].
    intros k [v Hk]. apply lookup_singleton_Some in Hk as [<- _]. reflexivity.
  - apply Nat.ltb_ge in El. split.
    + right.
      assert (Hsize : size (fill_sections raw (stable_sort by_start (boundaries_of raw)) ∅)
                      = length (boundaries_of raw)).
      { rewrite <- size_dom, fill_sections_dom, size_list_to_set.
        - now rewrite length_map, stable_sort_length.
        - rewrite (stable_sort_perm by_start (boundaries_of raw)).
          apply located_keys_nodup. }
      split.
      { rewrite Hsize. split; [exact El|].
        apply sublist_length in Hsub. rewrite !length_map in Hsub.
        exact Hsub. }
      split; [exact Hsize|]. split.
      * apply eq_None_not_Some. intros H. apply fill_sections_keys in H as [H|H].
        -- apply Hkeys in H. simpl in H. intuition discriminate.
        -- rewrite lookup_empty in H. now apply is_Some_None in H.
      * intros k H. apply fill_sections_keys in H as [H|H]; [now apply Hkeys|].
        rewrite lookup_empty in H. now apply is_Some_None in H.
    + intros k H. apply fill_sections_keys in H as [H|H].
      * apply Hkeys in H. simpl in H.
        destruct H as [<-|[<-|[<-|[<-|[<-|[<-|[]]]]]]]; reflexivity.
      * rewrite lookup_empty in H. now apply is_Some_None in H.
Qed.

End StrategyFailures.

(** ** Searching *)

Section Searching.

Lemma search_step_returns (ev : event) (o : outcome (list ResearchItem))
    (on_ok : nat -> string) (on_fail : string -> string) (st : state) :
  fails_only catches_runtime o ->
  exists line,
    search_step ev o on_ok on_fail st
    = (Ok (match o with Ok parsed => parsed | Raise _ => [] end),
       after st [line] [ev]).
Proof.
  intros Hfail. unfold search_step, bind, emit, try_except, call, log_append, ret, after.
  destruct o as [parsed|e]; cbn [st_log st_fs st_events st_ticks].
  - eexists. reflexivity.
  - rewrite (Hfail e eq_refl). cbn [st_log st_fs st_events st_ticks].
    eexists. reflexivity.
Qed.

Lemma bing_results_fails_only (o : outcome (Z * list ResearchItem)) :
  fails_only catches_runtime o -> fails_only catches_runtime (bing_results o).
Proof.
  intros H e He. destruct o as [[count parsed]|e']; [discriminate|].
  injection He as <-. now apply H.
Qed.

(** X15. When the search providers fail only with [RuntimeError], the
    search phase never fails.  It makes one, two or three searches: the
    primary query, then the enriched query, then the fallback provider,
    each only while fewer than five results are in.  In particular five
    results from the primary query end the search at once, and fewer than
    five results are returned only after all three searches. *)
Theorem collect_results_searches (E : env) (niche platform : string) (st : state) :
  (forall q, fails_only catches_runtime (ddg E q)) ->
  (forall q, fails_only catches_runtime (bing E q)) ->
  let q0 := fst (Research.build_queries E niche platform) in
  let q1 := snd (Research.build_queries E niche platform) in
  exists (out : list ResearchItem) (st' : state) (searches : list event),
    collect_results E niche platform st = (Ok out, st')
    /\ st_events st' = (st_events st ++ searches)%list
    /\ st_fs st' = st_fs st
    /\ (searches = [EvSearchDDG q0]
        \/ searches = [EvSearchDDG q0; EvSearchDDG q1]
        \/ searches = [EvSearchDDG q0; EvSearchDDG q1; EvSearchBing q0])
    /\ ((length out < 5)%nat ->
        searches = [EvSearchDDG q0; EvSearchDDG q1; EvSearchBing q0])
    /\ (forall r, ddg E q0 = Ok r -> (5 <= length r)%nat ->
          out = r /\ searches = [EvSearchDDG q0]).
Proof.
  intros Hddg Hbing. cbv zeta. unfold collect_results.
  destruct (Research.build_queries E niche platform) as [q0 q1]. cbn [fst snd].
  unfold bind at 1. unfold log_append at 1. unfold bind at 1.
  match goal with |- context [search_step ?ev ?o ?f ?g ?s] =>
    destruct (search_step_returns ev o f g s (Hddg _)) as [line1 H1] end.
  rewrite H1. clear H1.
  set (r1 := match ddg E q0 with Ok parsed => parsed | Raise _ => [] end).
  assert (Hr1 : forall r, ddg E q0 = Ok r -> r1 = r).
  { intros r Hr. unfold r1. now rewrite Hr. }
  unfold bind at 1.
  destruct (length r1 <? 5)%nat eqn:E1.
  - unfold bind at 1. unfold log_append at 1. unfold bind at 1.
    match goal with |- context [search_step ?ev ?o ?f ?g ?s] =>
      destruct (search_step_returns ev o f g s (Hddg _)) as [line2 H2] end.
    rewrite H2. clear H2. unfold ret at 1.
    set (r2 := match ddg E q1 with Ok parsed => parsed | Raise _ => [] end).
    destruct (length (r1 ++ r2) <? 5)%nat eqn:E2.
    + unfold bind at 1. unfold log_append at 1. unfold bind at 1.
      match goal with |- context [search_step ?ev ?o ?f ?g ?s] =>
        destruct (search_step_returns ev o f g s (bing_results_fails_only _ (Hbing _)))
          as [line3 H3] end.
      rewrite H3. clear H3. unfold ret.
      eexists _, _, [EvSearchDDG q0; EvSearchDDG q1; EvSearchBing q0].
      split; [reflexivity|]. unfold after. cbn [st_events st_fs].
      split; [now rewrite <- !app_assoc|]. split; [reflexivity|].
      split; [auto|]. split; [auto|].
      intros r Hr Hlen. apply Hr1 in Hr. subst r. apply Nat.ltb_lt in E1. lia.
    + unfold ret.
      eexists _, _, [EvSearchDDG q0; EvSearchDDG q1].
      split; [reflexivity|]. unfold after. cbn [st_events st_fs].
      split; [now rewrite <- !app_assoc|]. split; [reflexivity|].
      split; [auto|]. apply Nat.ltb_ge in E2. split; [intros H; lia|].
      intros r Hr Hlen. apply Hr1 in Hr. subst r. apply Nat.ltb_lt in E1. lia.
  - unfold ret at 1. rewrite E1. unfold ret.
    eexists _, _, [EvSearchDDG q0].
    split; [reflexivity|]. unfold after. cbn [st_events st_fs].
    split; [reflexivity|]. split; [reflexivity|].
    split; [auto|]. apply Nat.ltb_ge in E1. split; [intros H; lia|].
    intros r Hr _. apply Hr1 in Hr. auto.
Qed.

End Searching.

(** ** The research stage: cache use and the shape of fresh results *)

Section ResearchStage.

Import Intel IntelStages.
Local Open Scope Q_scope.

Ltac cache_miss :=
  intros [= <- <-]; repeat split; try reflexivity;
  [ discriminate
  | let Hb := fresh "Hb" in
    let Hr := fresh "Hr" in
    let Ha := fresh "Ha" in
    intros (? & [= <-] & Ha & Hr & Hb); congruence ].

Lemma load_cache_hit (E : env) (niche platform : string) (st : state)
    (o : outcome (list json)) (st1 : state) :
  _load_cache E niche platform st = (o, st1) ->
  st_fs st1 = st_fs st /\ st_events st1 = st_events st /\ st_log st1 = st_log st
  /\ forall x data,
       o = Ok (x :: data)
       <-> exists f,
             st_fs st !! _cache_path E niche platform = Some f
             /\ time_at E (st_ticks st) - mtime f <= 24 * 3600
             /\ readable f = true
             /\ body f = Document (JList (x :: data)).
Proof.
  unfold _load_cache.
  destruct (st_fs st !! _cache_path E niche platform) as [f|] eqn:Ef.
  2:{ unfold ret. intros [= <- <-]. repeat split; try reflexivity.
      - discriminate.
      - intros (f & Hf & _). discriminate. }
  unfold bind, clock.
  assert (Hage : Qltb CACHE_MAX_AGE_HOURS ((time_at E (st_ticks st) - mtime f) / 3600) = false
                 <-> time_at E (st_ticks st) - mtime f <= 24 * 3600).
  { rewrite Qltb_ge. unfold CACHE_MAX_AGE_HOURS. split; intros H.
    - apply (Qmult_le_compat_r _ _ 3600) in H; [|discriminate].
      rewrite Qmult_comm, Qmult_div_r in H by discriminate. exact H.
    - apply Qle_shift_div_r; [reflexivity|]. exact H. }
  destruct (Qltb CACHE_MAX_AGE_HOURS _) eqn:Eq.
  { unfold ret. intros [= <- <-]. repeat split; try reflexivity.
    - discriminate.
    - intros (f' & [= <-] & Ha & _). apply Hage in Ha. discriminate. }
  destruct (readable f) eqn:Er; cbn [negb]; unfold ret, raise.
  2:{ cache_miss. }
  destruct (body f) as [j| |] eqn:Eb; [|cache_miss|cache_miss].
  destruct j as [| | | | |l|]; try cache_miss.
  destruct l as [|x0 l]; [cache_miss|].
  intros [= <- <-]. repeat split; try reflexivity.
  - intros [= -> ->]. exists f. split; [reflexivity|]. split; [now apply Hage|]. auto.
  - intros (f' & [= <-] & _ & _ & Hb). congruence.
Qed.

Lemma fresh_branch_not_cached (E : env) (niche platform : string) (st1 st' : state)
    (entries : list json) :
  (all_results <- collect_results E niche platform ;;
   let deduped := _dedup all_results in
   match deduped with
   | [] => log_append "No results from any search engine." ;;; ret (Fresh [])
   | _ =>
       let deduped := firstn 12 deduped in
       let deduped := score_and_sort deduped in
       deduped <- extract_contents E deduped ;;
       deduped <- summarize_all E deduped ;;
       _save_cache E niche platform deduped ;;;
       ret (Fresh deduped)
   end) st1 <> (Ok (Cached entries), st').
Proof.
  unfold bind.
  destruct (collect_results E niche platform st1) as [[all|e] st2]; [|discriminate].
  destruct (_dedup all) as [|d ds]; [unfold log_append, ret; discriminate|].
  destruct (extract_contents E _ st2) as [[l1|e] st3]; [|discriminate].
  destruct (summarize_all E l1 st3) as [[l2|e] st4]; [|discriminate].
  destruct (_save_cache E niche platform l2 st4) as [[u|e] st5]; [|discriminate].
  unfold ret. discriminate.
Qed.

(** X16. The research stage answers from the cache exactly when the
    entry for the niche and platform exists, is at most 24 hours old, can
    be opened and holds a non-empty JSON list; it then returns that list
    as it is, logs one line, makes no search, fetches no page, sends no
    prompt and leaves the cache directory untouched. *)
Theorem research_niche_cache_hit_iff (E : env) (niche platform : string) (st : state)
    (entries : list json) :
  ((exists st', research_niche E niche platform st = (Ok (Cached entries), st'))
   <-> exists f,
         st_fs st !! _cache_path E niche platform = Some f
         /\ time_at E (st_ticks st) - mtime f <= 24 * 3600
         /\ readable f = true
         /\ body f = Document (JList entries)
         /\ entries <> [])
  /\ forall st',
       research_niche E niche platform st = (Ok (Cached entries), st') ->
       st_events st' = st_events st
       /\ st_fs st' = st_fs st
       /\ st_log st'
          = (st_log st ++ ["Loaded " +:+ fmt_nat (length entries) +:+
                           " results from cache."])%list.
Proof.
  unfold research_niche, bind.
  destruct (_load_cache E niche platform st) as [o st1] eqn:El.
  destruct (load_cache_hit E niche platform st o st1 El) as (Hfs & Hev & Hlog & Hhit).
  destruct o as [[|x data]|e].
  - split.
    + split.
      * intros [st' H]. exfalso. eapply fresh_branch_not_cached. exact H.
      * intros (f & Hf & Ha & Hr & Hb & Hne). destruct entries as [|y entries]; [congruence|].
        assert (@Ok (list json) [] = Ok (y :: entries)); [|discriminate].
        apply Hhit. exists f. auto.
    + intros st' H. exfalso. eapply fresh_branch_not_cached. exact H.
  - unfold log_append, ret. split.
    + split.
      * intros [st' [= <- _]]. destruct (proj1 (Hhit x data) eq_refl) as (f & Hf & Ha & Hr & Hb).
        exists f. repeat split; try assumption. discriminate.
      * intros (f & Hf & Ha & Hr & Hb & Hne). destruct entries as [|y entries]; [congruence|].
        assert (H : @Ok (list json) (x :: data) = Ok (y :: entries)).
        { apply Hhit. exists f. auto. }
        injection H as -> ->. eexists. reflexivity.
    + intros st' [= <- <-]. cbn [st_events st_fs st_log]. rewrite Hfs, Hev, Hlog. auto.
  - split.
    + split.
      * intros [st' H]. discriminate.
      * intros (f & Hf & Ha & Hr & Hb & Hne). destruct entries as [|y entries]; [congruence|].
        assert (@Raise (list json) e = Ok (y :: entries)); [|discriminate].
        apply Hhit. exists f. auto.
    + intros st' H. discriminate.
Qed.

End ResearchStage.

(** ** Freshly researched items *)

Section FreshItems.

Import Intel IntelStages.

Lemma StronglySorted_weaken {A : Type} (R R' : A -> A -> Prop) (l : list A) :
  (forall a b, R a b -> R' a b) -> StronglySorted R l -> StronglySorted R' l.
Proof.
  intros HR. induction 1 as [|a l Hs IH Ha]; constructor; [exact IH|].
  eapply List.Forall_impl; [|exact Ha]. auto.
Qed.

Lemma mapM_Forall2 {S A B : Type} (R : A -> B -> Prop) (f : A -> MS S B) (l : list A) :
  (forall a st b st', f a st = (Ok b, st') -> R a b) ->
  forall st out st', mapM f l st = (Ok out, st') -> Forall2 R l out.
Proof.
  intros Hf. induction l as [|a l IH]; intros st out st'; simpl.
  - unfold ret. intros [= <- _]. constructor.
  - unfold bind. destruct (f a st) as [[b|e] st1] eqn:Ea; [|discriminate].
    destruct (mapM f l st1) as [[bs|e] st2] eqn:El; [|discriminate].
    unfold ret. intros [= <- _]. constructor; eauto.
Qed.

Lemma Forall2_same_length_lookup {A B : Type} (R : A -> B -> Prop) (l : list A) (k : list B)
    (i : nat) (b : B) :
  Forall2 R l k -> k !! i = Some b -> exists a, l !! i = Some a /\ R a b.
Proof.
  intros H. revert i. induction H as [|a b' l k Hab _ IH]; intros i Hi; [discriminate|].
  destruct i as [|i]; simpl in *.
  - injection Hi as <-. eauto.
  - eauto.
Qed.

Lemma score_and_sort_shape (l : list ResearchItem) :
  by_score_desc (score_and_sort l)
  /\ Permutation (map url_key (score_and_sort l)) (map url_key l)
  /\ List.Forall (fun r => score r = compute_heuristic_score (title r) (snippet r)
                           /\ content r = "" /\ summary r = "")
                 (score_and_sort l).
Proof.
  unfold score_and_sort, by_score_desc.
  set (f := fun r => mkItem (title r) (snippet r) (url r) ""
                            (compute_heuristic_score (title r) (snippet r)) "").
  set (le := fun x y : ResearchItem => (score y <=? score x)%Z).
  split; [|split].
  - assert (Hs : StronglySorted (fun a b => le a b = true) (stable_sort le (map f l))).
    { apply stable_sort_ordered.
      - intros x y. unfold le. rewrite !Z.leb_le. lia.
      - intros x y z. unfold le. rewrite !Z.leb_le. lia. }
    eapply StronglySorted_weaken; [|exact Hs].
    intros a b H. cbv beta in H. unfold le in H. now apply Z.leb_le in H.
  - rewrite (stable_sort_perm le (map f l)). rewrite map_map. reflexivity.
  - apply List.Forall_forall. intros r Hr.
    apply (Permutation_in _ (stable_sort_perm le (map f l))) in Hr.
    apply in_map_iff in Hr as (r0 & <- & _). unfold f.
    cbn [score title snippet content summary]. auto.
Qed.

Lemma lookup_map_firstn_skipn {A : Type} (f : A -> A) (n i : nat) (l : list A) :
  (n <= i)%nat -> (map f (firstn n l) ++ skipn n l)%list !! i = l !! i.
Proof.
  intros Hn.
  destruct (Nat.le_gt_cases (length l) n) as [Hl|Hl].
  - rewrite firstn_all2, skipn_all2, app_nil_r by exact Hl.
    rewrite !lookup_ge_None_2; [reflexivity|lia|rewrite length_map; lia].
  - assert (Hlen : length (map f (firstn n l)) = n)
      by (rewrite length_map, length_firstn; lia).
    rewrite lookup_app_r by (rewrite Hlen; exact Hn).
    rewrite Hlen, lookup_drop. f_equal. lia.
Qed.

Lemma extract_contents_shape (E : env) (l out : list ResearchItem) (st st' : state) :
  extract_contents E l st = (Ok out, st') ->
  Forall2 (fun a b => same_page a b /\ summary b = summary a
                      /\ (content b = content a
                          \/ (300 <= String.length (content b) <= 1200)%nat)) l out
  /\ forall i a b, (5 <= i)%nat -> l !! i = Some a -> out !! i = Some b -> b = a.
Proof.
  unfold extract_contents, bind.
  destruct (mapM _ _ st) as [[u|e] st1]; [|discriminate].
  unfold log_append, ret. intros [= <- _].
  set (n := Nat.min CONTENT_EXTRACT_LIMIT (length l)).
  split.
  - rewrite <- (firstn_skipn n l) at 1. apply Forall2_app.
    + apply Forall2_fmap_r. apply Forall_Forall2_diag. apply List.Forall_forall.
      intros r _. unfold compose. cbv beta zeta.
      destruct (truthy (extract_page_content (page E (url r)))) eqn:Et.
      * unfold same_page, set_content.
        cbn [score title snippet content summary url].
        split; [repeat split|]. split; [reflexivity|]. right.
        destruct (page_content_bounds (page E (url r))) as [H|H]; [|exact H].
        rewrite H in Et. discriminate.
      * unfold same_page. split; [repeat split|]. split; [reflexivity|]. now left.
    + apply Forall_Forall2_diag. apply List.Forall_forall. intros r _.
      unfold same_page. split; [repeat split|]. split; [reflexivity|]. now left.
  - intros i a b Hi Ha Hb.
    rewrite lookup_map_firstn_skipn in Hb
      by exact (Nat.le_trans _ _ _ (Nat.le_min_l 5 (length l)) Hi).
    congruence.
Qed.

Lemma summarize_all_shape (E : env) (l out : list ResearchItem) (st st' : state) :
  summarize_all E l st = (Ok out, st') ->
  Forall2 (fun a b => same_page a b /\ content b = content a
                      /\ (content a = "" -> summary b = summary a)) l out.
Proof.
  unfold summarize_all, bind.
  destruct (mapM _ l st) as [[u|e] st1] eqn:Em; [|discriminate].
  unfold log_append, ret. intros [= <- _].
  eapply mapM_Forall2; [|exact Em].
  intros a s b s'. cbv beta. destruct (truthy (content a)) eqn:Et.
  - unfold bind. destruct (Research.summarize_page E (title a) (content a) s)
      as [[text|e] s1]; [|discriminate].
    unfold ret. intros [= <- _]. unfold same_page, set_summary.
    cbn [score title snippet content summary url]. repeat split.
    intros Hc. rewrite Hc in Et. discriminate.
  - unfold ret. intros [= <- _]. unfold same_page. repeat split.
Qed.

Lemma Forall2_score_bound (R : ResearchItem -> ResearchItem -> Prop)
    (l k : list ResearchItem) (c : Z) :
  (forall a b, R a b -> score b = score a) ->
  Forall2 R l k ->
  List.Forall (fun x => (score x <= c)%Z) l -> List.Forall (fun y => (score y <= c)%Z) k.
Proof.
  intros HR H. induction H as [|a b l k Hab _ IH]; intros Hl; [constructor|].
  apply List.Forall_cons_iff in Hl as [Ha Hl].
  constructor; [rewrite (HR _ _ Hab); exact Ha|auto].
Qed.

Lemma by_score_desc_transfer (R : ResearchItem -> ResearchItem -> Prop)
    (l k : list ResearchItem) :
  (forall a b, R a b -> score b = score a) ->
  Forall2 R l k -> by_score_desc l -> by_score_desc k.
Proof.
  intros HR H. unfold by_score_desc.
  induction H as [|a b l k Hab Hlk IH]; intros Hs; [constructor|].
  apply StronglySorted_inv in Hs as [Hs Ha].
  constructor; [auto|].
  rewrite (HR _ _ Hab). eapply Forall2_score_bound; eassumption.
Qed.

Lemma Forall2_map_eq {A B C : Type} (R : A -> B -> Prop) (f : A -> C) (g : B -> C)
    (l : list A) (k : list B) :
  (forall a b, R a b -> g b = f a) -> Forall2 R l k -> map g k = map f l.
Proof.
  intros HR. induction 1 as [|a b l k Hab _ IH]; [reflexivity|].
  cbn. now rewrite (HR _ _ Hab), IH.
Qed.

(** What the fresh branch of [research_niche] guarantees of its items:
    [scored] is the list after scoring and sorting. *)
Lemma fresh_items_inv (E : env) (niche platform : string) (st st' : state)
    (items : list ResearchItem) :
  research_niche E niche platform st = (Ok (Fresh items), st') ->
  List.Forall researched items
  /\ by_score_desc items
  /\ NoDup (map url_key items)
  /\ forall i r, (5 <= i)%nat -> items !! i = Some r -> content r = "" /\ summary r = "".
Proof.
  unfold research_niche, bind.
  destruct (_load_cache E niche platform st) as [[cached|e] st1]; [|discriminate].
  destruct cached as [|c cached].
  2:{ unfold log_append, ret. discriminate. }
  destruct (collect_results E niche platform st1) as [[all|e] st2]; [|discriminate].
  destruct (_dedup all) as [|d ds] eqn:Ed.
  { unfold log_append, ret. intros [= <- _].
    split; [constructor|]. split; [constructor|]. split; [constructor|].
    intros i r _ H. discriminate. }
  rewrite <- Ed. clear d ds Ed.
  set (scored := score_and_sort (firstn 12 (_dedup all))).
  destruct (extract_contents E scored st2) as [[l1|e] st3] eqn:E1; [|discriminate].
  destruct (summarize_all E l1 st3) as [[l2|e] st4] eqn:E2; [|discriminate].
  destruct (_save_cache E niche platform l2 st4) as [[u|e] st5]; [|discriminate].
  unfold ret. intros [= <- _].
  destruct (score_and_sort_shape (firstn 12 (_dedup all))) as (Hsorted & Hperm & Hinit).
  fold scored in Hsorted, Hperm, Hinit.
  destruct (extract_contents_shape E scored l1 st2 st3 E1) as [H1 Htail].
  pose proof (summarize_all_shape E l1 l2 st3 st4 E2) as H2.
  assert (Hat : forall i r, l2 !! i = Some r ->
            exists a0 a1, scored !! i = Some a0 /\ l1 !! i = Some a1
                          /\ same_page a0 a1 /\ summary a1 = summary a0
                          /\ (content a1 = content a0
                              \/ (300 <= String.length (content a1) <= 1200)%nat)
                          /\ same_page a1 r /\ content r = content a1
                          /\ (content a1 = "" -> summary r = summary a1)).
  { intros i r Hr.
    destruct (Forall2_same_length_lookup _ _ _ i r H2 Hr) as (a1 & Ha1 & Hp2 & Hc2 & Hs2).
    destruct (Forall2_same_length_lookup _ _ _ i a1 H1 Ha1) as (a0 & Ha0 & Hp1 & Hs1 & Hc1).
    exists a0, a1. auto 10. }
  rewrite List.Forall_forall in Hinit.
  split; [|split; [|split]].
  - apply List.Forall_forall. intros r Hr.
    apply list_elem_of_In, list_elem_of_lookup in Hr as [i Hi].
    destruct (Hat i r Hi) as (a0 & a1 & Ha0 & Ha1 & Hp1 & Hs1 & Hc1 & Hp2 & Hc2 & Hs2).
    assert (Hin : In a0 scored).
    { apply list_elem_of_In. eapply list_elem_of_lookup_2. exact Ha0. }
    destruct (Hinit a0 Hin) as (Hsc & Hco & Hsu).
    destruct Hp1 as (Ht1 & Hn1 & _ & Hsc1). destruct Hp2 as (Ht2 & Hn2 & _ & Hsc2).
    unfold researched. split; [|split].
    + rewrite Hsc2, Hsc1, Hsc, Ht2, Ht1, Hn2, Hn1. reflexivity.
    + rewrite Hc2. destruct Hc1 as [Hc1|Hc1]; [left; congruence|now right].
    + intros Hr0. rewrite Hc2 in Hr0. rewrite (Hs2 Hr0), Hs1. exact Hsu.
  - eapply by_score_desc_transfer; [|exact H2|].
    { intros a b (Hp & _). apply Hp. }
    eapply by_score_desc_transfer; [|exact H1|exact Hsorted].
    intros a b (Hp & _). apply Hp.
  - assert (Hk2 : map url_key l2 = map url_key l1).
    { eapply Forall2_map_eq; [|exact H2].
      intros a b ((_ & _ & Hu & _) & _). unfold url_key. now rewrite Hu. }
    assert (Hk1 : map url_key l1 = map url_key scored).
    { eapply Forall2_map_eq; [|exact H1].
      intros a b ((_ & _ & Hu & _) & _). unfold url_key. now rewrite Hu. }
    rewrite Hk2, Hk1, Hperm.
    rewrite <- firstn_map. eapply sublist_NoDup; [|apply sublist_take].
    rewrite dedup_unfold. apply dedup_from_nodup.
  - intros i r Hi Hr.
    destruct (Hat i r Hr) as (a0 & a1 & Ha0 & Ha1 & Hp1 & Hs1 & Hc1 & Hp2 & Hc2 & Hs2).
    assert (Hin : In a0 scored).
    { apply list_elem_of_In. eapply list_elem_of_lookup_2. exact Ha0. }
    destruct (Hinit a0 Hin) as (Hsc & Hco & Hsu).
    rewrite (Htail i a0 a1 Hi Ha0 Ha1) in *.
    split; [congruence|]. rewrite (Hs2 Hco). exact Hsu.
Qed.

(** X17. Every item of a freshly researched list carries the heuristic
    score of its title and snippet, a content that is empty or between
    300 and 1200 characters long, and a summary only if it has content.
    The items come in order of decreasing score, no two of them share a
    normalised URL, and only the first five can have content. *)
Theorem research_niche_fresh_items (E : env) (niche platform : string) (st st' : state)
    (items : list ResearchItem) :
  research_niche E niche platform st = (Ok (Fresh items), st') ->
  List.Forall researched items
  /\ by_score_desc items
  /\ NoDup (map url_key items)
  /\ forall i r, (5 <= i)%nat -> items !! i = Some r -> content r = "" /\ summary r = "".
Proof. apply fresh_items_inv. Qed.

End FreshItems.

(** ** The signal a fresh research can reach *)

Section FreshSignal.

Import Intel IntelStages.
Local Open Scope Q_scope.

Lemma list_sum_prefix {A : Type} (f : A -> nat) (c n : nat) (l : list A) :
  (forall r, In r l -> (f r <= c)%nat) ->
  (forall i r, (n <= i)%nat -> l !! i = Some r -> f r = 0%nat) ->
  (list_sum (map f l) <= c * n)%nat.
Proof.
  revert n. induction l as [|a l IH]; intros n Hc Hz; [simpl; lia|].
  cbn [map list_sum].
  assert (Hl : forall r, In r l -> (f r <= c)%nat) by (intros r Hr; apply Hc; now right).
  destruct n as [|n].
  - rewrite (Hz 0%nat a) by (reflexivity || lia).
    specialize (IH 0%nat Hl). rewrite Nat.mul_0_r in *. simpl. apply IH.
    intros i r _ Hr. apply (Hz (S i)); [lia|exact Hr].
  - specialize (IH n Hl).
    assert (Ha : (f a <= c)%nat) by (apply Hc; now left).
    assert (Hn : (list_sum (map f l) <= c * n)%nat).
    { apply IH. intros i r Hi Hr. apply (Hz (S i)); [lia|exact Hr]. }
    rewrite Nat.mul_succ_r. simpl. lia.
Qed.

Lemma count_if_sum {A : Type} (p : A -> bool) (l : list A) :
  count_if p l = list_sum (map (fun r => if p r then 1%nat else 0%nat) l).
Proof.
  unfold count_if. induction l as [|a l IH]; [reflexivity|].
  cbn [List.filter map list_sum]. destruct (p a); simpl; lia.
Qed.

Lemma count_if_prefix {A : Type} (p : A -> bool) (n : nat) (l : list A) :
  (forall i r, (n <= i)%nat -> l !! i = Some r -> p r = false) ->
  (count_if p l <= n)%nat.
Proof.
  intros Hz. rewrite count_if_sum.
  pose proof (list_sum_prefix (fun r => if p r then 1%nat else 0%nat) 1 n l) as H.
  rewrite Nat.mul_1_l in H. apply H.
  - intros r _. destruct (p r); lia.
  - intros i r Hi Hr. now rewrite (Hz i r Hi Hr).
Qed.

(** X18. The signal of a freshly researched list counts at most 12
    items, at most five pages with content and five with a summary, and
    at most 5 * 1200 characters of content; its average score lies between 0
    and 26. *)
Theorem fresh_research_signal_cap (E : env) (niche platform : string) (st st' : state)
    (items : list ResearchItem) :
  research_niche E niche platform st = (Ok (Fresh items), st') ->
  let signal := assess_signal items in
  (total_urls signal <= 12)%nat
  /\ (urls_with_content signal <= 5)%nat
  /\ (urls_with_summaries signal <= 5)%nat
  /\ (total_content_chars signal <= 5 * 1200)%nat
  /\ 0 <= avg_heuristic_score signal <= 26.
Proof.
  intros Hrun. cbv zeta.
  pose proof (research_niche_cap _ _ _ _ _ _ Hrun) as Hcap.
  destruct (fresh_items_inv _ _ _ _ _ _ Hrun) as (Hall & _ & _ & Htail).
  rewrite List.Forall_forall in Hall.
  split; [exact Hcap|].
  split; [|split; [|split]].
  - unfold assess_signal. cbn [urls_with_content]. apply count_if_prefix.
    intros i r Hi Hr. destruct (Htail i r Hi Hr) as [Hc _]. now rewrite Hc.
  - unfold assess_signal. cbn [urls_with_summaries]. apply count_if_prefix.
    intros i r Hi Hr. destruct (Htail i r Hi Hr) as [_ Hs]. now rewrite Hs.
  - unfold assess_signal. cbn [total_content_chars].
    rewrite (Nat.mul_comm 5 1200). apply list_sum_prefix.
    + intros r Hr. destruct (Hall r Hr) as (_ & [Hc|Hc] & _); [rewrite Hc; simpl; lia|lia].
    + intros i r Hi Hr. destruct (Htail i r Hi Hr) as [Hc _]. now rewrite Hc.
  - apply (avg_score_range items 0 26); [right; lia|lia|lia|].
    apply List.Forall_forall. intros r Hr. destruct (Hall r Hr) as (Hs & _).
    rewrite Hs. apply heuristic_score_bounds.
Qed.

End FreshSignal.

(** ** The corpus handed to the backend *)

Section CorpusBound.

Import Corpus.

(** X19. The corpus built for the prompts is never longer than the
    budget plus the 18 characters of the trimming note, and its first
    [max_chars] characters are those of the untrimmed text. *)
Theorem build_corpus_length (research_data : list ResearchItem) (max_chars : nat) :
  let out := _build_corpus research_data max_chars in
  let full := join nl (samples_from 1 (working_set research_data max_chars)) in
  (String.length out <= max_chars + 18)%nat
  /\ take max_chars out = take max_chars full
  /\ ((String.length full <= max_chars)%nat -> out = full)
  /\ (length (working_set research_data max_chars) <= length research_data)%nat.
Proof.
  cbv zeta. unfold _build_corpus.
  set (full := join nl (samples_from 1 (working_set research_data max_chars))).
  destruct (max_chars <? String.length full)%nat eqn:El.
  - apply Nat.ltb_lt in El.
    assert (Hlen : String.length (take max_chars full) = max_chars)
      by (rewrite length_take; lia).
    split; [|split; [|split]].
    + rewrite length_append, Hlen. change (String.length trimmed_note) with 18%nat. lia.
    + rewrite <- Hlen at 1. apply take_append.
    + intros H. lia.
    + unfold working_set.
      destruct (max_chars <? _)%nat; [|reflexivity].
      rewrite length_firstn, stable_sort_length. lia.
  - apply Nat.ltb_ge in El. split; [lia|]. split; [reflexivity|]. split; [reflexivity|].
    unfold working_set.
    destruct (max_chars <? _)%nat; [|reflexivity].
    rewrite length_firstn, stable_sort_length. lia.
Qed.

End CorpusBound.

(** ** Prompt trimming and the request loop *)

Section Backend.

Import Ollama.

Lemma find_sub_range (needle hay : string) :
  (-1 <= find_sub needle hay <= Z.of_nat (String.length hay))%Z.
Proof.
  induction hay as [|c hay IH]; cbn [find_sub].
  - destruct (String.prefix needle ""); cbn [String.length]; lia.
  - destruct (String.prefix needle (String c hay)); [cbn [String.length]; lia|].
    destruct (0 <=? find_sub needle hay)%Z; cbn [String.length]; lia.
Qed.

Lemma rfind_sub_range (needle hay : string) :
  (-1 <= rfind_sub needle hay <= Z.of_nat (String.length hay))%Z.
Proof.
  induction hay as [|c hay IH]; cbn [rfind_sub].
  - destruct (String.prefix needle ""); cbn [String.length]; lia.
  - destruct (0 <=? rfind_sub needle hay)%Z; [cbn [String.length]; lia|].
    destruct (String.prefix needle (String c hay)); cbn [String.length]; lia.
Qed.

Lemma first_marker_range (locate : string -> Z) (markers : list string) (default n : Z) :
  (forall m, (-1 <= locate m <= n)%Z) -> (0 <= default <= n)%Z ->
  (0 <= first_marker locate markers default <= n)%Z.
Proof.
  intros Hl Hd. induction markers as [|m markers IH]; [exact Hd|].
  cbn [first_marker]. destruct (locate m =? -1)%Z eqn:E; [exact IH|].
  apply Z.eqb_neq in E. specialize (Hl m). lia.
Qed.

Lemma content_start_range (prompt : string) :
  (0 <= content_start_of prompt <= Z.of_nat (String.length prompt))%Z.
Proof.
  unfold content_start_of. apply first_marker_range.
  - intros m. apply find_sub_range.
  - split; [apply Z.div_pos; lia|]. apply Z.div_le_upper_bound; lia.
Qed.

Lemma content_end_range (prompt : string) :
  (0 <= content_end_of prompt <= Z.of_nat (String.length prompt))%Z.
Proof.
  unfold content_end_of. apply first_marker_range.
  - intros m. apply rfind_sub_range.
  - split; [apply Z.div_pos; lia|]. apply Z.div_le_upper_bound; lia.
Qed.

Lemma drop_drop (a b : nat) (s : string) : drop a (drop b s) = drop (b + a) s.
Proof.
  revert s. induction b as [|b IH]; intros s; [reflexivity|].
  destruct s as [|c s]; [now destruct a|]. cbn [drop Nat.add]. apply IH.
Qed.

(** A text is its head, its middle and its tail. *)
Lemma take_slice_drop (a b : nat) (s : string) :
  (a <= b)%nat -> take a s +:+ slice a b s +:+ drop b s = s.
Proof.
  intros Hab. unfold slice.
  replace (drop b s) with (drop (b - a) (drop a s))
    by (rewrite drop_drop; f_equal; lia).
  now rewrite take_drop, take_drop.
Qed.

Lemma length_slice (a b : nat) (s : string) :
  (a <= b <= String.length s)%nat -> String.length (slice a b s) = (b - a)%nat.
Proof. intros H. unfold slice. rewrite length_take, length_drop. lia. Qed.

(** X20. When the prompt is longer than the target, its content span is
    well-formed and the room left for the content is positive and
    smaller than the content, trimming returns a text of exactly
    [target - 31] characters that begins with the untouched header and
    ends with the untouched footer. *)
Theorem trim_prompt_shortens (prompt : string) (target : Z) :
  let n := String.length prompt in
  let cs := Z.to_nat (content_start_of prompt) in
  let ce := Z.to_nat (content_end_of prompt) in
  let available := (target - Z.of_nat cs - Z.of_nat (n - ce) - 50)%Z in
  (target < Z.of_nat n)%Z ->
  (cs <= ce)%nat ->
  (0 < available < Z.of_nat (ce - cs))%Z ->
  let out := _trim_prompt prompt target in
  Z.of_nat (String.length out) = (target - 31)%Z
  /\ take cs out = take cs prompt
  /\ drop (String.length out - (n - ce)) out = drop ce prompt.
Proof.
  cbv zeta. intros Hlong Hspan Hroom.
  pose proof (content_start_range prompt) as Hcs.
  pose proof (content_end_range prompt) as Hce.
  unfold _trim_prompt.
  destruct (Z.of_nat (String.length prompt) <=? target)%Z eqn:E;
    [apply Z.leb_le in E; lia|]. clear E.
  set (cs := Z.to_nat (content_start_of prompt)) in *.
  set (ce := Z.to_nat (content_end_of prompt)) in *.
  assert (Hcs' : (cs <= String.length prompt)%nat) by (unfold cs; lia).
  assert (Hce' : (ce <= String.length prompt)%nat) by (unfold ce; lia).
  assert (Hh : String.length (take cs prompt) = cs) by (rewrite length_take; lia).
  assert (Hf : String.length (drop ce prompt) = (String.length prompt - ce)%nat)
    by apply length_drop.
  assert (Hc : String.length (slice cs ce prompt) = (ce - cs)%nat)
    by (apply length_slice; lia).
  rewrite Hh, Hf, Hc.
  set (available := (target - Z.of_nat cs - Z.of_nat (String.length prompt - ce) - 50)%Z) in *.
  assert (Htest : ((0 <? available)%Z && (available <? Z.of_nat (ce - cs))%Z) = true).
  { apply andb_true_iff. split; apply Z.ltb_lt; lia. }
  rewrite Htest.
  set (header := take cs prompt) in *.
  set (footer := drop ce prompt) in *.
  set (kept := take (Z.to_nat available) (slice cs ce prompt) +:+ cut_note).
  assert (Hk : String.length kept = (Z.to_nat available + 19)%nat).
  { unfold kept. rewrite length_append, length_take, Hc.
    change (String.length cut_note) with 19%nat. lia. }
  assert (Hout : String.length (header +:+ kept +:+ footer)
                 = (cs + (Z.to_nat available + 19) + (String.length prompt - ce))%nat).
  { rewrite !length_append, Hh, Hk, Hf. lia. }
  split; [rewrite Hout; unfold available; lia|]. split.
  - rewrite <- Hh at 1. apply take_append.
  - rewrite Hout.
    replace (cs + (Z.to_nat available + 19) + (String.length prompt - ce)
             - (String.length prompt - ce))%nat
      with (String.length (header +:+ kept))
      by (rewrite length_append, Hh, Hk; lia).
    rewrite <- (append_assoc header kept footer). apply drop_append.
Qed.

(** X21. Trimming returns the prompt unchanged when it fits the target,
    and also, with a well-formed content span, when it does not fit but
    the room left for the content is not positive or is at least the
    length of the content: the text is then still longer than the
    target. *)
Theorem trim_prompt_unchanged (prompt : string) (target : Z) :
  let n := String.length prompt in
  let cs := Z.to_nat (content_start_of prompt) in
  let ce := Z.to_nat (content_end_of prompt) in
  let available := (target - Z.of_nat cs - Z.of_nat (n - ce) - 50)%Z in
  (Z.of_nat n <= target)%Z
  \/ ((cs <= ce)%nat /\ ((available <= 0)%Z \/ (Z.of_nat (ce - cs) <= available)%Z)) ->
  _trim_prompt prompt target = prompt.
Proof.
  cbv zeta. intros Hcase.
  pose proof (content_start_range prompt) as Hcs.
  pose proof (content_end_range prompt) as Hce.
  unfold _trim_prompt.
  destruct (Z.of_nat (String.length prompt) <=? target)%Z eqn:E; [reflexivity|].
  apply Z.leb_gt in E. destruct Hcase as [Hfit|[Hspan Hroom]]; [lia|].
  set (cs := Z.to_nat (content_start_of prompt)) in *.
  set (ce := Z.to_nat (content_end_of prompt)) in *.
  assert (Hh : String.length (take cs prompt) = cs) by (rewrite length_take; unfold cs; lia).
  assert (Hc : String.length (slice cs ce prompt) = (ce - cs)%nat)
    by (apply length_slice; unfold ce; lia).
  rewrite Hh, length_drop, Hc.
  match goal with |- context [if ?b then _ else _] =>
    assert (Htest : b = false) end.
  { apply andb_false_iff. destruct Hroom as [H|H]; [left|right]; apply Z.ltb_ge; lia. }
  rewrite Htest. now apply take_slice_drop.
Qed.

End Backend.

(** ** Stripping twice *)

Section StripTwice.

Lemma lstrip_by_idem (p : ascii -> bool) (s : string) :
  lstrip_by p (lstrip_by p s) = lstrip_by p s.
Proof.
  induction s as [|c s IH]; [reflexivity|].
  cbn [lstrip_by]. destruct (p c) eqn:E; [exact IH|].
  cbn [lstrip_by]. now rewrite E.
Qed.

Lemma rstrip_by_idem (p : ascii -> bool) (s : string) :
  rstrip_by p (rstrip_by p s) = rstrip_by p s.
Proof.
  induction s as [|c s IH]; [reflexivity|].
  cbn [rstrip_by]. destruct (rstrip_by p s) as [|d u] eqn:E.
  - destruct (p c) eqn:Ec; [reflexivity|]. cbn [rstrip_by]. now rewrite Ec.
  - cbn [rstrip_by]. cbn [rstrip_by] in IH. rewrite IH. reflexivity.
Qed.

(** Stripping on the left keeps a text that is stripped on the right so. *)
Lemma rstrip_by_lstrip_by (p : ascii -> bool) (t : string) :
  rstrip_by p t = t -> rstrip_by p (lstrip_by p t) = lstrip_by p t.
Proof.
  induction t as [|c t IH]; intros Ht; [reflexivity|].
  cbn [lstrip_by]. destruct (p c) eqn:Ec; [|exact Ht].
  apply IH. cbn [rstrip_by] in Ht.
  destruct (rstrip_by p t) as [|d u] eqn:E.
  - rewrite Ec in Ht. discriminate.
  - now injection Ht.
Qed.

Lemma strip_idem (s : string) : strip (strip s) = strip s.
Proof.
  unfold strip.
  rewrite (rstrip_by_lstrip_by is_space (rstrip_by is_space s) (rstrip_by_idem _ _)).
  apply lstrip_by_idem.
Qed.

End StripTwice.

(** ** The request loop *)

Section RequestLoop.

Import Ollama.

(** One round of the loop: it ends the call, or, on the first attempt
    only, hands over to the next round with the trimmed prompt. *)
Lemma send_rounds_round (B : backend) (rounds attempts : nat) (current : string) :
  let r := send_rounds B (S rounds) attempts current in
  let next :=
    send_rounds B rounds (S attempts)
                (_trim_prompt current (scale07 (String.length current))) in
  (fst r = [current] /\ send_prompt_outcome (snd r))
  \/ (attempts = 0%nat /\ fst r = current :: fst next /\ snd r = snd next
      /\ signals_overflow (transport B attempts current)).
Proof.
  cbv zeta. cbn [send_rounds]. unfold max_retries_on_overflow.
  set (next := send_rounds B rounds (S attempts) _).
  assert (Hnext : attempts = 0%nat ->
                  signals_overflow (transport B attempts current) ->
                  let r := (let '(sent, o) := next in (current :: sent, o)) in
                  attempts = 0%nat /\ fst r = current :: fst next /\ snd r = snd next
                  /\ signals_overflow (transport B attempts current)).
  { intros Ha Hs. cbv zeta. destruct next as [sent o]. cbn [fst snd]. auto. }
  destruct (transport B attempts current) as [|description|status text data] eqn:Et.
  - left. split; [reflexivity|]. split; [reflexivity|discriminate].
  - left. split; [reflexivity|]. split; [reflexivity|discriminate].
  - destruct (negb (status =? 200)%nat) eqn:Es.
    + destruct (mentions _ _).
      * destruct (attempts <? 1)%nat eqn:Ea.
        -- right. apply Hnext.
           ++ apply Nat.ltb_lt in Ea. lia.
           ++ exists status, text, data. split; [reflexivity|]. left.
              apply negb_true_iff, Nat.eqb_neq in Es. exact Es.
        -- left. split; [reflexivity|]. split; [reflexivity|discriminate].
      * left. split; [reflexivity|]. split; [reflexivity|discriminate].
    + destruct data as [reply|].
      2:{ left. split; [reflexivity|]. split; [reflexivity|discriminate]. }
      destruct reply as [response error_]. cbn [p_response p_error].
      destruct response as [generated|].
      { left. split; [reflexivity|]. apply strip_idem. }
      destruct (truthy (default "" error_) && mentions _ _ && (attempts <? 1)%nat) eqn:Eo.
      * right. apply andb_true_iff in Eo as [Eo Ea]. apply Hnext.
        -- apply Nat.ltb_lt in Ea. lia.
        -- exists status, text, (Some (mkPayload None error_)).
           split; [reflexivity|]. right.
           destruct error_ as [msg|]; [now exists msg|]. discriminate.
      * left. split; [reflexivity|]. split; [reflexivity|discriminate].
Qed.

(** The target of a trim is seven tenths of the length, rounded down, or
    one less: the float product may fall just below a whole number. *)
Lemma scale07_spec (n : nat) :
  (Z.of_nat n < 2 ^ 49)%Z ->
  (7 * Z.of_nat n - 10 <= 10 * scale07 n <= 7 * Z.of_nat n)%Z.
Proof.
  intros Hn. destruct (Nat.eq_dec n 0) as [->|Hz].
  { vm_compute. split; discriminate. }
  unfold scale07.
  set (N := inject_Z (Z.of_nat n)).
  assert (HN1 : (1 <= N)%Q).
  { change 1%Q with (inject_Z 1). unfold N. rewrite <- Zle_Qle. lia. }
  assert (HN2 : (N < inject_Z (2 ^ 49))%Q).
  { unfold N. rewrite <- Zlt_Qlt. exact Hn. }
  change (inject_Z (2 ^ 49)) with (562949953421312 # 1)%Q in HN2.
  assert (Ec : (fl (7 # 10) == 3152519739159347 # 4503599627370496)%Q)
    by (vm_compute; reflexivity).
  assert (EN : (fl N == N)%Q) by (apply fl_Z; lia).
  set (x := (fl N * fl (7 # 10))%Q).
  assert (Ex : (x == N * (3152519739159347 # 4503599627370496))%Q)
    by (unfold x; now rewrite EN, Ec).
  assert (Hx : (1 # 2 <= x)%Q) by lra.
  assert (Ax : (Qabs x == x)%Q) by (apply Qabs_pos; lra).
  pose proof (fl_error x) as Herr. apply Qabs_Qle_condition in Herr.
  assert (Hulp : (ulp x <= x * (1 # 4503599627370496))%Q).
  { rewrite <- Ax at 2. apply ulp_normal. rewrite Ax.
    apply Qle_trans with (1 # 2)%Q; [vm_compute; discriminate|exact Hx]. }
  assert (H0 : (0 <= fl x)%Q) by (apply fl_nonneg; lra).
  unfold py_int. apply Qle_bool_iff in H0. rewrite H0.
  pose proof (Qfloor_le (fl x)) as Hf. pose proof (Qlt_floor (fl x)) as Hc.
  rewrite inject_Z_plus in Hc. change (inject_Z 1) with 1%Q in Hc.
  set (t := Qfloor (fl x)) in *.
  assert (Hup : (inject_Z (10 * t) < inject_Z (7 * Z.of_nat n + 1))%Q).
  { rewrite inject_Z_plus, !inject_Z_mult. fold N.
    change (inject_Z 10) with 10%Q. change (inject_Z 7) with 7%Q.
    change (inject_Z 1) with 1%Q. lra. }
  assert (Hlo : (inject_Z (7 * Z.of_nat n - 11) < inject_Z (10 * t))%Q).
  { unfold Z.sub. rewrite inject_Z_plus, !inject_Z_mult. fold N.
    change (inject_Z 10) with 10%Q. change (inject_Z 7) with 7%Q.
    change (inject_Z (- (11))) with (-11 # 1)%Q. lra. }
  rewrite <- Zlt_Qlt in Hup, Hlo. lia.
Qed.

(** X22. One call of [send_prompt] makes at most two requests: the
    prompt itself and, only after a reply that signals a context
    overflow, the prompt trimmed to the target [int(len(prompt) * 0.7)],
    the float product truncated: for a prompt of fewer than 2^49
    characters, seven tenths of its length rounded down, or one less.  It
    returns text
    that is stripped of surrounding whitespace, or fails with a
    [ConnectionError] or a [RuntimeError]; the failure "All retry
    attempts exhausted." after the loop is never raised. *)
Theorem send_prompt_requests (B : backend) (prompt : string) :
  let sent := fst (send_prompt B prompt) in
  let target := scale07 (String.length prompt) in
  let trimmed := _trim_prompt prompt target in
  (sent = [prompt] \/ sent = [prompt; trimmed])
  /\ (sent = [prompt; trimmed] -> signals_overflow (transport B 0 prompt))
  /\ ((Z.of_nat (String.length prompt) < 2 ^ 49)%Z ->
      (7 * Z.of_nat (String.length prompt) - 10 <= 10 * target
       <= 7 * Z.of_nat (String.length prompt))%Z)
  /\ send_prompt_outcome (snd (send_prompt B prompt)).
Proof.
  cbv zeta. unfold send_prompt, max_retries_on_overflow.
  destruct (send_rounds_round B 1 0 prompt) as [[Hsent Hout]|(_ & Hsent & Hout & Hover)];
    cbv zeta in *.
  - rewrite Hsent. split; [now left|]. split; [discriminate|].
    split; [apply scale07_spec|exact Hout].
  - set (trimmed := _trim_prompt prompt (scale07 (String.length prompt))) in *.
    destruct (send_rounds_round B 0 1 trimmed) as [[Hsent2 Hout2]|(Ha & _)];
      cbv zeta in *; [|discriminate].
    rewrite Hsent, Hsent2, Hout. split; [now right|]. split; [intros _; exact Hover|].
    split; [apply scale07_spec|exact Hout2].
Qed.

End RequestLoop.

(** ** Lists parsed from a reply *)

Section ParsedLists.

Import IntelStages.

(** X23. Every item parsed from a list reply is stripped of surrounding
    whitespace and between 4 and 199 characters long, and a reply gives
    at most one item per line. *)
Theorem parse_list_items (raw : string) :
  (forall item, In item (parse_list raw) ->
     strip item = item /\ (3 < String.length item < 200)%nat)
  /\ (length (parse_list raw) <= length (split_on "010" raw))%nat.
Proof.
  unfold parse_list. split.
  - intros item Hin. apply in_flat_map in Hin as (line & _ & Hin).
    cbv zeta in Hin.
    destruct (negb (truthy (strip line))); [contradiction|].
    match type of Hin with
    | In _ (if ?c then _ else _) => destruct c eqn:Ec; [|contradiction]
    end.
    destruct Hin as [<-|[]].
    apply andb_true_iff in Ec as [Ec Hhi]. apply andb_true_iff in Ec as [_ Hlo].
    apply Nat.ltb_lt in Hlo, Hhi. split; [apply strip_idem|lia].
  - induction (split_on "010" raw) as [|line lines IH]; [reflexivity|].
    cbn [flat_map length]. rewrite length_app.
    match goal with
    | |- (length ?piece + _ <= _)%nat =>
        assert (Hp : (length piece <= 1)%nat)
    end.
    { cbv zeta. destruct (negb _); [simpl; lia|].
      match goal with |- context [if ?c then _ else _] => destruct c end; simpl; lia. }
    lia.
Qed.

End ParsedLists.

(** ** The caller of the pipeline *)

Section Endpoint.

Import Pipeline.

(** X24. The endpoint reports success exactly when its own backend
    check passes and the pipeline returns; the response then carries the
    pipeline's result and a report, and no error.  Every failure gives a
    response without data and without report, with an error text and an
    error type; a [ValueError] of the pipeline, and equally the
    [UnicodeDecodeError] of an undecodable cache file, is reported as a
    "ValidationError" with the exception's text. *)
Theorem analyze_reports (E : env) (available : bool)
    (report : list (string * json) -> outcome string)
    (niche platform audience goal : string) (cache : gmap string file) :
  let r := Api.analyze E available report niche platform audience goal cache in
  let run := run_pipeline E niche platform audience goal cache in
  (Api.success r = true
   <-> available = true /\ exists result, surfaced run = Ok result)
  /\ (forall result,
        Api.success r = true -> surfaced run = Ok result ->
        Api.data r = Some result /\ Api.error r = None /\ Api.error_type r = None
        /\ Api.human_report r <> None)
  /\ (Api.success r = false ->
      Api.data r = None /\ Api.human_report r = None
      /\ Api.error r <> None /\ Api.error_type r <> None)
  /\ (forall e,
        available = true -> surfaced run = Raise e ->
        exn_kind_of e = ValueError \/ exn_kind_of e = UnicodeDecodeError ->
        Api.error r = Some (exn_msg e) /\ Api.error_type r = Some "ValidationError").
Proof.
  cbv zeta. unfold Api.analyze.
  destruct available; cbn [negb].
  2:{ cbn. split; [split; [discriminate|intros [H _]; discriminate]|].
      split; [discriminate|]. split; [repeat split; discriminate|].
      intros e H. discriminate. }
  destruct (surfaced (run_pipeline E niche platform audience goal cache)) as [result|e].
  - cbn [Api.success Api.data Api.error Api.error_type Api.human_report].
    split; [split; [eauto|reflexivity]|].
    split; [intros result' _ [= <-]; repeat split; discriminate|].
    split; [discriminate|]. intros e _ H. discriminate.
  - split.
    { split.
      - destruct (exn_kind_of e); discriminate.
      - intros [_ [result H]]. discriminate. }
    split; [intros result _ H; discriminate|].
    split.
    { intros _. destruct (exn_kind_of e); cbn; repeat split; discriminate. }
    intros e' _ [= <-] [Hk|Hk]; rewrite Hk; cbn; auto.
Qed.

End Endpoint.

(** ** What every run keeps in its result object *)

Section ResultObject.

Import Intel IntelStages Pipeline.

Variable profile : json.


Lemma complete_set (k : string) (v : json) (result : list (string * json)) :
  k <> "client_profile" -> complete profile result -> complete profile (dict_set k v result).
Proof.
  intros Hk [Hp Hkeys]. split.
  - rewrite dict_get_set_ne by exact Hk. exact Hp.
  - intros k0 Hin. destruct (String.eq_dec k k0) as [->|Hne].
    + rewrite dict_get_set_eq. discriminate.
    + rewrite dict_get_set_ne by exact Hne. now apply Hkeys.
Qed.

Lemma keeps_bind {A B : Type} (m : P A) (k : A -> P B) :
  keeps (kept profile) m -> (forall a, keeps (kept profile) (k a)) -> keeps (kept profile) (bind m k).
Proof.
  intros Hm Hk fr o fr' Hinv. unfold bind.
  destruct (m fr) as [[a|e] fr1] eqn:Em.
  - intros H. eapply Hk; [|exact H]. eapply Hm; eassumption.
  - intros [= <- <-]. eapply Hm; eassumption.
Qed.

Lemma keeps_ret {A : Type} (a : A) : keeps (kept profile) (ret a).
Proof. intros fr o fr' Hinv [= <- <-]. exact Hinv. Qed.

Lemma keeps_raise {A : Type} (e : exn) : keeps (kept profile) (@raise frame A e).
Proof. intros fr o fr' Hinv [= <- <-]. exact Hinv. Qed.

Lemma keeps_lift {A : Type} (m : M A) : keeps (kept profile) (lift m).
Proof.
  intros fr o fr' Hinv. unfold lift.
  destruct (m (fr_state fr)) as [o' st']. intros [= <- <-]. exact Hinv.
Qed.

Lemma keeps_log (message : string) : keeps (kept profile) (log message).
Proof. apply keeps_lift. Qed.

Lemma keeps_progress (E : env) (message : string) : keeps (kept profile) (_progress E message).
Proof. unfold _progress. destruct (has_callback E); [apply keeps_lift|apply keeps_ret]. Qed.

Lemma keeps_set_field (k : string) (v : json) :
  k <> "client_profile" -> keeps (kept profile) (set_field k v).
Proof.
  intros Hk fr o fr' Hinv [= <- <-]. unfold kept. cbn [fr_result].
  now apply complete_set.
Qed.

Lemma keeps_set_meta (k : string) (v : json) : keeps (kept profile) (set_meta k v).
Proof.
  intros fr o fr' Hinv [= <- <-]. unfold kept. cbn [fr_result].
  apply complete_set; [discriminate|exact Hinv].
Qed.

Lemma keeps_research_items (r : research) : keeps (kept profile) (research_items r).
Proof.
  unfold research_items. destruct r as [entries|items]; [|apply keeps_ret].
  destruct (items_of_json entries); [apply keeps_ret|apply keeps_raise].
Qed.

Lemma keeps_guard (c : bool) (e : exn) : keeps (kept profile) (if c then raise e else ret tt).
Proof. destruct c; [apply keeps_raise|apply keeps_ret]. Qed.

Lemma keeps_when (c : bool) (m : P unit) :
  keeps (kept profile) m -> keeps (kept profile) (if c then m else ret tt).
Proof. intros H. destruct c; [exact H|apply keeps_ret]. Qed.

Create HintDb result_object.
#[local] Hint Resolve keeps_ret keeps_raise keeps_lift keeps_log keeps_progress
  keeps_set_meta keeps_research_items keeps_guard keeps_when : result_object.
#[local] Hint Extern 1 (keeps _ (set_field _ _)) =>
  apply keeps_set_field; discriminate : result_object.

Lemma stages_keep (E : env) (niche platform audience goal : string) (start_time : Q) :
  keeps (kept profile) (stages E niche platform audience goal start_time).
Proof.
  unfold stages.
  repeat (apply keeps_bind; [solve [auto with result_object]|intros ?]).
  intros fr o fr' Hinv [= <- <-]. exact Hinv.
Qed.

Lemma on_failure_keeps (E : env) (start_time : Q) (e : exn) :
  keeps (kept profile) (on_failure E start_time e).
Proof.
  unfold on_failure.
  repeat (apply keeps_bind; [solve [auto with result_object]|intros ?]).
  apply keeps_raise.
Qed.

End ResultObject.

Section ResultComplete.

Import Pipeline.

Lemma initial_result_complete (niche platform audience goal : string) :
  complete (profile_of niche platform audience goal)
           (initial_result niche platform audience goal).
Proof.
  split; [reflexivity|].
  intros k Hin. simpl in Hin.
  repeat (destruct Hin as [<-|Hin]; [discriminate|]). contradiction.
Qed.

(** X25. Whatever happens in a run on valid inputs, success or failure,
    the result object ends with all eleven fields it was created with,
    and its client profile is still the echo of the four inputs; a
    returned result is that object. *)
Theorem run_pipeline_result_complete (E : env)
    (niche platform audience goal : string) (cache : gmap string file) :
  validate niche platform audience goal = None ->
  let r := run_pipeline E niche platform audience goal cache in
  exists result,
    result_object r = Some result
    /\ complete (profile_of niche platform audience goal) result
    /\ dict_get "pipeline_log" result = Some (jstrs (st_log (final r)))
    /\ forall returned, surfaced r = Ok returned -> returned = result.
Proof.
  intros Hv. cbv zeta. rewrite (run_pipeline_valid _ _ _ _ _ _ Hv).
  assert (Hinit : kept (profile_of niche platform audience goal)
                       (first_frame niche platform audience goal cache))
    by apply initial_result_complete.
  destruct (stages E niche platform audience goal (time_at E 0) _)
    as [[returned|e] fr] eqn:Es.
  - exists (result_view fr). cbn [result_object surfaced final].
    split; [reflexivity|]. split.
    + apply complete_set; [discriminate|].
      exact (stages_keep _ E _ _ _ _ _ _ _ _ Hinit Es).
    + split; [apply dict_get_set_eq|].
      intros returned' [= <-].
      now destruct (stages_no_error E niche platform audience goal (time_at E 0) _ _ _
                      (first_frame_no_error _ _ _ _ _) Es).
  - destruct (on_failure E (time_at E 0) e fr) as [o fr'] eqn:Ef.
    exists (result_view fr'). cbn [result_object surfaced final].
    split; [reflexivity|]. split.
    + apply complete_set; [discriminate|].
      eapply (on_failure_keeps _ E); [|exact Ef].
      exact (stages_keep _ E _ _ _ _ _ _ _ _ Hinit Es).
    + split; [apply dict_get_set_eq|].
      destruct (on_failure_raises E (time_at E 0) e fr) as (fr2 & Hf & _).
      rewrite Hf in Ef. injection Ef as <- <-. discriminate.
Qed.

End ResultComplete.

(** ** Runs that stop before any analysis *)

Section Aborts.

Import Pipeline.

Lemma bind_ok {S A B : Type} (m : MS S A) (k : A -> MS S B) (st st' : S) (a : A) :
  m st = (Ok a, st') -> bind m k st = k a st'.
Proof. intros H. unfold bind. now rewrite H. Qed.

Lemma bind_raise {S A B : Type} (m : MS S A) (k : A -> MS S B) (st st' : S) (e : exn) :
  m st = (Raise e, st') -> bind m k st = (Raise e, st').
Proof. intros H. unfold bind. now rewrite H. Qed.

Lemma search_step_fails (ev : event) (o : outcome (list ResearchItem)) (e : exn)
    (on_ok : nat -> string) (on_fail : string -> string) (st : state) :
  o = Raise e -> exn_kind_of e = RuntimeError ->
  search_step ev o on_ok on_fail st = (Ok [], after st [on_fail (exn_msg e)] [ev]).
Proof.
  intros -> Hk. unfold search_step, bind, emit, try_except, call, log_append, ret, after.
  cbn [st_log st_fs st_events st_ticks]. rewrite Hk. reflexivity.
Qed.

Lemma collect_results_all_fail (E : env) (niche platform : string) (st : state) :
  searches_fail E ->
  exists lines,
    collect_results E niche platform st
    = (Ok [],
       after st lines
             [EvSearchDDG (fst (Research.build_queries E niche platform));
              EvSearchDDG (snd (Research.build_queries E niche platform));
              EvSearchBing (fst (Research.build_queries E niche platform))]).
Proof.
  intros [Hddg Hbing]. unfold collect_results.
  destruct (Research.build_queries E niche platform) as [q0 q1]. cbn [fst snd].
  destruct (Hddg q0) as (e0 & H0 & K0). destruct (Hddg q1) as (e1 & H1 & K1).
  destruct (Hbing q0) as (e2 & H2 & K2).
  assert (H2' : bing_results (bing E q0) = Raise e2) by now rewrite H2.
  erewrite bind_ok by reflexivity.
  erewrite bind_ok by (apply (search_step_fails _ _ e0); assumption).
  cbn [length Nat.ltb Nat.leb].
  erewrite bind_ok.
  2:{ erewrite bind_ok by reflexivity.
      erewrite bind_ok by (apply (search_step_fails _ _ e1); assumption).
      reflexivity. }
  cbn [app length Nat.ltb Nat.leb].
  erewrite bind_ok by reflexivity.
  erewrite bind_ok by (apply (search_step_fails _ _ e2); assumption).
  unfold ret, log_append, after. cbn [st_log st_fs st_events st_ticks app].
  rewrite <- !app_assoc. cbn [app]. eexists. reflexivity.
Qed.

Lemma research_niche_nothing (E : env) (niche platform : string) (st : state) :
  st_fs st !! _cache_path E niche platform = None ->
  searches_fail E ->
  exists lines,
    research_niche E niche platform st
    = (Ok (Fresh []),
       after st lines
             [EvSearchDDG (fst (Research.build_queries E niche platform));
              EvSearchDDG (snd (Research.build_queries E niche platform));
              EvSearchBing (fst (Research.build_queries E niche platform))]).
Proof.
  intros Hmiss Hfail. unfold research_niche.
  erewrite bind_ok by (apply load_cache_missing; exact Hmiss).
  destruct (collect_results_all_fail E niche platform st Hfail) as (lines & Hc).
  erewrite bind_ok by exact Hc.
  cbn [_dedup fold_left snd].
  erewrite bind_ok by reflexivity.
  unfold ret, after. cbn [st_log st_fs st_events st_ticks].
  rewrite <- app_assoc. eexists. reflexivity.
Qed.

Lemma external_calls_app (st : state) (l : list event) :
  List.filter (fun ev => negb (is_progress ev)) (st_events st ++ l)
  = (external_calls st ++ List.filter (fun ev => negb (is_progress ev)) l)%list.
Proof. unfold external_calls. apply List.filter_app. Qed.

Ltac run_step :=
  erewrite bind_ok by reflexivity;
  cbv beta; cbn [fr_state fr_result st_log st_fs st_events st_ticks].

Lemma progress_returns (E : env) (message : string) (fr : frame) :
  exists evs,
    _progress E message fr
    = (Ok tt, mkFrame (fr_result fr)
                      (mkState (st_log (fr_state fr)) (st_fs (fr_state fr))
                               (st_events (fr_state fr) ++ evs)
                               (st_ticks (fr_state fr))))
    /\ List.filter (fun ev => negb (is_progress ev)) evs = [].
Proof.
  destruct fr as [result [lg fs evs tk]]. unfold _progress.
  destruct (has_callback E).
  - exists [EvProgress message]. split; reflexivity.
  - exists []. cbn [fr_result fr_state st_log st_fs st_events st_ticks].
    rewrite app_nil_r. split; reflexivity.
Qed.

(** X26. With valid inputs and the backend unavailable, the run raises a
    [ConnectionError] after the backend check alone: no search is made,
    no page fetched, no prompt sent, the cache directory is untouched and
    the log holds the check and the error. *)
Theorem run_pipeline_backend_down (E : env)
    (niche platform audience goal : string) (cache : gmap string file) :
  validate niche platform audience goal = None ->
  backend_available E = false ->
  let r := run_pipeline E niche platform audience goal cache in
  surfaced r
  = Raise (Exn ConnectionError
             ("Ollama is not running or qwen2.5-coder:7b is not installed. " +:+
              "Start Ollama with: ollama serve"))
  /\ external_calls (final r) = [EvBackendCheck]
  /\ st_fs (final r) = cache
  /\ st_log (final r)
     = ["Checking Ollama availability...";
        "ERROR: Ollama is not running or qwen2.5-coder:7b is not installed. " +:+
        "Start Ollama with: ollama serve"].
Proof.
  intros Hv Hdown. cbv zeta. rewrite (run_pipeline_valid _ _ _ _ _ _ Hv).
  unfold stages, first_frame. rewrite Hdown. cbn [negb].
  match goal with |- context [bind (_progress E ?m) ?k ?fr] =>
    destruct (progress_returns E m fr) as (evs & Hrun & Hevs) end.
  erewrite bind_ok by exact Hrun.
  cbn [fr_state fr_result st_log st_fs st_events st_ticks].
  run_step. run_step.
  erewrite bind_raise by reflexivity.
  match goal with |- context [on_failure E ?t ?e ?fr] =>
    destruct (on_failure_raises E t e fr) as (fr' & Hf & _ & _ & Hlog & Hev & Hfs) end.
  rewrite Hf. cbn [surfaced final].
  cbn [fr_state fr_result st_log st_fs st_events st_ticks exn_msg] in Hlog, Hev, Hfs.
  split; [reflexivity|]. split; [|split].
  - unfold external_calls. rewrite Hev. cbn [app].
    rewrite List.filter_app, Hevs. reflexivity.
  - exact Hfs.
  - rewrite Hlog. reflexivity.
Qed.

(** X27. With valid inputs, the backend available, no cache entry for
    the niche and platform, and every search failing with a
    [RuntimeError], the run raises the [RuntimeError] "No research data
    collected." after the backend check and the three searches: no page
    is fetched, no prompt is sent and nothing is written to the cache. *)
Theorem run_pipeline_no_research (E : env)
    (niche platform audience goal : string) (cache : gmap string file) :
  validate niche platform audience goal = None ->
  backend_available E = true ->
  cache !! _cache_path E niche platform = None ->
  searches_fail E ->
  let r := run_pipeline E niche platform audience goal cache in
  let q := Research.build_queries E niche platform in
  surfaced r
  = Raise (Exn RuntimeError "No research data collected. Try a different niche.")
  /\ external_calls (final r)
     = [EvBackendCheck; EvSearchDDG (fst q); EvSearchDDG (snd q); EvSearchBing (fst q)]
  /\ st_fs (final r) = cache.
Proof.
  intros Hv Hup Hmiss Hfail. cbv zeta. rewrite (run_pipeline_valid _ _ _ _ _ _ Hv).
  unfold stages, first_frame. rewrite Hup. cbn [negb].
  match goal with |- context [bind (_progress E ?m) ?k ?fr] =>
    destruct (progress_returns E m fr) as (evs1 & Hrun1 & Hevs1) end.
  erewrite bind_ok by exact Hrun1.
  cbn [fr_state fr_result st_log st_fs st_events st_ticks].
  run_step. run_step. run_step. run_step.
  match goal with |- context [bind (_progress E ?m) ?k ?fr] =>
    destruct (progress_returns E m fr) as (evs2 & Hrun2 & Hevs2) end.
  erewrite bind_ok by exact Hrun2.
  cbn [fr_state fr_result st_log st_fs st_events st_ticks].
  run_step.
  match goal with |- context [bind (lift (research_niche E niche platform)) ?k ?fr] =>
    destruct (research_niche_nothing E niche platform (fr_state fr) Hmiss Hfail)
      as (lines & Hrn) end.
  erewrite bind_ok by (unfold lift; rewrite Hrn; reflexivity).
  cbn [research_len length Nat.eqb].
  erewrite bind_raise by reflexivity.
  match goal with |- context [on_failure E ?t ?e ?fr] =>
    destruct (on_failure_raises E t e fr) as (fr' & Hf & _ & _ & _ & Hev & Hfs) end.
  rewrite Hf. cbn [surfaced final].
  unfold after in Hev, Hfs.
  cbn [fr_state fr_result st_log st_fs st_events st_ticks] in Hev, Hfs.
  split; [reflexivity|]. split; [|exact Hfs].
  unfold external_calls. rewrite Hev. cbn [app].
  rewrite !List.filter_app, Hevs1, Hevs2. reflexivity.
Qed.

End Aborts.

(** ** The cache entry a research leaves behind *)

Section CacheEntry.

Local Open Scope Q_scope.

(** X28. A fresh research that returns items, with a disk that can be
    written, leaves under the cache path of the niche and platform a
    readable file that holds exactly the returned items, stamped with a
    reading of the clock; decoding what the file holds gives the items
    back. *)
Theorem research_niche_fills_cache (E : env) (niche platform : string) (st st' : state)
    (items : list ResearchItem) :
  research_niche E niche platform st = (Ok (Fresh items), st') ->
  items <> [] ->
  disk_ok E = true ->
  exists f,
    st_fs st' !! _cache_path E niche platform = Some f
    /\ readable f = true
    /\ body f = Document (JList (map item_json items))
    /\ items_of_json (map item_json items) = Some items
    /\ exists tick, mtime f = time_at E tick.
Proof.
  intros Hrun Hne Hdisk. revert Hrun. unfold research_niche, bind.
  destruct (_load_cache E niche platform st) as [[cached|e] st1]; [|discriminate].
  destruct cached as [|c cached].
  2:{ unfold log_append, ret. discriminate. }
  destruct (collect_results E niche platform st1) as [[all|e] st2]; [|discriminate].
  destruct (_dedup all) as [|d ds].
  { unfold log_append, ret. intros [= <- _]. congruence. }
  destruct (extract_contents E _ st2) as [[l1|e] st3]; [|discriminate].
  destruct (summarize_all E l1 st3) as [[l2|e] st4]; [|discriminate].
  unfold _save_cache. rewrite Hdisk. unfold ret. intros [= <- <-].
  cbn [st_fs]. rewrite lookup_insert_eq. eexists. split; [reflexivity|].
  cbn [readable body mtime]. split; [reflexivity|]. split; [reflexivity|].
  split; [apply items_json_roundtrip|]. eexists. reflexivity.
Qed.

End CacheEntry.

(** ** The cache key *)

Section CacheKey.

Lemma lower_char_idem (c : ascii) : lower_char (lower_char c) = lower_char c.
Proof. destruct c as [[] [] [] [] [] [] [] []]; reflexivity. Qed.

Lemma is_space_lower_char (c : ascii) : is_space (lower_char c) = is_space c.
Proof. destruct c as [[] [] [] [] [] [] [] []]; reflexivity. Qed.

Lemma lower_idem (s : string) : lower (lower s) = lower s.
Proof.
  induction s as [|c s IH]; [reflexivity|].
  cbn [lower]. now rewrite lower_char_idem, IH.
Qed.

Lemma lstrip_lower (s : string) :
  lstrip_by is_space (lower s) = lower (lstrip_by is_space s).
Proof.
  induction s as [|c s IH]; [reflexivity|].
  cbn [lower lstrip_by]. rewrite is_space_lower_char.
  destruct (is_space c); [exact IH|reflexivity].
Qed.

Lemma rstrip_lower (s : string) :
  rstrip_by is_space (lower s) = lower (rstrip_by is_space s).
Proof.
  induction s as [|c s IH]; [reflexivity|].
  cbn [lower rstrip_by]. rewrite IH, is_space_lower_char.
  destruct (rstrip_by is_space s) as [|d u]; cbn [lower].
  - destruct (is_space c); reflexivity.
  - reflexivity.
Qed.

Lemma strip_lower (s : string) : strip (lower s) = lower (strip s).
Proof. unfold strip. now rewrite rstrip_lower, lstrip_lower. Qed.

Lemma strip_leading_space (t : string) : strip (String " " t) = strip t.
Proof.
  unfold strip. cbn [rstrip_by].
  destruct (rstrip_by is_space t) as [|d u]; reflexivity.
Qed.

(** X29. The cache path of a niche and platform does not depend on
    letter case or on surrounding whitespace: lower-casing or stripping
    either of them gives the same path. *)
Theorem cache_path_normalises (E : env) (niche platform : string) :
  _cache_path E (lower niche) (lower platform) = _cache_path E niche platform
  /\ _cache_path E (strip niche) (strip platform) = _cache_path E niche platform
  /\ _cache_path E (" " +:+ niche) platform = _cache_path E niche platform.
Proof.
  unfold _cache_path. split; [|split].
  - now rewrite !lower_idem.
  - now rewrite <- !strip_lower, !strip_idem.
  - change (" " +:+ niche) with (String " " niche). cbn [lower].
    change (lower_char " ") with " "%char. now rewrite strip_leading_space.
Qed.

End CacheKey.

(** ** The counts of a returned result *)

Section ReturnedCounts.

Import Intel IntelStages Pipeline.

Create HintDb counts.
#[local] Hint Resolve ensures_ret ensures_lift ensures_log ensures_progress
  ensures_research_items ensures_guard ensures_when : counts.
#[local] Hint Extern 1 (ensures (set_field _ _) _) =>
  apply ensures_set_field; discriminate : counts.
#[local] Hint Extern 1 (ensures (set_meta _ _) _) =>
  apply ensures_set_meta; discriminate : counts.

Ltac stage := apply ensures_bind; [solve [auto with counts] | intros ?].

(** Sequencing when the rest needs a fact about the value bound. *)
Lemma ensures_bind_fact {A B : Type} (m : P A) (k : A -> P B) (fact : A -> Prop)
    (Q : B -> frame -> Prop) :
  ensures m (fun a _ => fact a) -> (forall a, fact a -> ensures (k a) Q) ->
  ensures (bind m k) Q.
Proof.
  intros Hm Hk fr b fr' Hinv. unfold bind.
  destruct (m fr) as [[a|e] fr1] eqn:Em; [|discriminate].
  destruct (Hm _ _ _ Hinv Em) as [Hinv1 Hfact]. now apply Hk.
Qed.

Lemma ensures_guard_fact (c : bool) (e : exn) :
  ensures (if c then raise e else ret tt) (fun _ _ => c = false).
Proof.
  destruct c; intros fr a fr' Hinv; [discriminate|].
  intros [= _ <-]. auto.
Qed.

Lemma items_of_json_length (entries : list json) (items : list ResearchItem) :
  items_of_json entries = Some items -> length items = length entries.
Proof.
  revert items. induction entries as [|j entries IH]; intros items; simpl.
  - now intros [= <-].
  - destruct (item_of_json j); [|discriminate].
    destruct (items_of_json entries) as [rest|]; [|discriminate].
    intros [= <-]. simpl. f_equal. now apply IH.
Qed.

Lemma ensures_research_items_fact (found : research) :
  ensures (research_items found)
          (fun research_data _ => length research_data = research_len found).
Proof.
  unfold research_items. destruct found as [entries|items].
  - destruct (items_of_json entries) as [research_data|] eqn:Ei.
    + intros fr a fr' Hinv [= <- <-]. split; [exact Hinv|].
      now apply items_of_json_length.
    + apply ensures_raise.
  - intros fr a fr' Hinv [= <- <-]. auto.
Qed.

Lemma dynamic_subdomains_length (E : env) (st st' : state) (out : list string) :
  generate_dynamic_subdomains E st = (Ok out, st') -> (5 <= length out <= 15)%nat.
Proof.
  unfold generate_dynamic_subdomains, try_except, bind, emit, call, log_append, ret.
  destruct (reply_subdomains E) as [raw|e].
  - match goal with |- context [(length ?c <? 5)%nat] => set (cleaned := c) end.
    destruct (length cleaned <? 5)%nat eqn:El.
    + intros [= <- _]. vm_compute. lia.
    + intros [= <- _]. apply Nat.ltb_ge in El. split; [exact El|].
      unfold cleaned. rewrite length_firstn. lia.
  - destruct (catches_backend (exn_kind_of e)); [|discriminate].
    intros [= <- _]. vm_compute. lia.
Qed.

Lemma ensures_subdomains_fact (E : env) :
  ensures (lift (generate_dynamic_subdomains E))
          (fun subdomains _ => (5 <= length subdomains <= 15)%nat).
Proof.
  intros fr a fr' Hinv. unfold lift.
  destruct (generate_dynamic_subdomains E (fr_state fr)) as [o st'] eqn:Eg.
  intros [= -> <-]. split; [exact Hinv|]. eapply dynamic_subdomains_length, Eg.
Qed.

Lemma ensures_gaps_fact (research_data : list ResearchItem) (subdomains : list string) :
  ensures (lift (detect_gaps research_data subdomains))
          (fun gap_results _ => length gap_results = length subdomains).
Proof.
  intros fr a fr' Hinv. unfold lift, detect_gaps, bind, log_append, ret.
  intros [= <- <-]. split; [exact Hinv|].
  unfold _keyword_gaps. now rewrite stable_sort_length, length_map.
Qed.

(** X30. In a result that a run returns, the research count in the
    meta data is the number of research samples, which is not zero; the
    number of subdomains lies between 5 and 15, and the number of gaps
    found does not exceed it. *)
Theorem run_pipeline_counts_agree (E : env)
    (niche platform audience goal : string) (cache : gmap string file)
    (result : list (string * json)) :
  surfaced (run_pipeline E niche platform audience goal cache) = Ok result ->
  counts_agree result.
Proof.
  intros Hrun.
  destruct (validate niche platform audience goal) as [e|] eqn:Hv.
  { unfold run_pipeline in Hrun. rewrite Hv in Hrun. discriminate. }
  rewrite (run_pipeline_valid _ _ _ _ _ _ Hv) in Hrun.
  destruct (stages E niche platform audience goal (time_at E 0) _)
    as [[returned|e] fr] eqn:Es.
  2:{ destruct (on_failure_raises E (time_at E 0) e fr) as (fr' & Hf & _).
      rewrite Hf in Hrun. discriminate. }
  cbn [surfaced] in Hrun. injection Hrun as ->.
  assert (Hstages : ensures (stages E niche platform audience goal (time_at E 0))
                            (fun result _ => counts_agree result)).
  { clear. unfold stages.
    do 7 stage.
    apply ensures_bind; [solve [auto with counts]|intros found].
    apply (ensures_bind_fact _ _ _ _ (ensures_guard_fact _ _)). intros _ Hfound.
    apply Nat.eqb_neq in Hfound.
    do 3 stage.
    apply (ensures_bind_fact _ _ _ _ (ensures_research_items_fact found)).
    intros research_data Hdata.
    do 16 stage.
    apply (ensures_bind_fact _ _ _ _ (ensures_subdomains_fact E)).
    intros subdomains Hsub.
    do 3 stage.
    apply (ensures_bind_fact _ _ _ _ (ensures_gaps_fact research_data subdomains)).
    intros gap_results Hgaps.
    do 15 stage.
    intros fr0 returned fr1 Hinv.
    unfold bind, set_meta, set_field, log, lift, log_append, _progress, emit, ret.
    cbn [fr_result fr_state st_log st_fs st_events st_ticks].
    destruct (has_callback E);
      cbn [fr_result fr_state st_log st_fs st_events st_ticks];
      intros [= <- <-]; cbn [fr_result fr_state].
    all: rewrite !meta_of_set_meta.
    all: (split;
          [ unfold no_error; cbn [fr_result];
            rewrite meta_of_set_other by discriminate;
            rewrite meta_of_set_meta;
            rewrite !dict_get_set_ne by discriminate; exact Hinv |]).
    all: exists (map sample_json research_data), (length subdomains),
                (count_if is_gap gap_results).
    all: unfold result_view; cbn [fr_result fr_state].
    all: rewrite !(meta_of_set_other "pipeline_log") by discriminate.
    all: rewrite !(meta_of_set_other "research_samples") by discriminate.
    all: rewrite !meta_of_set_meta.
    all: (split;
          [ rewrite dict_get_set_ne by discriminate; apply dict_get_set_eq |]).
    all: (split;
          [ intros Hnil; apply (f_equal (@length json)) in Hnil;
            rewrite length_map in Hnil; simpl in Hnil; lia |]).
    all: (split;
          [ rewrite !dict_get_set_ne by discriminate;
            rewrite length_map; apply dict_get_set_eq |]).
    all: (split; [ apply dict_get_set_eq |]).
    all: (split;
          [ rewrite dict_get_set_ne by discriminate; apply dict_get_set_eq |]).
    all: (split; [exact Hsub|]).
    all: rewrite <- Hgaps; apply count_if_le. }
  exact (proj2 (Hstages _ _ _ (first_frame_no_error _ _ _ _ _) Es)).
Qed.

End ReturnedCounts.

(** ** The further properties at concrete inputs *)

Section MoreWitnesses.

Import Intel IntelStages Strategy Pipeline.

Lemma competitive_intensity_total_witness :
  exists (i : Research.Intensity) (st' : state),
    Research.check_competitive_intensity offline "pricing teardown" "founder productivity"
                                         empty_state
    = (Ok i, st')
    /\ Research.intensity_level i = "UNKNOWN"
    /\ Research.result_count i = (-1)%Z.
Proof.
  destruct (competitive_intensity_total offline "pricing teardown" "founder productivity"
              empty_state)
    as (i & st' & Hrun & _ & _ & _ & _ & _ & Hunknown & Hcount).
  { intros e He. cbn in He. injection He as <-. reflexivity. }
  assert (Hu : Research.intensity_level i = "UNKNOWN")
    by (apply Hunknown; eexists; reflexivity).
  exists i, st'. split; [exact Hrun|]. split; [exact Hu|]. apply Hcount, Hu.
Defined.

Lemma competitive_checks_probe_first_gaps_witness :
  exists (out : list Research.Intensity) (st' : state),
    run_competitive_checks offline
      [mkGap "cold outreach" (1 # 2) false "keyword";
       mkGap "pricing pages" 0 true "keyword"]
      "founder productivity" empty_state
    = (Ok out, st')
    /\ map Research.gap out = ["pricing pages"].
Proof.
  destruct (competitive_checks_probe_first_gaps offline
              [mkGap "cold outreach" (1 # 2) false "keyword";
               mkGap "pricing pages" 0 true "keyword"]
              "founder productivity" empty_state)
    as (out & st' & Hrun & Hgaps & _).
  { intros q e He. cbn in He. injection He as <-. reflexivity. }
  exists out, st'. split; [exact Hrun|exact Hgaps].
Defined.

Lemma dynamic_subdomains_total_witness :
  exists (out : list string) (st' : state),
    generate_dynamic_subdomains offline empty_state = (Ok out, st')
    /\ out = _fallback_subdomains.
Proof.
  destruct (dynamic_subdomains_total offline empty_state)
    as (out & st' & Hrun & _ & _ & _ & _ & Hfallback).
  { intros e He. cbn in He. injection He as <-. reflexivity. }
  exists out, st'. split; [exact Hrun|]. apply Hfallback. eexists. reflexivity.
Defined.

Lemma strategy_short_draft_rejected_witness :
  (String.length (strip rewrite50) < 100)%nat
  /\ generate_strategy (with_strategy_replies (Ok rewrite50) (Ok rewrite50)) empty_state
     = (Raise (Exn RuntimeError "Strategy Pass 1 insufficient output."),
        after empty_state ["Strategy Pass 1: Generating..."] [EvPrompt "strategy draft"]).
Proof.
  assert (Hlen : (String.length (strip rewrite50) < 100)%nat) by (vm_compute; lia).
  split; [exact Hlen|].
  exact (strategy_short_draft_rejected
           (with_strategy_replies (Ok rewrite50) (Ok rewrite50)) rewrite50 empty_state
           eq_refl Hlen).
Defined.

Lemma strategy_refine_failure_keeps_draft_witness :
  exists (sections : gmap string string) (st' : state),
    generate_strategy
      (with_strategy_replies (Ok draft100)
         (Raise (Exn RuntimeError "Context limit exceeded after trimming.")))
      empty_state
    = (Ok sections, st')
    /\ sections !! "_raw" = Some draft100.
Proof.
  destruct (strategy_refine_failure_keeps_draft
              (with_strategy_replies (Ok draft100)
                 (Raise (Exn RuntimeError "Context limit exceeded after trimming.")))
              draft100 (Exn RuntimeError "Context limit exceeded after trimming.")
              empty_state eq_refl ltac:(vm_compute; lia) eq_refl eq_refl)
    as (sections & st' & Hrun & Hraw & _).
  exists sections, st'. split; [exact Hrun|exact Hraw].
Defined.

Lemma collect_results_searches_witness :
  exists (out : list ResearchItem) (st' : state) (searches : list event),
    collect_results offline "founder productivity" "LinkedIn" empty_state = (Ok out, st')
    /\ st_events st' = searches
    /\ length searches = 3%nat.
Proof.
  destruct (collect_results_searches offline "founder productivity" "LinkedIn" empty_state)
    as (out & st' & searches & Hrun & Hev & _ & _ & Hall & _).
  { intros q e He. cbn in He. injection He as <-. reflexivity. }
  { intros q e He. cbn in He. injection He as <-. reflexivity. }
  exists out, st', searches. split; [exact Hrun|]. split; [exact Hev|].
  rewrite Hall; [reflexivity|].
  assert (Hout : fst (collect_results offline "founder productivity" "LinkedIn" empty_state)
                 = Ok []) by (vm_compute; reflexivity).
  rewrite Hrun in Hout. injection Hout as ->. simpl. lia.
Defined.

Lemma research_niche_fresh_items_witness :
  exists (items : list ResearchItem) (st' : state),
    research_niche (with_ddg fourteen_pages offline) "founder productivity" "LinkedIn"
                   empty_state
    = (Ok (Fresh items), st')
    /\ List.Forall researched items
    /\ by_score_desc items.
Proof.
  destruct (research_niche (with_ddg fourteen_pages offline) "founder productivity"
                           "LinkedIn" empty_state) as [[[entries|items]|e] st'] eqn:Er;
    try (vm_compute in Er; discriminate).
  exists items, st'. split; [reflexivity|].
  destruct (research_niche_fresh_items _ _ _ _ _ _ Er) as (Hall & Hsorted & _).
  split; [exact Hall|exact Hsorted].
Defined.

Lemma fresh_research_signal_cap_witness :
  exists (items : list ResearchItem) (st' : state),
    research_niche (with_ddg fourteen_pages offline) "founder productivity" "LinkedIn"
                   empty_state
    = (Ok (Fresh items), st')
    /\ (total_urls (assess_signal items) <= 12)%nat
    /\ (total_content_chars (assess_signal items) <= 5 * 1200)%nat.
Proof.
  destruct (research_niche (with_ddg fourteen_pages offline) "founder productivity"
                           "LinkedIn" empty_state) as [[[entries|items]|e] st'] eqn:Er;
    try (vm_compute in Er; discriminate).
  exists items, st'. split; [reflexivity|].
  destruct (fresh_research_signal_cap _ _ _ _ _ _ Er) as (Hn & _ & _ & Hc & _).
  split; [exact Hn|exact Hc].
Defined.

Lemma trim_prompt_shortens_witness :
  String.length marked_prompt = 248%nat
  /\ String.length (Ollama._trim_prompt marked_prompt 173) = 142%nat.
Proof.
  split; [vm_compute; reflexivity|].
  destruct (trim_prompt_shortens marked_prompt 173
              ltac:(vm_compute; reflexivity)
              ltac:(vm_compute; lia)
              ltac:(vm_compute; split; reflexivity)) as [Hlen _].
  lia.
Defined.

Lemma trim_prompt_unchanged_witness :
  (10 < String.length "Summarize this.")%nat
  /\ Ollama._trim_prompt "Summarize this." 10 = "Summarize this.".
Proof.
  split; [vm_compute; lia|].
  apply (trim_prompt_unchanged "Summarize this." 10).
  right. split; [vm_compute; lia|]. left. vm_compute. discriminate.
Defined.

Lemma run_pipeline_result_complete_witness :
  validate "founder productivity" "LinkedIn" "founders" "leads" = None
  /\ exists result,
       result_object (run_pipeline offline "founder productivity" "LinkedIn"
                                   "founders" "leads" ∅)
       = Some result
       /\ dict_get "client_profile" result
          = Some (profile_of "founder productivity" "LinkedIn" "founders" "leads").
Proof.
  split; [reflexivity|].
  destruct (run_pipeline_result_complete offline "founder productivity" "LinkedIn"
              "founders" "leads" ∅ eq_refl) as (result & Hr & [Hp _] & _).
  exists result. split; [exact Hr|exact Hp].
Defined.

Lemma run_pipeline_backend_down_witness :
  validate "founder productivity" "LinkedIn" "founders" "leads" = None
  /\ backend_available offline = false
  /\ external_calls (final (run_pipeline offline "founder productivity" "LinkedIn"
                                         "founders" "leads" ∅))
     = [EvBackendCheck].
Proof.
  split; [reflexivity|]. split; [reflexivity|].
  exact (proj1 (proj2 (run_pipeline_backend_down offline "founder productivity" "LinkedIn"
                         "founders" "leads" ∅ eq_refl eq_refl))).
Defined.

Lemma run_pipeline_no_research_witness :
  searches_fail (with_backend true offline)
  /\ surfaced (run_pipeline (with_backend true offline) "founder productivity" "LinkedIn"
                            "founders" "leads" ∅)
     = Raise (Exn RuntimeError "No research data collected. Try a different niche.").
Proof.
  assert (Hfail : searches_fail (with_backend true offline)).
  { split; intros q; eexists; split; reflexivity. }
  split; [exact Hfail|].
  exact (proj1 (run_pipeline_no_research (with_backend true offline) "founder productivity"
                  "LinkedIn" "founders" "leads" ∅ eq_refl eq_refl (lookup_empty _) Hfail)).
Defined.

Lemma research_niche_fills_cache_witness :
  exists (items : list ResearchItem) (st' : state) (f : file),
    research_niche (with_disk true (with_ddg fourteen_pages offline))
                   "founder productivity" "LinkedIn" empty_state
    = (Ok (Fresh items), st')
    /\ st_fs st' !! _cache_path (with_disk true (with_ddg fourteen_pages offline))
                               "founder productivity" "LinkedIn"
       = Some f
    /\ body f = Document (JList (map item_json items)).
Proof.
  destruct (research_niche (with_disk true (with_ddg fourteen_pages offline))
                           "founder productivity" "LinkedIn" empty_state)
    as [[[entries|items]|e] st'] eqn:Er;
    try (vm_compute in Er; discriminate).
  assert (Hne : items <> []).
  { intros ->. vm_compute in Er. discriminate. }
  destruct (research_niche_fills_cache _ _ _ _ _ _ Er Hne eq_refl)
    as (f & Hf & _ & Hb & _).
  exists items, st', f. split; [reflexivity|]. split; [exact Hf|exact Hb].
Defined.

Lemma run_pipeline_counts_agree_witness :
  exists result,
    surfaced (run_pipeline online "founder productivity" "LinkedIn" "founders" "leads" ∅)
    = Ok result
    /\ counts_agree result.
Proof.
  destruct (surfaced (run_pipeline online "founder productivity" "LinkedIn" "founders"
                                   "leads" ∅)) as [result|e] eqn:Er;
    [|vm_compute in Er; discriminate].
  exists result. split; [reflexivity|].
  exact (run_pipeline_counts_agree _ _ _ _ _ _ _ Er).
Defined.

Lemma signal_shape_witness :
  let research_data := [mkItem "a" "" "http://a.example" "" 7 "";
                        mkItem "b" "" "http://b.example" "" 7 ""] in
  research_data <> []
  /\ (avg_heuristic_score (assess_signal research_data) == 7)%Q
  /\ (avg_heuristic_score (assess_signal []) == 0)%Q.
Proof.
  intros research_data.
  assert (Hne : research_data <> []) by discriminate.
  destruct (signal_shape research_data) as (_ & _ & _ & _ & _ & _ & _ & _ & Havg).
  destruct (signal_shape []) as (_ & _ & _ & _ & _ & _ & _ & Hnone & _).
  destruct (Havg 7%Z 7%Z Hne) as [Hlo Hhi]; [lia|lia|repeat constructor; cbn; lia|].
  split; [exact Hne|]. split; [|now apply Hnone].
  apply Qle_antisym; [exact Hhi|exact Hlo].
Defined.

Lemma send_prompt_requests_witness :
  let target := Ollama.scale07 (String.length marked_prompt) in
  target = 173%Z
  /\ fst (Ollama.send_prompt small_context marked_prompt)
     = [marked_prompt; Ollama._trim_prompt marked_prompt 173]
  /\ signals_overflow (Ollama.transport small_context 0 marked_prompt)
  /\ (7 * 248 - 10 <= 10 * target <= 7 * 248)%Z.
Proof.
  intros target.
  assert (Et : target = 173%Z) by (vm_compute; reflexivity).
  destruct (send_prompt_requests small_context marked_prompt)
    as (Hsent & Hover & Htarget & _).
  fold target in Hsent, Hover, Htarget. rewrite Et in Hsent, Hover.
  split; [exact Et|].
  destruct Hsent as [Hone|Htwo]; [vm_compute in Hone; discriminate|].
  split; [exact Htwo|]. split; [exact (Hover Htwo)|].
  apply Htarget. vm_compute. reflexivity.
Defined.

Lemma dedup_idempotent_witness :
  let results := [stub "first" "" ("http://caf" +:+ String "201" "");
                  stub "second" "" ("http://caf" +:+ String "233" "");
                  stub "third" "" "http://tea.example/"] in
  map title (_dedup results) = ["first"; "third"]
  /\ _dedup (_dedup results) = _dedup results
  /\ _dedup (skipn 1 results) = skipn 1 results.
Proof.
  intros results.
  destruct (dedup_idempotent results) as (Hagain & _ & _).
  destruct (dedup_idempotent (skipn 1 results)) as (_ & Hsame & _).
  split; [vm_compute; reflexivity|]. split; [exact Hagain|].
  apply Hsame. apply (bool_decide_unpack _). vm_compute. reflexivity.
Defined.

End MoreWitnesses.
